(** * Chat-driven synthesis and workspace synchronisation: a shallow embedding

    The development embeds, function by function, the parts of the
    workspace front end that carry state-machine or parsing content:

    - [ChatInterface.tsx]: [handleSendWithTemplate] (message lifecycle,
      context windowing, rollback, extraction of fenced code blocks);
    - [DatabaseManager.tsx]: [loadTables], [executeQuery] (schema browser);
    - the [CodeEditor] component: the auto-open effect, [toggleFolder],
      [openFile], [closeTab], the explorer and the tab bar;
    - [PreviewPanel] and the avatar of [Header].

    JavaScript strings are modelled as [string]; a character stands for
    one UTF-16 code unit in the range 0..255.  React state is a record;
    a handler created by a render closes over the values of that render
    (its _snapshot_), while functional updaters [setX(prev => ...)] act on
    the current store. *)

From Stdlib Require Import Strings.String Strings.Ascii Lists.List.
From Stdlib Require Import ZArith Bool Arith Lia DecimalString.
Import ListNotations.
Local Open Scope string_scope.
Local Open Scope list_scope.

Set Implicit Arguments.
Set Warnings "-register-all".

(* ===================================================================== *)
(** ** JavaScript values and string primitives                            *)
(* ===================================================================== *)

Module Js.

(** The line feed, written ['\n'] in the source. *)
Definition LF : ascii := "010"%char.
Definition nl : string := String LF "".

(** [WhiteSpace] and [LineTerminator] code units below 256, the set
    stripped by [String.prototype.trim]: TAB, LF, VT, FF, CR, SP, NBSP. *)
Definition isWhiteSpace (c : ascii) : bool :=
  let n := nat_of_ascii c in
  ((n =? 9) || (n =? 10) || (n =? 11) || (n =? 12) || (n =? 13)
   || (n =? 32) || (n =? 160))%nat.

Fixpoint trimStart (s : string) : string :=
  match s with
  | "" => ""
  | String c s' => if isWhiteSpace c then trimStart s' else s
  end.

Fixpoint trimEnd (s : string) : string :=
  match s with
  | "" => ""
  | String c s' =>
      match trimEnd s' with
      | "" => if isWhiteSpace c then "" else String c ""
      | t => String c t
      end
  end.

(** [s.trim()] *)
Definition trim (s : string) : string := trimEnd (trimStart s).

(** Truthiness of a string: only the empty string is falsy. *)
Definition truthy (s : string) : bool :=
  match s with "" => false | _ => true end.

(** [a || b] on strings. *)
Definition orElse (a b : string) : string := if truthy a then a else b.

(** [String.prototype.toLowerCase] on code units below 256: the ASCII
    capitals and the Latin-1 capitals U+00C0..U+00DE except U+00D7. *)
Definition lowerChar (c : ascii) : ascii :=
  let n := nat_of_ascii c in
  if (((65 <=? n) && (n <=? 90))
      || ((192 <=? n) && (n <=? 222) && negb (n =? 215)))%nat
  then ascii_of_nat (n + 32) else c.

Fixpoint toLowerCase (s : string) : string :=
  match s with
  | "" => ""
  | String c s' => String (lowerChar c) (toLowerCase s')
  end.

(** [s.startsWith(p)] *)
Fixpoint startsWith (p s : string) : bool :=
  match p, s with
  | "", _ => true
  | String _ _, "" => false
  | String a p', String b s' => Ascii.eqb a b && startsWith p' s'
  end.

(** [s.indexOf(p)], [None] standing for [-1]. *)
Fixpoint indexOf (p s : string) : option nat :=
  if startsWith p s then Some 0
  else match s with
       | "" => None
       | String _ s' => option_map S (indexOf p s')
       end.

(** [s.includes(p)] *)
Definition includes (s p : string) : bool :=
  match indexOf p s with Some _ => true | None => false end.

(** [s.substring(n)] and [s.substring(0, n)] for [n] within bounds. *)
Fixpoint drop (n : nat) (s : string) : string :=
  match n, s with
  | O, _ => s
  | S _, "" => ""
  | S n', String _ s' => drop n' s'
  end.

Fixpoint take (n : nat) (s : string) : string :=
  match n, s with
  | O, _ => ""
  | S _, "" => ""
  | S n', String c s' => String c (take n' s')
  end.

(** [s.replace(p, r)] with a string pattern: the first occurrence only. *)
Fixpoint replaceFirst (p r s : string) : string :=
  if startsWith p s then (r ++ drop (String.length p) s)%string
  else match s with
       | "" => ""
       | String c s' => String c (replaceFirst p r s')
       end.

(** [s.split(sep)] for a one-character separator: never empty. *)
Fixpoint split (sep : ascii) (s : string) : list string :=
  match s with
  | "" => [""]
  | String c s' =>
      if Ascii.eqb c sep then "" :: split sep s'
      else match split sep s' with
           | [] => [String c ""]
           | l :: ls => String c l :: ls
           end
  end.

(** [a.join(sep)] *)
Definition join (sep : string) (l : list string) : string :=
  String.concat sep l.

(** Relative index of [Array.prototype.slice]: negative counts from the end,
    everything is clamped to [0..len]. *)
Definition relIndex (len : nat) (i : Z) : nat :=
  if (i <? 0)%Z then Z.to_nat (Z.max (Z.of_nat len + i) 0)
  else Nat.min (Z.to_nat i) len.

(** [a.slice(start, stop)] *)
Definition slice {A} (start stop : Z) (l : list A) : list A :=
  let k := relIndex (List.length l) start in
  let e := relIndex (List.length l) stop in
  firstn (e - k) (skipn k l).

(** [a.slice(start)] *)
Definition sliceFrom {A} (start : Z) (l : list A) : list A :=
  skipn (relIndex (List.length l) start) l.

(** [s[s.length - 1]] *)
Fixpoint lastChar (s : string) : option ascii :=
  match s with
  | "" => None
  | String c s' =>
      match lastChar s' with
      | None => Some c
      | r => r
      end
  end.

(** Decimal rendering of an integer inside a template literal. *)
Definition numberToString (z : Z) : string :=
  NilZero.string_of_int (Z.to_int z).

(** Dynamically typed values, as found in database rows. *)
Inductive Value : Type :=
| Undefined
| Null
| Bool (b : bool)
| Number (z : Z)
| Str (s : string).

(** [ToBoolean] *)
Definition valueTruthy (v : Value) : bool :=
  match v with
  | Undefined | Null => false
  | Bool b => b
  | Number z => negb (z =? 0)%Z
  | Str s => truthy s
  end.

(** [ToString], as applied by a template literal. *)
Definition valueToString (v : Value) : string :=
  match v with
  | Undefined => "undefined"
  | Null => "null"
  | Bool true => "true"
  | Bool false => "false"
  | Number z => numberToString z
  | Str s => s
  end.

(** An object with dynamic keys; a missing property reads [undefined]. *)
Definition Object := list (string * Value).

Fixpoint prop (key : string) (o : Object) : Value :=
  match o with
  | [] => Undefined
  | (k, v) :: o' => if String.eqb k key then v else prop key o'
  end.

(** A settled promise. [Thrown] is the rejection reason. *)
Inductive Thrown : Type :=
| ErrorObject (message : string)   (* [err instanceof Error] *)
| OtherValue.

Inductive Settled (A : Type) : Type :=
| Fulfilled (a : A)
| Rejected (e : Thrown).
Arguments Rejected {A} e.

End Js.

(* ===================================================================== *)
(** ** Types ([types/index.ts])                                           *)
(* ===================================================================== *)

Module User.
Record t : Type := mk {
  id : string;
  email : string;
  displayName : option string;
  avatar : option string;
  createdAt : string }.
End User.

Inductive Role : Type := RoleUser | RoleAssistant.

Module ChatMessage.
Record t : Type := mk {
  id : string;
  role : Role;
  content : string;
  timestamp : Z;
  projectId : string;
  userId : string;
  isStreaming : option bool }.

Definition withContent (c : string) (m : t) : t :=
  mk (id m) (role m) c (timestamp m) (projectId m) (userId m) (isStreaming m).

Definition withIsStreaming (b : bool) (m : t) : t :=
  mk (id m) (role m) (content m) (timestamp m) (projectId m) (userId m)
    (Some b).
End ChatMessage.

Inductive NodeType : Type := TFile | TDirectory.

Module FileNode.
Inductive t : Type :=
  mk (name path : string) (type : NodeType) (children : option (list t))
     (content language : option string).

Definition name (n : t) : string := let 'mk x _ _ _ _ _ := n in x.
Definition path (n : t) : string := let 'mk _ x _ _ _ _ := n in x.
Definition type (n : t) : NodeType := let 'mk _ _ x _ _ _ := n in x.
Definition children (n : t) : option (list t) := let 'mk _ _ _ x _ _ := n in x.
Definition content (n : t) : option string := let 'mk _ _ _ _ x _ := n in x.
Definition language (n : t) : option string := let 'mk _ _ _ _ _ x := n in x.
End FileNode.

(** Columns and tables are filled from untyped rows ([any]), so the
    fields declared [string] and [number] hold whatever value the engine
    returned. *)
Module DatabaseColumn.
Record t : Type := mk {
  name : Js.Value;
  type : Js.Value;
  nullable : bool;
  primaryKey : bool }.
End DatabaseColumn.

Module DatabaseTable.
Record t : Type := mk {
  name : Js.Value;
  columns : list DatabaseColumn.t;
  rowCount : Js.Value }.
End DatabaseTable.

(* ===================================================================== *)
(** ** [ChatInterface]                                                    *)
(* ===================================================================== *)

Module Chat.
Import Js.

(** *** Extraction of fenced code blocks (lines 157-169) *)

Definition fence : string := "```".

(** [text.match(/```[\s\S]*?```/g)]: scanning from the left, the first
    fence opens a match, the lazy body stops at the nearest fence that
    follows the opening one, and the search resumes after the match.
    [null] (no match) is the empty list. Every match consumes at least six
    characters, so [fuel] never runs out when it starts at the length. *)
Fixpoint matchFences (fuel : nat) (s : string) : list string :=
  match fuel with
  | O => []
  | S fuel' =>
      match indexOf fence s with
      | None => []
      | Some i =>
          let rest := drop (i + 3) s in
          match indexOf fence rest with
          | None => []
          | Some k =>
              (fence ++ take k rest ++ fence)%string
                :: matchFences fuel' (drop (k + 3) rest)
          end
      end
  end.

Definition codeBlocks (text : string) : list string :=
  matchFences (String.length text) text.

(** The body of the [forEach] callback: the call of [onCodeGenerated] it
    makes, if any, as the pair [(code, fileName)]. *)
Definition blockArtifact (block : string) : option (string * string) :=
  let lines := split LF block in
  let language := trim (replaceFirst fence "" (nth 0 lines "")) in
  let code := join nl (slice 1 (-1) lines) in
  if truthy (trim code)
  then Some (code, ("generated." ++ orElse language "txt")%string)
  else None.

Fixpoint filterMap {A B} (f : A -> option B) (l : list A) : list B :=
  match l with
  | [] => []
  | x :: l' =>
      match f x with
      | Some y => y :: filterMap f l'
      | None => filterMap f l'
      end
  end.

(** The calls made by lines 157-169 when a callback is supplied. *)
Definition extractCode (fullResponse : string) : list (string * string) :=
  if includes fullResponse fence
  then filterMap blockArtifact (codeBlocks fullResponse)
  else [].

(** *** Component state, props and closures *)

Record State : Type := mkState {
  messages : list ChatMessage.t;
  input : string;
  isStreaming : bool;
  user : option User.t }.

Definition setMessages (f : list ChatMessage.t -> list ChatMessage.t)
  (st : State) : State :=
  mkState (f (messages st)) (input st) (isStreaming st) (user st).

Definition setInput (v : string) (st : State) : State :=
  mkState (messages st) v (isStreaming st) (user st).

Definition setIsStreaming (b : bool) (st : State) : State :=
  mkState (messages st) (input st) b (user st).

Definition setUser (u : option User.t) (st : State) : State :=
  mkState (messages st) (input st) (isStreaming st) u.

Record Props : Type := mkProps {
  projectId : string;
  onCodeGenerated : bool   (* whether the optional callback is supplied *) }.

(** What the handlers created by one render close over. *)
Record Closure : Type := mkClosure {
  c_props : Props;
  c_messages : list ChatMessage.t;
  c_input : string;
  c_isStreaming : bool;
  c_user : option User.t }.

Definition render (p : Props) (st : State) : Closure :=
  mkClosure p (messages st) (input st) (isStreaming st) (user st).

(** *** The inference endpoint *)

Record WireMessage : Type := mkWire {
  w_role : Role;
  w_content : string }.

Record RequestBody : Type := mkBody {
  b_messages : list WireMessage;
  b_template : option string }.

Record InferenceData : Type := mkData {
  d_response : string;
  d_html : option string;
  d_error : option string }.

(** The object [fetch] resolves to; [json] is what [response.json()]
    settles to. *)
Record HttpResponse : Type := mkResponse {
  json : Settled InferenceData }.

Definition optTruthy (o : option string) : bool :=
  match o with Some s => truthy s | None => false end.

(** *** Asynchronous control flow

    A call of an [async] function is a tree of synchronous steps
    separated by suspension points ([await]). *)
Inductive Proc : Type :=
| Finish
| SetState (f : State -> State) (k : Proc)
| ConsoleError (label : string) (k : Proc)
| OnCodeGenerated (code fileName : string) (k : Proc)
| AwaitCreate (row : ChatMessage.t) (k : Settled unit -> Proc)
| AwaitFetch (body : RequestBody) (k : Settled HttpResponse -> Proc)
| AwaitJson (r : HttpResponse) (k : Settled InferenceData -> Proc).

(** The four readings of [Date.now()] made by one call. *)
Record Clock : Type := mkClock {
  nowUserId : Z;
  nowUserTimestamp : Z;
  nowAssistantId : Z;
  nowAssistantTimestamp : Z }.

Definition userMessageOf (c : Closure) (u : User.t) (clk : Clock)
  (messageContent : string) : ChatMessage.t :=
  ChatMessage.mk ("msg_" ++ numberToString (nowUserId clk) ++ "_user")%string
    RoleUser (trim messageContent) (nowUserTimestamp clk)
    (projectId (c_props c)) (User.id u) None.

Definition assistantMessageOf (c : Closure) (u : User.t) (clk : Clock)
  : ChatMessage.t :=
  ChatMessage.mk
    ("msg_" ++ numberToString (nowAssistantId clk) ++ "_assistant")%string
    RoleAssistant "" (nowAssistantTimestamp clk)
    (projectId (c_props c)) (User.id u) (Some true).

(** The object literal handed to [blink.db.chatMessages.create]: the six
    persisted fields, without [isStreaming]. *)
Definition rowOf (m : ChatMessage.t) (content : string) : ChatMessage.t :=
  ChatMessage.mk (ChatMessage.id m) (ChatMessage.role m) content
    (ChatMessage.timestamp m) (ChatMessage.projectId m)
    (ChatMessage.userId m) None.

Definition toWire (m : ChatMessage.t) : WireMessage :=
  mkWire (ChatMessage.role m) (ChatMessage.content m).

(** Lines 107-116. *)
Definition requestBody (c : Closure) (userMessage : ChatMessage.t)
  (template : option string) : RequestBody :=
  mkBody (map toWire (sliceFrom (-5) (c_messages c) ++ [userMessage])) template.

Definition updateById (id : string) (f : ChatMessage.t -> ChatMessage.t)
  (prev : list ChatMessage.t) : list ChatMessage.t :=
  map (fun msg => if String.eqb (ChatMessage.id msg) id then f msg else msg)
    prev.

(** [finally] (line 175) and [catch] followed by [finally] (lines 171-176). *)
Definition finallyBlock : Proc :=
  SetState (setIsStreaming false) Finish.

Definition catchBlock : Proc :=
  ConsoleError "Failed to send message:"
    (SetState (setMessages (slice 0 (-1))) finallyBlock).

(** Lines 152-154. *)
Definition htmlStep (c : Closure) (data : InferenceData) (k : Proc) : Proc :=
  match d_html data with
  | Some html =>
      if truthy html && onCodeGenerated (c_props c)
      then OnCodeGenerated html "index.html" k
      else k
  | None => k
  end.

(** Lines 157-169. *)
Definition codeStep (c : Closure) (fullResponse : string) (k : Proc) : Proc :=
  if onCodeGenerated (c_props c)
  then fold_right (fun a k' => OnCodeGenerated (fst a) (snd a) k')
         k (extractCode fullResponse)
  else k.

(** Lines 61-177. *)
Definition handleSendWithTemplate (c : Closure) (clk : Clock)
  (messageContent : string) (template : option string) : Proc :=
  match c_user c with
  | None => Finish
  | Some u =>
    if negb (truthy (trim messageContent)) || c_isStreaming c then Finish
    else
    let userMessage := userMessageOf c u clk messageContent in
    SetState (setMessages (fun prev => prev ++ [userMessage]))
    (SetState (setInput "")
    (SetState (setIsStreaming true)
    (AwaitCreate (rowOf userMessage (ChatMessage.content userMessage))
      (fun saved =>
       match saved with
       | Rejected _ => catchBlock
       | Fulfilled _ =>
    let assistantMessage := assistantMessageOf c u clk in
    SetState (setMessages (fun prev => prev ++ [assistantMessage]))
    (AwaitFetch (requestBody c userMessage template)
      (fun fetched =>
       match fetched with
       | Rejected _ => catchBlock
       | Fulfilled response =>
    AwaitJson response
      (fun parsed =>
       match parsed with
       | Rejected _ => catchBlock
       | Fulfilled data =>
    if optTruthy (d_error data) then catchBlock
    else
    let fullResponse := d_response data in
    SetState (setMessages
                (updateById (ChatMessage.id assistantMessage)
                   (ChatMessage.withContent fullResponse)))
    (AwaitCreate (rowOf assistantMessage fullResponse)
      (fun saved' =>
       match saved' with
       | Rejected _ => catchBlock
       | Fulfilled _ =>
    SetState (setMessages
                (updateById (ChatMessage.id assistantMessage)
                   (ChatMessage.withIsStreaming false)))
    (htmlStep c data (codeStep c fullResponse finallyBlock))
       end))
       end)
       end))
       end))))
  end.

(** Lines 202-206. *)
Definition handleSend (c : Closure) (clk : Clock) : Proc :=
  match c_user c with
  | None => Finish
  | Some _ =>
      if negb (truthy (trim (c_input c))) || c_isStreaming c then Finish
      else handleSendWithTemplate c clk (c_input c) None
  end.

(** *** Running one call to completion

    The collaborators are functions of the request; the log records the
    observable calls in the order they are made. *)
Inductive Event : Type :=
| EvCreate (row : ChatMessage.t)
| EvFetch (body : RequestBody)
| EvConsoleError (label : string)
| EvCodeGenerated (code fileName : string).

Record Backend : Type := mkBackend {
  create : ChatMessage.t -> Settled unit;
  fetch : RequestBody -> Settled HttpResponse }.

Fixpoint run (b : Backend) (p : Proc) (st : State) : State * list Event :=
  match p with
  | Finish => (st, [])
  | SetState f k => run b k (f st)
  | ConsoleError label k =>
      let (st', ev) := run b k st in (st', EvConsoleError label :: ev)
  | OnCodeGenerated code fileName k =>
      let (st', ev) := run b k st in (st', EvCodeGenerated code fileName :: ev)
  | AwaitCreate row k =>
      let (st', ev) := run b (k (create b row)) st in (st', EvCreate row :: ev)
  | AwaitFetch body k =>
      let (st', ev) := run b (k (fetch b body)) st in (st', EvFetch body :: ev)
  | AwaitJson r k => run b (k (json r)) st
  end.

(** [send]: the handler of the current render, run without interference. *)
Definition send (b : Backend) (p : Props) (clk : Clock)
  (prompt : string) (template : option string) (st : State)
  : State * list Event :=
  run b (handleSendWithTemplate (render p st) clk prompt template) st.

(** The calls of [onCodeGenerated] made by lines 151-169. *)
Definition callbackEvents (c : Closure) (data : InferenceData) : list Event :=
  match d_html data with
  | Some html =>
      if truthy html && onCodeGenerated (c_props c)
      then [EvCodeGenerated html "index.html"] else []
  | None => []
  end
  ++ (if onCodeGenerated (c_props c)
      then map (fun a => EvCodeGenerated (fst a) (snd a))
             (extractCode (d_response data))
      else []).

(** The guard of line 62, as seen by a closure. *)
Definition accepts (c : Closure) (prompt : string) : bool :=
  match c_user c with
  | None => false
  | Some _ => truthy (trim prompt) && negb (c_isStreaming c)
  end.

Definition isFetch (e : Event) : bool :=
  match e with EvFetch _ => true | _ => false end.

Definition isCreate (e : Event) : bool :=
  match e with EvCreate _ => true | _ => false end.

Definition isCodeGenerated (e : Event) : bool :=
  match e with EvCodeGenerated _ _ => true | _ => false end.

(** The ways the inference call of lines 102-123 fails: [fetch] rejects,
    [response.json()] rejects, or the payload carries a truthy [error]. *)
Definition inferenceFails (r : Settled HttpResponse) : bool :=
  match r with
  | Rejected _ => true
  | Fulfilled resp =>
      match json resp with
      | Rejected _ => true
      | Fulfilled data => optTruthy (d_error data)
      end
  end.

(** *** Interleaved calls

    Between two events of the page several calls may be suspended. An
    action runs one synchronous stretch; React then commits and renders,
    so the handlers bound to the page always come from the latest render.
    A timer keeps the closure of the render whose effect created it. *)
Inductive Reply : Type :=
| CreateSettled (r : Settled unit)
| FetchSettled (r : Settled HttpResponse)
| JsonSettled.

(** The two nested [setTimeout]s of lines 190-198: the outer one fills the
    text area and arms the inner one, which makes the call. *)
Record Timer : Type := mkTimer {
  t_closure : Closure;
  t_prompt : string;
  t_template : option string;
  t_inner : bool }.

Record World : Type := mkWorld {
  store : State;
  props : Props;
  handlers : Closure;
  staged : option (string * option string);
  timers : list Timer;
  tasks : list Proc;
  log : list Event }.

(** One synchronous stretch: up to the next [await] or to the end. *)
Fixpoint runSync (p : Proc) (st : State) : State * list Event * Proc :=
  match p with
  | SetState f k => runSync k (f st)
  | ConsoleError label k =>
      let '(st', ev, p') := runSync k st in
      (st', EvConsoleError label :: ev, p')
  | OnCodeGenerated code fileName k =>
      let '(st', ev, p') := runSync k st in
      (st', EvCodeGenerated code fileName :: ev, p')
  | AwaitCreate row _ => (st, [EvCreate row], p)
  | AwaitFetch body _ => (st, [EvFetch body], p)
  | Finish | AwaitJson _ _ => (st, [], p)
  end.

Definition resume (p : Proc) (r : Reply) : option Proc :=
  match p, r with
  | AwaitCreate _ k, CreateSettled x => Some (k x)
  | AwaitFetch _ k, FetchSettled x => Some (k x)
  | AwaitJson resp k, JsonSettled => Some (k (json resp))
  | _, _ => None
  end.

Definition isFinished (p : Proc) : bool :=
  match p with Finish => true | _ => false end.

Definition park (p : Proc) (ts : list Proc) : list Proc :=
  if isFinished p then ts else ts ++ [p].

Fixpoint replaceTask (i : nat) (p : Proc) (ts : list Proc) : list Proc :=
  match ts, i with
  | [], _ => []
  | _ :: ts', O => if isFinished p then ts' else p :: ts'
  | t :: ts', S i' => t :: replaceTask i' p ts'
  end.

Fixpoint removeNth {A} (i : nat) (l : list A) : list A :=
  match l, i with
  | [], _ => []
  | _ :: l', O => l'
  | x :: l', S i' => x :: removeNth i' l'
  end.

Fixpoint replaceNth {A} (i : nat) (x : A) (l : list A) : list A :=
  match l, i with
  | [], _ => []
  | _ :: l', O => x :: l'
  | y :: l', S i' => y :: replaceNth i' x l'
  end.

(** The effect of lines 180-200, run after a commit: a staged prompt is
    consumed once and a timer is armed with the handler of this render. *)
Definition autoSendEffect (w : World) : World :=
  match user (store w), staged w with
  | Some _, Some (initialPrompt, initialTemplate) =>
      if truthy initialPrompt
      then mkWorld (store w) (props w) (handlers w) None
             (timers w
                ++ [mkTimer (handlers w) initialPrompt initialTemplate false])
             (tasks w) (log w)
      else w
  | _, _ => w
  end.

Definition commit (w : World) : World :=
  autoSendEffect
    (mkWorld (store w) (props w) (render (props w) (store w))
       (staged w) (timers w) (tasks w) (log w)).

(** The last two actions are the callback of [onAuthStateChanged]
    (lines 46-51) and the settling of the list request that [loadMessages]
    (lines 24-35) makes when the component mounts. The request is made
    once per mount; what is proved below for every list of actions holds
    for any number of arrivals. *)
Inductive Action : Type :=
| Type_ (text : string)                 (* [onChange] of the text area *)
| ClickSend (clk : Clock)               (* [onClick] / Enter: [handleSend] *)
| TimerFires (i : nat) (clk : Clock)    (* a [setTimeout] callback *)
| Settles (i : nat) (r : Reply)         (* a pending promise settles *)
| AuthChanged (u : option User.t)
| HistoryLoaded (r : Settled (list ChatMessage.t)).

Definition start (p : Proc) (w : World) : World :=
  let '(st', ev, p') := runSync p (store w) in
  commit (mkWorld st' (props w) (handlers w) (staged w) (timers w)
            (park p' (tasks w)) (log w ++ ev)).

Definition step (a : Action) (w : World) : World :=
  match a with
  | Type_ text =>
      if c_isStreaming (handlers w) then w     (* the text area is disabled *)
      else commit (mkWorld (setInput text (store w)) (props w) (handlers w)
                     (staged w) (timers w) (tasks w) (log w))
  | ClickSend clk => start (handleSend (handlers w) clk) w
  | TimerFires i clk =>
      match nth_error (timers w) i with
      | None => w
      | Some t =>
          if t_inner t then
            let w' := mkWorld (store w) (props w) (handlers w) (staged w)
                        (removeNth i (timers w)) (tasks w) (log w) in
            if truthy (trim (t_prompt t))
            then start (handleSendWithTemplate (t_closure t) clk
                          (t_prompt t) (t_template t)) w'
            else w'
          else
            commit (mkWorld (setInput (t_prompt t) (store w)) (props w)
                      (handlers w) (staged w)
                      (replaceNth i
                         (mkTimer (t_closure t) (t_prompt t) (t_template t)
                            true)
                         (timers w))
                      (tasks w) (log w))
      end
  | Settles i r =>
      match nth_error (tasks w) i with
      | None => w
      | Some p =>
          match resume p r with
          | None => w
          | Some k =>
              let '(st', ev, p') := runSync k (store w) in
              commit (mkWorld st' (props w) (handlers w) (staged w) (timers w)
                        (replaceTask i p' (tasks w)) (log w ++ ev))
          end
      end
  | AuthChanged u =>
      commit (mkWorld (setUser u (store w)) (props w) (handlers w)
                (staged w) (timers w) (tasks w) (log w))
  | HistoryLoaded (Fulfilled chatMessages) =>
      commit (mkWorld (setMessages (fun _ => chatMessages) (store w))
                (props w) (handlers w) (staged w) (timers w) (tasks w)
                (log w))
  | HistoryLoaded (Rejected _) =>
      mkWorld (store w) (props w) (handlers w) (staged w) (timers w)
        (tasks w) (log w ++ [EvConsoleError "Failed to load messages:"])
  end.

Definition steps (l : list Action) (w : World) : World :=
  fold_left (fun w a => step a w) l w.

(** The component right after mounting: nobody is known to be signed in
    and the stored log has been asked for but has not arrived. *)
Definition boot (p : Props) (stagedPrompt : option (string * option string))
  : World :=
  let st := mkState [] "" false None in
  commit (mkWorld st p (render p st) stagedPrompt [] [] []).

(** The component once the stored log has arrived and, after it, the
    user has become known: [boot] followed by [HistoryLoaded] and
    [AuthChanged]. When the user becomes known first, the auto-send effect
    runs on a render whose log is still empty. *)
Definition mount (p : Props) (u : User.t) (msgs : list ChatMessage.t)
  (stagedPrompt : option (string * option string)) : World :=
  let st := mkState msgs "" false (Some u) in
  commit (mkWorld st p (render p st) stagedPrompt [] [] []).

Definition awaitsInference (p : Proc) : bool :=
  match p with AwaitFetch _ _ | AwaitJson _ _ => true | _ => false end.

(** Number of inference requests in flight. *)
Definition inFlight (w : World) : nat :=
  List.length (filter awaitsInference (tasks w)).

(** A call that never clears a set flag before its last step. *)
Fixpoint Orderly (p : Proc) : Prop :=
  match p with
  | Finish => True
  | SetState f k =>
      (k = Finish
       \/ forall st, isStreaming st = true -> isStreaming (f st) = true)
      /\ Orderly k
  | ConsoleError _ k => Orderly k
  | OnCodeGenerated _ _ k => Orderly k
  | AwaitCreate _ k => forall r, Orderly (k r)
  | AwaitFetch _ k => forall r, Orderly (k r)
  | AwaitJson _ k => forall r, Orderly (k r)
  end.

(** No timer is armed or about to be, the page shows the current state,
    and at most one call is suspended, with the flag set while it is. *)
Definition Serialized (w : World) : Prop :=
  timers w = []
  /\ staged w = None
  /\ handlers w = render (props w) (store w)
  /\ (tasks w = []
      \/ exists t, tasks w = [t] /\ isFinished t = false
                   /\ isStreaming (store w) = true /\ Orderly t).

End Chat.

(* ===================================================================== *)
(** ** [CodeEditor]                                                       *)
(* ===================================================================== *)

Module Editor.
Import Js.

Record State : Type := mkState {
  selectedFile : option string;
  fileContents : list (string * string);   (* [Record<string, string>] *)
  expandedFolders : list string;           (* [Set<string>], insertion order *)
  openTabs : list string }.

Definition initial : State := mkState None [] ["src"] [].

(** [obj[key]] among the own keys, and [{ ...obj, [key]: v }], on a
    string-keyed object. *)
Fixpoint getKey (key : string) (o : list (string * string)) : option string :=
  match o with
  | [] => None
  | (k, v) :: o' => if String.eqb k key then Some v else getKey key o'
  end.

Fixpoint setKey (key v : string) (o : list (string * string))
  : list (string * string) :=
  match o with
  | [] => [(key, v)]
  | (k, x) :: o' =>
      if String.eqb k key then (k, v) :: o' else (k, x) :: setKey key v o'
  end.

(** The names a plain object inherits from [Object.prototype]. Each is
    bound there to a function or an object, so [obj[key]] is truthy for
    them unless an own key hides it. *)
Definition inherited (key : string) : bool :=
  existsb (String.eqb key)
    [ "constructor"; "hasOwnProperty"; "isPrototypeOf";
      "propertyIsEnumerable"; "toLocaleString"; "toString"; "valueOf";
      "__proto__"; "__defineGetter__"; "__defineSetter__";
      "__lookupGetter__"; "__lookupSetter__" ].

(** [!!obj[key]] *)
Definition truthyAt (key : string) (o : list (string * string)) : bool :=
  match getKey key o with
  | Some x => truthy x
  | None => inherited key
  end.

Definition neqb (a b : string) : bool := negb (String.eqb a b).

Definition includesTab (tabs : list string) (p : string) : bool :=
  existsb (String.eqb p) tabs.

(** [a[a.length - 1]], [None] standing for [null]. *)
Definition lastOpt (l : list string) : option string :=
  match l with
  | [] => None
  | x :: l' => Some (last l' x)
  end.

Definition isMainFile (f : FileNode.t) : bool :=
  String.eqb (FileNode.name f) "App.tsx"
  || String.eqb (FileNode.name f) "main.tsx"
  || String.eqb (FileNode.name f) "index.tsx".

(** The body of the effect of lines 616-631. *)
Definition autoOpen (files : list FileNode.t) (st : State) : State :=
  let mainFiles := filter isMainFile files in
  match mainFiles with
  | mainFile :: _ =>
      if (List.length (openTabs st) =? 0)%nat then
        let p := FileNode.path mainFile in
        let contents :=
          match FileNode.content mainFile with
          | Some c => if truthy c then setKey p c (fileContents st)
                      else fileContents st
          | None => fileContents st
          end in
        mkState (Some p) contents (expandedFolders st) [p]
      else st
  | [] => st
  end.

(** The dependency array [[files, openTabs.length]]: after a render the
    effect runs again when the [files] prop is a new array or the number
    of open tabs differs from that of the previous render. *)
Definition afterRender (filesChanged : bool) (files : list FileNode.t)
  (previous current : State) : State :=
  if filesChanged
     || negb (List.length (openTabs previous)
              =? List.length (openTabs current))%nat
  then autoOpen files current
  else current.

(** On mount every effect runs once. *)
Definition mount (files : list FileNode.t) : State := autoOpen files initial.

(** Lines 633-643. *)
Definition toggleFolder (p : string) (st : State) : State :=
  mkState (selectedFile st) (fileContents st)
    (if includesTab (expandedFolders st) p
     then filter (neqb p) (expandedFolders st)
     else expandedFolders st ++ [p])
    (openTabs st).

(** Lines 645-659. *)
Definition openFile (file : FileNode.t) (st : State) : State :=
  match FileNode.type file with
  | TDirectory => toggleFolder (FileNode.path file) st
  | TFile =>
      let p := FileNode.path file in
      let tabs := if includesTab (openTabs st) p then openTabs st
                  else openTabs st ++ [p] in
      let contents :=
        match FileNode.content file with
        | Some c =>
            if truthy c && negb (truthyAt p (fileContents st))
            then setKey p c (fileContents st)
            else fileContents st
        | None => fileContents st
        end in
      mkState (Some p) contents (expandedFolders st) tabs
  end.

(** Lines 661-667; [tab !== path] is [neqb path tab]. *)
Definition closeTab (p : string) (st : State) : State :=
  let tabs' := filter (neqb p) (openTabs st) in
  match selectedFile st with
  | Some sel =>
      if String.eqb sel p
      then let remainingTabs := filter (neqb p) (openTabs st) in
           mkState (if (0 <? List.length remainingTabs)%nat
                    then lastOpt remainingTabs else None)
             (fileContents st) (expandedFolders st) tabs'
      else mkState (selectedFile st) (fileContents st) (expandedFolders st)
             tabs'
  | None => mkState None (fileContents st) (expandedFolders st) tabs'
  end.

(** The names the auto-open effect looks for. *)
Definition MainName (f : FileNode.t) : Prop :=
  FileNode.name f = "App.tsx" \/ FileNode.name f = "main.tsx"
  \/ FileNode.name f = "index.tsx".

(** All the nodes of a tree, parents before children. *)
Fixpoint nodes (n : FileNode.t) : list FileNode.t :=
  n :: match FileNode.children n with
       | Some l =>
           (fix go (l : list FileNode.t) : list FileNode.t :=
              match l with
              | [] => []
              | x :: r => nodes x ++ go r
              end) l
       | None => []
       end.

Definition allNodes (files : list FileNode.t) : list FileNode.t :=
  flat_map nodes files.

(** The tab preceding [p] in open order, if any. *)
Fixpoint precedingTab (p : string) (tabs : list string) : option string :=
  match tabs with
  | a :: ((b :: _) as rest) =>
      if String.eqb b p then Some a else precedingTab p rest
  | _ => None
  end.

End Editor.

(* ===================================================================== *)
(** ** [DatabaseManager]                                                  *)
(* ===================================================================== *)

Module Database.
Import Js.

Record State : Type := mkState {
  tables : list DatabaseTable.t;
  selectedTable : option Value;
  tableData : list Object;
  sqlQuery : string;
  queryResult : option (list Object);
  isLoading : bool;
  error : option string }.

Definition setTables (v : list DatabaseTable.t) (st : State) : State :=
  mkState v (selectedTable st) (tableData st) (sqlQuery st) (queryResult st)
    (isLoading st) (error st).

Definition setSelectedTable (v : option Value) (st : State) : State :=
  mkState (tables st) v (tableData st) (sqlQuery st) (queryResult st)
    (isLoading st) (error st).

Definition setTableData (v : list Object) (st : State) : State :=
  mkState (tables st) (selectedTable st) v (sqlQuery st) (queryResult st)
    (isLoading st) (error st).

Definition setQueryResult (v : option (list Object)) (st : State) : State :=
  mkState (tables st) (selectedTable st) (tableData st) (sqlQuery st) v
    (isLoading st) (error st).

Definition setIsLoading (v : bool) (st : State) : State :=
  mkState (tables st) (selectedTable st) (tableData st) (sqlQuery st)
    (queryResult st) v (error st).

Definition setError (v : option string) (st : State) : State :=
  mkState (tables st) (selectedTable st) (tableData st) (sqlQuery st)
    (queryResult st) (isLoading st) v.

(** The observable calls: statements handed to the engine, with the
    rejection if any, and entries into [loadTables]. *)
Inductive Event : Type :=
| EvSql (statement : string) (failure : option Thrown)
| EvLoadTables.

(** [err instanceof Error ? err.message : fallback] *)
Definition errorMessage (err : Thrown) (fallback : string) : string :=
  match err with
  | ErrorObject message => message
  | OtherValue => fallback
  end.

Definition listTablesSql : string :=
  (nl ++ "        SELECT name FROM sqlite_master " ++ nl
      ++ "        WHERE type='table' AND name NOT LIKE 'sqlite_%'" ++ nl
      ++ "        ORDER BY name" ++ nl
      ++ "      ")%string.

(** Lines 51-56. *)
Definition toColumn (col : Object) : DatabaseColumn.t :=
  DatabaseColumn.mk (prop "name" col) (prop "type" col)
    (negb (valueTruthy (prop "notnull" col)))
    (match prop "pk" col with Number 1 => true | _ => false end).

(** [countResult[0]?.count || 0] *)
Definition countOf (countResult : list Object) : Value :=
  let c := match countResult with
           | [] => Undefined
           | row :: _ => prop "count" row
           end in
  if valueTruthy c then c else Number 0.

Definition mentionsSchemaChange (q : string) : bool :=
  includes (toLowerCase q) "create"
  || includes (toLowerCase q) "drop"
  || includes (toLowerCase q) "alter".

Section Engine.

(** The relational engine behind [blink.db.sql]: any state, any
    deterministic response to a statement. *)
Variable DB : Type.
Variable sql : string -> DB -> Settled (list Object) * DB.

(** Computations over the component state and the engine that may throw
    and that log their calls. *)
Definition M (A : Type) : Type :=
  State * DB -> Settled A * (State * DB) * list Event.

Definition ret {A} (a : A) : M A := fun s => (Fulfilled a, s, []).

Definition bind {A B} (m : M A) (f : A -> M B) : M B :=
  fun s =>
    match m s with
    | (Fulfilled a, s', ev) =>
        let '(r, s'', ev') := f a s' in (r, s'', ev ++ ev')
    | (Rejected e, s', ev) => (Rejected e, s', ev)
    end.

Definition modify (f : State -> State) : M unit :=
  fun s => (Fulfilled tt, (f (fst s), snd s), []).

Definition emit (e : Event) : M unit :=
  fun s => (Fulfilled tt, s, [e]).

(** [await blink.db.sql(statement)] *)
Definition runSql (statement : string) : M (list Object) :=
  fun s =>
    let (r, db') := sql statement (snd s) in
    (r, (fst s, db'),
     [EvSql statement
        match r with Rejected e => Some e | Fulfilled _ => None end]).

(** [try { body } catch (err) { handler err } finally { fin }] *)
Definition tryCatchFinally (body : M unit) (handler : Thrown -> M unit)
  (fin : M unit) : M unit :=
  fun s =>
    match body s with
    | (Fulfilled _, s1, ev1) =>
        let '(r, s2, ev2) := fin s1 in (r, s2, ev1 ++ ev2)
    | (Rejected e, s1, ev1) =>
        match handler e s1 with
        | (Fulfilled _, s2, ev2) =>
            let '(r, s3, ev3) := fin s2 in (r, s3, ev1 ++ ev2 ++ ev3)
        | (Rejected e', s2, ev2) =>
            match fin s2 with
            | (Fulfilled _, s3, ev3) => (Rejected e', s3, ev1 ++ ev2 ++ ev3)
            | (Rejected e'', s3, ev3) => (Rejected e'', s3, ev1 ++ ev2 ++ ev3)
            end
        end
    end.

Notation "x <- m ;; k" := (bind m (fun x => k))
  (at level 61, m at next level, right associativity).
Notation "m ;;; k" := (bind m (fun _ => k))
  (at level 61, right associativity).

(** [for (const row of result) { ...; tableList.push(...) }] *)
Fixpoint forEach {A B} (f : A -> M B) (l : list A) : M (list B) :=
  match l with
  | [] => ret []
  | x :: l' => y <- f x ;; ys <- forEach f l' ;; ret (y :: ys)
  end.

(** Lines 46-67, one iteration. *)
Definition describeTable (row : Object) : M DatabaseTable.t :=
  let tableName := prop "name" row in
  schemaResult <-
    runSql ("PRAGMA table_info(" ++ valueToString tableName ++ ")")%string ;;
  let columns := map toColumn schemaResult in
  countResult <-
    runSql
      ("SELECT COUNT(*) as count FROM " ++ valueToString tableName)%string ;;
  ret (DatabaseTable.mk tableName columns (countOf countResult)).

(** Lines 32-75. *)
Definition loadTables : M unit :=
  emit EvLoadTables ;;;
  tryCatchFinally
    (modify (setIsLoading true) ;;;
     modify (setError None) ;;;
     result <- runSql listTablesSql ;;
     tableList <- forEach describeTable result ;;
     modify (setTables tableList))
    (fun err =>
       modify (setError (Some (errorMessage err "Failed to load tables"))))
    (modify (setIsLoading false)).

(** Lines 81-94. *)
Definition loadTableData (tableName : Value) : M unit :=
  tryCatchFinally
    (modify (setIsLoading true) ;;;
     modify (setError None) ;;;
     result <-
       runSql
         ("SELECT * FROM " ++ valueToString tableName ++ " LIMIT 100")%string ;;
     modify (setTableData result) ;;;
     modify (setSelectedTable (Some tableName)))
    (fun err =>
       modify (setError (Some (errorMessage err "Failed to load table data"))))
    (modify (setIsLoading false)).

(** Lines 96-117; [q] is the [sqlQuery] of the render. *)
Definition executeQuery (q : string) : M unit :=
  if negb (truthy (trim q)) then ret tt
  else
    tryCatchFinally
      (modify (setIsLoading true) ;;;
       modify (setError None) ;;;
       result <- runSql q ;;
       modify (setQueryResult (Some result)) ;;;
       if mentionsSchemaChange q then loadTables else ret tt)
      (fun err =>
         modify (setError (Some (errorMessage err "Query execution failed"))))
      (modify (setIsLoading false)).

End Engine.


Definition engineFailure (e : Event) : option Thrown :=
  match e with EvSql _ f => f | EvLoadTables => None end.

(** What a computation returns: the settled promise, the component
    state, the calls it made. *)
Definition resultOf {A S} (x : Settled A * (State * S) * list Event)
  : Settled A := fst (fst x).

Definition stateOf {A S} (x : Settled A * (State * S) * list Event)
  : State := fst (snd (fst x)).

Definition eventsOf {A S} (x : Settled A * (State * S) * list Event)
  : list Event := snd x.

(** A computation that only queries the engine: the component state is
    left alone, and the engine has failed exactly when the computation
    throws, with the engine's error. *)
Definition Quiet {A} (DB : Type) (m : M DB A) : Prop :=
  forall s,
    stateOf (m s) = fst s
    /\ match resultOf (m s) with
       | Fulfilled _ =>
           forall stmt e, ~ In (EvSql stmt (Some e)) (eventsOf (m s))
       | Rejected e =>
           forall stmt e', In (EvSql stmt (Some e')) (eventsOf (m s)) -> e' = e
       end.





(** The two schema operations that talk to the engine. *)
Inductive Operation : Type :=
| Refresh                     (* [loadTables] *)
| Execute (q : string).       (* [executeQuery] with [sqlQuery = q] *)

Definition perform (DB : Type)
  (sql : string -> DB -> Settled (list Object) * DB) (op : Operation)
  : M DB unit :=
  match op with
  | Refresh => loadTables sql
  | Execute q => executeQuery sql q
  end.

End Database.

(* ===================================================================== *)
(** ** Fenced documents                                                   *)
(* ===================================================================== *)

Module Fenced.
Import Js.

Fixpoint allChars (P : ascii -> bool) (s : string) : bool :=
  match s with
  | "" => true
  | String c s' => P c && allChars P s'
  end.

Definition backtick : ascii := "`"%char.

Definition noBacktick (s : string) : bool :=
  allChars (fun c => negb (Ascii.eqb c backtick)) s.

Definition noLineFeed (s : string) : bool :=
  allChars (fun c => negb (Ascii.eqb c LF)) s.

(** A fenced region of a response: the text before it, the language tag
    on the line of the opening fence, and the body lines. *)
Record Region : Type := mkRegion {
  before : string;
  tag : string;
  body : string }.

Definition regionText (r : Region) : string :=
  (Chat.fence ++ tag r ++ nl ++ body r ++ nl ++ Chat.fence)%string.

Fixpoint document (rs : list Region) (trailing : string) : string :=
  match rs with
  | [] => trailing
  | r :: rs' => (before r ++ regionText r ++ document rs' trailing)%string
  end.

(** The text around the regions has no backtick, the tag stays on its
    line, and neither tag nor body contains a fence. *)
Definition wellFormed (r : Region) : Prop :=
  noBacktick (before r) = true /\
  noLineFeed (tag r) = true /\
  includes (tag r) Chat.fence = false /\
  includes (body r) Chat.fence = false.

(** The artifact a region stands for: none when the body is blank,
    otherwise the body under the name [generated.<tag>], [txt] replacing
    an empty tag. *)
Definition artifactOf (r : Region) : option (string * string) :=
  if truthy (trim (body r))
  then Some (body r, ("generated." ++ orElse (trim (tag r)) "txt")%string)
  else None.

End Fenced.

(* ===================================================================== *)
(** ** Concrete inputs                                                    *)
(* ===================================================================== *)

Module Examples.
Import Js.

Definition pythonExample : string :=
  ("```python" ++ nl ++ "print(1)" ++ nl ++ "```")%string.

Definition twoLanguages : string :=
  ("```python" ++ nl ++ "a" ++ nl ++ "```" ++ nl
   ++ "```js" ++ nl ++ "b" ++ nl ++ "```")%string.

Definition alice : User.t :=
  User.mk "user_1" "alice@example.com" None None "2024-01-01".

Definition props0 : Chat.Props := Chat.mkProps "proj_1" true.

Definition clockAt (t : Z) : Chat.Clock := Chat.mkClock t t (t + 1) (t + 1).

Definition pastMessage (n : Z) : ChatMessage.t :=
  ChatMessage.mk ("m" ++ numberToString n)%string
    (if Z.even n then RoleAssistant else RoleUser)
    ("turn " ++ numberToString n)%string n "proj_1" "user_1" None.

Definition tenMessages : list ChatMessage.t :=
  map pastMessage [1; 2; 3; 4; 5; 6; 7; 8; 9; 10]%Z.

(** Signed in, nothing outstanding. *)
Definition idle (msgs : list ChatMessage.t) : Chat.State :=
  Chat.mkState msgs "" false (Some alice).

Definition answer (text : string) (html : option string)
  : Settled Chat.HttpResponse :=
  Fulfilled (Chat.mkResponse (Fulfilled (Chat.mkData text html None))).

Definition healthy : Chat.Backend :=
  Chat.mkBackend (fun _ => Fulfilled tt)
    (fun _ => answer pythonExample (Some "<h1>Hi</h1>")).

(** Every write to the message store fails. *)
Definition storeDown : Chat.Backend :=
  Chat.mkBackend (fun _ => Rejected (ErrorObject "db unavailable"))
    (fun _ => answer pythonExample None).

(** The endpoint is unreachable. *)
Definition inferenceDown : Chat.Backend :=
  Chat.mkBackend (fun _ => Fulfilled tt)
    (fun _ => Rejected (ErrorObject "Failed to fetch")).

(** The endpoint answers with an [error] field. *)
Definition inferenceError : Chat.Backend :=
  Chat.mkBackend (fun _ => Fulfilled tt)
    (fun _ => Fulfilled (Chat.mkResponse
                (Fulfilled (Chat.mkData "" None (Some "overloaded"))))).

(** Writes of assistant messages fail, writes of user messages succeed. *)
Definition assistantStoreDown : Chat.Backend :=
  Chat.mkBackend
    (fun row => match ChatMessage.role row with
                | RoleAssistant => Rejected (ErrorObject "db unavailable")
                | RoleUser => Fulfilled tt
                end)
    (fun _ => answer pythonExample (Some "<h1>Hi</h1>")).

(** A visitor arrives from the landing page with a staged prompt. After
    one second the outer timer puts the prompt into the text area; the
    visitor presses Enter; the write of the user message settles and the
    inference request is pending when, half a second after the outer one,
    the inner timer fires and calls the handler of the first render. *)
Definition landing : Chat.World :=
  Chat.mount props0 alice [] (Some ("build a todo app", None)).

Definition overlap : list Chat.Action :=
  [ Chat.TimerFires 0 (clockAt 1000);
    Chat.ClickSend (clockAt 1200);
    Chat.Settles 0 (Chat.CreateSettled (Fulfilled tt));
    Chat.TimerFires 0 (clockAt 1500);
    Chat.Settles 1 (Chat.CreateSettled (Fulfilled tt)) ].

Definition settleBoth : list Chat.Action :=
  [ Chat.Settles 0 (Chat.FetchSettled (answer "one" None));
    Chat.Settles 0 Chat.JsonSettled;
    Chat.Settles 1 (Chat.FetchSettled (answer "two" None));
    Chat.Settles 1 Chat.JsonSettled;
    Chat.Settles 0 (Chat.CreateSettled (Fulfilled tt));
    Chat.Settles 0 (Chat.CreateSettled (Fulfilled tt)) ].

(** The same handler called twice in a row, the first call not awaited. *)
Definition backToBack : Chat.World :=
  let w := Chat.mount props0 alice [] None in
  Chat.start
    (Chat.handleSendWithTemplate (Chat.handlers w) (clockAt 200) "b" None)
    (Chat.start
       (Chat.handleSendWithTemplate (Chat.handlers w) (clockAt 100) "a" None)
       w).

(** File trees. *)
Definition file (name path : string) : FileNode.t :=
  FileNode.mk name path TFile None (Some "export {}") (Some "typescript").

Definition nestedApp : list FileNode.t :=
  [ FileNode.mk "src" "src" TDirectory
      (Some [file "App.tsx" "src/App.tsx"]) None None ].

Definition indexBeforeApp : list FileNode.t :=
  [ file "index.tsx" "index.tsx"; file "App.tsx" "App.tsx" ].

Definition readmeThenMain : list FileNode.t :=
  [ file "README.md" "README.md"; file "main.tsx" "main.tsx";
    file "App.tsx" "App.tsx" ].

Definition threeTabs : Editor.State :=
  Editor.mkState (Some "b.ts") [] ["src"] ["a.ts"; "b.ts"; "c.ts"].

(** A toy engine: the set of table names; [DROP TABLE todos] empties it,
    any statement mentioning [boom] fails. *)
Definition toySql (statement : string) (db : list string)
  : Settled (list Object) * list string :=
  if includes statement "boom"
  then (Rejected (ErrorObject "no such table: boom"), db)
  else if includes statement "sqlite_master"
  then (Fulfilled (map (fun t => [("name", Str t)]) db), db)
  else if includes statement "PRAGMA"
  then (Fulfilled [[("name", Str "id"); ("type", Str "TEXT");
                    ("notnull", Number 1); ("pk", Number 1)]], db)
  else if includes statement "COUNT"
  then (Fulfilled [[("count", Number 3)]], db)
  else if includes statement "DROP"
  then (Fulfilled [], [])
  else (Fulfilled [], db).

Definition shown : Database.State :=
  Database.mkState
    [DatabaseTable.mk (Str "todos") [] (Number 3)] None [] "" None false None.

End Examples.

(* ===================================================================== *)
(** ** The rest of [CodeEditor]                                           *)
(* ===================================================================== *)

Module EditorView.
Import Js Editor.

(** [s] does not contain the character [c]. *)
Definition lacks (c : ascii) (s : string) : bool :=
  Fenced.allChars (fun x => negb (Ascii.eqb x c)) s.

(** The [switch] of lines 678-695, on the lowered extension. *)
Definition languageOf (ext : string) : string :=
  if String.eqb ext "tsx" || String.eqb ext "ts" then "typescript"
  else if String.eqb ext "jsx" || String.eqb ext "js" then "javascript"
  else if String.eqb ext "css" then "css"
  else if String.eqb ext "html" then "html"
  else if String.eqb ext "json" then "json"
  else if String.eqb ext "md" then "markdown"
  else "plaintext".

(** Lines 676-696. [split] never returns an empty array, so [pop()] is
    its last element and [?.] never short-circuits. *)
Definition getLanguageFromPath (path : string) : string :=
  languageOf (toLowerCase (last (split "."%char path) "")).

(** Line 766: [tabPath.split('/').pop() || tabPath]. *)
Definition tabLabel (tabPath : string) : string :=
  orElse (last (split "/"%char tabPath) "") tabPath.

(** Line 773: the [onClick] of a tab. *)
Definition selectTab (tabPath : string) (st : State) : State :=
  mkState (Some tabPath) (fileContents st) (expandedFolders st) (openTabs st).

(** Lines 669-674; [None] is [undefined]. The second component is the
    call of [onFileChange], made when the callback is supplied. *)
Definition handleEditorChange (value : option string) (path : string)
  (onFileChange : bool) (st : State) : State * list (string * string) :=
  match value with
  | Some v =>
      (mkState (selectedFile st) (setKey path v (fileContents st))
         (expandedFolders st) (openTabs st),
       if onFileChange then [(path, v)] else [])
  | None => (st, [])
  end.

(** What is handed to the editor as its text: a string, or a member of
    [Object.prototype] when the path is one of the inherited names. *)
Inductive Shown : Type :=
| Text (v : string)
| Member.

(** Line 815: [fileContents[selectedFile] || '']; the editor is mounted
    while [selectedFile] is truthy. *)
Definition editorValue (st : State) : option Shown :=
  match selectedFile st with
  | Some p =>
      if truthy p
      then Some match getKey p (fileContents st) with
                | Some v => Text (orElse v "")
                | None => if inherited p then Member else Text ""
                end
      else None
  | None => None
  end.

(** Lines 698-736: the rows of the explorer, top to bottom, each with
    its nesting level. The children of a node are rendered when it is a
    directory, it is expanded and it has a [children] array. *)
Fixpoint renderNode (expanded : list string) (level : nat) (node : FileNode.t)
  : list (FileNode.t * nat) :=
  (node, level)
  :: match FileNode.type node, FileNode.children node with
     | TDirectory, Some children =>
         if includesTab expanded (FileNode.path node)
         then (fix rows (l : list FileNode.t) : list (FileNode.t * nat) :=
                 match l with
                 | [] => []
                 | x :: r => renderNode expanded (S level) x ++ rows r
                 end) children
         else []
     | _, _ => []
     end.

Definition renderFileTree (expanded : list string) (level : nat)
  (nodes : list FileNode.t) : list (FileNode.t * nat) :=
  flat_map (renderNode expanded level) nodes.

(** [paddingLeft: level * 12 + 8] *)
Definition paddingLeft (level : nat) : nat := level * 12 + 8.

(** What the user can do, each followed by the render it causes and the
    auto-open effect of that render. Tabs can only be clicked or closed
    while they are shown; the editor exists only with a selected file. *)
Inductive Action : Type :=
| ClickNode (node : FileNode.t)
| ClickTab (tabPath : string)
| ClickClose (tabPath : string)
| EditorChange (value : option string)
| NewFiles (files : list FileNode.t).

Definition act (onFileChange : bool) (w : list FileNode.t * State)
  (a : Action) : list FileNode.t * State :=
  let (files, st) := w in
  match a with
  | ClickNode node => (files, afterRender false files st (openFile node st))
  | ClickTab t =>
      if includesTab (openTabs st) t
      then (files, afterRender false files st (selectTab t st))
      else w
  | ClickClose t =>
      if includesTab (openTabs st) t
      then (files, afterRender false files st (closeTab t st))
      else w
  | EditorChange v =>
      match selectedFile st with
      | Some p =>
          if truthy p
          then (files,
                afterRender false files st
                  (fst (handleEditorChange v p onFileChange st)))
          else w
      | None => w
      end
  | NewFiles files' => (files', afterRender true files' st st)
  end.

Definition session (onFileChange : bool) (files : list FileNode.t)
  (l : list Action) : list FileNode.t * State :=
  fold_left (act onFileChange) l (files, mount files).

(** The tab bar is coherent: no path twice, and the active file, if any,
    has a tab. *)
Definition Coherent (st : State) : Prop :=
  NoDup (openTabs st)
  /\ match selectedFile st with
     | Some p => In p (openTabs st)
     | None => True
     end.

End EditorView.

(* ===================================================================== *)
(** ** [PreviewPanel]                                                     *)
(* ===================================================================== *)

Module Preview.
Import Js.

Inductive ViewMode : Type := Desktop | Mobile.

Record State : Type := mkState {
  viewMode : ViewMode;
  isLoading : bool;
  loadError : bool }.

Definition initial : State := mkState Desktop false false.

(** The synchronous part of [handleRefresh]; its timer is [RefreshTimer]. *)
Definition handleRefresh (st : State) : State :=
  mkState (viewMode st) true false.

Definition handleIframeLoad (st : State) : State :=
  mkState (viewMode st) false false.

Definition handleIframeError (st : State) : State :=
  mkState (viewMode st) false true.

(** The effect on [previewUrl]. *)
Definition urlEffect (previewUrl : option string) (st : State) : State :=
  match previewUrl with
  | Some url => if truthy url then mkState (viewMode st) true false else st
  | None => st
  end.

Inductive Action : Type :=
| Refresh                              (* the refresh or "Try Again" button *)
| RefreshTimer                         (* the [setTimeout] of [handleRefresh] *)
| IframeLoad
| IframeError
| NewUrl (previewUrl : option string)  (* the prop changes; the effect runs *)
| SetViewMode (m : ViewMode).

Definition act (st : State) (a : Action) : State :=
  match a with
  | Refresh => handleRefresh st
  | RefreshTimer => mkState (viewMode st) false (loadError st)
  | IframeLoad => handleIframeLoad st
  | IframeError => handleIframeError st
  | NewUrl u => urlEffect u st
  | SetViewMode m => mkState m (isLoading st) (loadError st)
  end.

(** On mount the effect runs once with the initial prop. *)
Definition session (previewUrl : option string) (l : list Action) : State :=
  fold_left act l (urlEffect previewUrl initial).

(** What the content area shows. *)
Inductive Screen : Type :=
| NoPreview
| LoadFailed
| Frame (overlay : bool) (mobile : bool).

Definition screen (previewUrl : option string) (st : State) : Screen :=
  if match previewUrl with Some url => truthy url | None => false end
  then if loadError st then LoadFailed
       else Frame (isLoading st)
              match viewMode st with Mobile => true | Desktop => false end
  else NoPreview.

End Preview.

(* ===================================================================== *)
(** ** The avatar letter ([Header], [ChatInterface] line 284)             *)
(* ===================================================================== *)

Module Avatar.
Import Js.

(** [s[0]], [None] standing for [undefined]. *)
Definition charAt0 (s : string) : option string :=
  match s with
  | "" => None
  | String c _ => Some (String c "")
  end.

Definition optOr (a : option string) (b : option string) : option string :=
  match a with
  | Some x => if truthy x then a else b
  | None => b
  end.

(** [user?.displayName?.[0] || user?.email?.[0] || 'U'] *)
Definition fallback (user : option User.t) : string :=
  let byName := match user with
                | Some u => match User.displayName u with
                            | Some d => charAt0 d
                            | None => None
                            end
                | None => None
                end in
  let byEmail := match user with
                 | Some u => charAt0 (User.email u)
                 | None => None
                 end in
  match optOr (optOr byName byEmail) (Some "U") with
  | Some x => x
  | None => "U"
  end.

End Avatar.

(* ===================================================================== *)
(** ** More about the schema inspector                                    *)
(* ===================================================================== *)

Module DatabaseView.
Import Js Database.

(** Everything the panel asks of the engine. *)
Inductive Request : Type :=
| Tables                          (* [loadTables] *)
| Rows (tableName : Value)        (* [loadTableData] *)
| Query (q : string).             (* [executeQuery] *)

Definition handle (DB : Type)
  (sql : string -> DB -> Settled (list Object) * DB) (r : Request)
  : M DB unit :=
  match r with
  | Tables => loadTables sql
  | Rows tableName => loadTableData sql tableName
  | Query q => executeQuery sql q
  end.

Definition failed (e : Event) : bool :=
  match engineFailure e with Some _ => true | None => false end.

Definition isStatement (e : Event) : bool :=
  match e with EvSql _ _ => true | EvLoadTables => false end.

(** A trace stops at the first failure: no statement fails, or exactly
    the last one does. *)
Definition StopsAtFailure (ev : list Event) : Prop :=
  Forall (fun e => failed e = false) ev
  \/ exists pre stmt err,
       ev = pre ++ [EvSql stmt (Some err)]
       /\ Forall (fun e => failed e = false) pre.

(** A computation that throws exactly when its last statement failed. *)
Definition FailFast {A} (DB : Type) (m : M DB A) : Prop :=
  forall s,
    match resultOf (m s) with
    | Fulfilled _ => Forall (fun e => failed e = false) (eventsOf (m s))
    | Rejected err =>
        exists pre stmt,
          eventsOf (m s) = pre ++ [EvSql stmt (Some err)]
          /\ Forall (fun e => failed e = false) pre
    end.

End DatabaseView.

(* ===================================================================== *)
(** ** Matches inside a text                                              *)
(* ===================================================================== *)

Module Tiling.

(** Gaps and blocks laid end to end: [g1 b1 g2 b2 ...]. *)
Fixpoint weave (pairs : list (string * string)) : string :=
  match pairs with
  | [] => ""
  | (gap, block) :: rest => (gap ++ block ++ weave rest)%string
  end.

End Tiling.

(* ===================================================================== *)
(** ** More concrete inputs                                               *)
(* ===================================================================== *)

Module Examples2.
Import Js Examples.

Definition srcDir : FileNode.t :=
  FileNode.mk "src" "src" TDirectory
    (Some [file "App.tsx" "src/App.tsx"; file "main.tsx" "src/main.tsx"])
    None None.

(** The shape of the tree [ProjectEditor] passes down. *)
Definition projectFiles : list FileNode.t :=
  [ srcDir; file "package.json" "package.json" ].

Definition twoTabs : Editor.State :=
  Editor.mkState (Some "a.ts") [("a.ts", "let a")] ["src"] ["a.ts"; "b.ts"].

(** An engine that never fails, with two tables. *)
Definition calmSql (statement : string) (db : list string)
  : Settled (list Object) * list string :=
  if includes statement "sqlite_master"
  then (Fulfilled (map (fun t => [("name", Str t)]) db), db)
  else if includes statement "COUNT"
  then (Fulfilled [[("count", Number 3)]], db)
  else (Fulfilled [], db).

Definition signedOut : Chat.State := Chat.mkState [] "" false None.

(** The visitor of [landing] as the component sees them: the user becomes
    known, then the stored log, which is empty, arrives. *)
Definition arrival : list Chat.Action :=
  [ Chat.AuthChanged (Some alice); Chat.HistoryLoaded (Fulfilled []) ].

(** After [overlap] two calls wait for the endpoint. The request of the
    first one, made by the click, is rejected. *)
Definition firstRequestFails : list Chat.Action :=
  [ Chat.Settles 0
      (Chat.FetchSettled (Rejected (ErrorObject "Failed to fetch"))) ].

(** After [overlap]: the first call gets its answer and the write of its
    assistant message is rejected. *)
Definition firstWriteFails : list Chat.Action :=
  [ Chat.Settles 0 (Chat.FetchSettled (answer "one" None));
    Chat.Settles 0 Chat.JsonSettled;
    Chat.Settles 0
      (Chat.CreateSettled (Rejected (ErrorObject "db unavailable"))) ].

(** The call that is left then runs to its end. *)
Definition secondCompletes : list Chat.Action :=
  [ Chat.Settles 0 (Chat.FetchSettled (answer "two" None));
    Chat.Settles 0 Chat.JsonSettled;
    Chat.Settles 0 (Chat.CreateSettled (Fulfilled tt)) ].

(** A visitor comes back to a project whose stored conversation has ten
    messages, with a prompt staged by the landing page. *)
Definition returning : Chat.World :=
  Chat.boot props0 (Some ("build a todo app", None)).

(** The user becomes known, the ten stored messages arrive, the two
    timers of the auto-send fire and the user message is stored. *)
Definition autoSend : list Chat.Action :=
  [ Chat.AuthChanged (Some alice);
    Chat.HistoryLoaded (Fulfilled tenMessages);
    Chat.TimerFires 0 (clockAt 1000);
    Chat.TimerFires 0 (clockAt 1500);
    Chat.Settles 0 (Chat.CreateSettled (Fulfilled tt)) ].

(** The same visitor without a staged prompt, typing the message. *)
Definition typedSend : list Chat.Action :=
  [ Chat.AuthChanged (Some alice);
    Chat.HistoryLoaded (Fulfilled tenMessages);
    Chat.Type_ "eleventh";
    Chat.ClickSend (clockAt 2000);
    Chat.Settles 0 (Chat.CreateSettled (Fulfilled tt)) ].

(** A handler created by a render that saw an empty log. *)
Definition emptyRender : Chat.Closure :=
  Chat.mkClosure props0 [] "" false (Some alice).

(** The tree [ProjectEditor] passes to the editor (the [mockFiles] of
    [LandingPage.tsx]), file contents shortened. *)
Definition mockFiles : list FileNode.t :=
  [ FileNode.mk "src" "src" TDirectory
      (Some [ FileNode.mk "App.tsx" "src/App.tsx" TFile None
                (Some "import React from 'react'") (Some "typescript");
              FileNode.mk "main.tsx" "src/main.tsx" TFile None
                (Some "import React from 'react'") (Some "typescript");
              FileNode.mk "index.css" "src/index.css" TFile None
                (Some "@tailwind base;") (Some "css") ])
      None None;
    FileNode.mk "package.json" "package.json" TFile None
      (Some "{ }") (Some "json") ].

Definition bob : User.t :=
  User.mk "user_2" "bob@example.com" (Some "Bob") None "2024-01-01".

Definition streaming : Chat.State :=
  Chat.mkState tenMessages "" true (Some alice).

End Examples2.

(* ===================================================================== *)
(** * Facts about the string primitives                                   *)
(* ===================================================================== *)

Unset Implicit Arguments.

Module JsFacts.
Import Js.
#[local] Arguments Ascii.eqb : simpl never.

Lemma append_assoc (a b c : string) :
  ((a ++ b) ++ c)%string = (a ++ (b ++ c))%string.
Proof. induction a as [|x a IH]; simpl; [reflexivity | now rewrite IH]. Qed.

Lemma append_nil_r (a : string) : (a ++ "")%string = a.
Proof. induction a as [|x a IH]; simpl; [reflexivity | now rewrite IH]. Qed.

Lemma length_append (a b : string) :
  String.length (a ++ b) = String.length a + String.length b.
Proof. induction a as [|x a IH]; simpl; [reflexivity | now rewrite IH]. Qed.

Lemma startsWith_nil (s : string) : startsWith "" s = true.
Proof. destruct s; reflexivity. Qed.

Lemma startsWith_append (p s : string) : startsWith p (p ++ s) = true.
Proof.
  induction p as [|x p IH]; simpl.
  - now destruct s.
  - now rewrite Ascii.eqb_refl.
Qed.

Lemma startsWith_inv (p s : string) :
  startsWith p s = true -> exists post, s = (p ++ post)%string.
Proof.
  revert s; induction p as [|x p IH]; intros s H.
  - exists s; reflexivity.
  - destruct s as [|y s]; simpl in H; [discriminate|].
    apply andb_true_iff in H as [Hxy Hp].
    apply Ascii.eqb_eq in Hxy; subst y.
    destruct (IH _ Hp) as [post ->]. now exists post.
Qed.

Lemma drop_append (a b : string) : drop (String.length a) (a ++ b) = b.
Proof. induction a as [|x a IH]; simpl; [now destruct b | exact IH]. Qed.

Lemma take_append (a b : string) : take (String.length a) (a ++ b) = a.
Proof. induction a as [|x a IH]; simpl; [now destruct b | now rewrite IH]. Qed.

Lemma length_drop (n : nat) (s : string) :
  String.length (drop n s) = String.length s - n.
Proof.
  revert s; induction n as [|n IH]; intros [|c s]; simpl; auto.
Qed.

(** *** [indexOf] finds the first occurrence *)

Lemma indexOf_Some (p s : string) (i : nat) :
  indexOf p s = Some i ->
  exists pre post, s = (pre ++ p ++ post)%string /\ String.length pre = i.
Proof.
  revert i; induction s as [|c s IH]; intros i H; simpl in H.
  - destruct (startsWith p "") eqn:E; [|discriminate].
    injection H as <-. apply startsWith_inv in E as [post E].
    exists "", post. now split.
  - destruct (startsWith p (String c s)) eqn:E.
    + injection H as <-. apply startsWith_inv in E as [post E].
      exists "", post. now split.
    + destruct (indexOf p s) as [j|] eqn:Ej; [|discriminate].
      injection H as <-.
      destruct (IH j eq_refl) as (pre & post & -> & Hl).
      exists (String c pre), post. simpl. now rewrite Hl.
Qed.

Lemma indexOf_head (p s : string) :
  startsWith p s = true -> indexOf p s = Some 0.
Proof. intros H; destruct s; simpl; now rewrite H. Qed.

Lemma indexOf_tail (p s : string) (c : ascii) :
  startsWith p (String c s) = false ->
  indexOf p (String c s) = option_map S (indexOf p s).
Proof. intros H; simpl indexOf at 1; now rewrite H. Qed.

Lemma indexOf_None_append (p pre post : string) :
  indexOf p (pre ++ p ++ post) <> None.
Proof.
  induction pre as [|c pre IH].
  - simpl append.
    rewrite indexOf_head; [discriminate | apply startsWith_append].
  - simpl append. destruct (startsWith p (String c (pre ++ p ++ post))) eqn:E.
    + rewrite indexOf_head by exact E. discriminate.
    + rewrite indexOf_tail by exact E.
      destruct (indexOf p (pre ++ p ++ post)); [discriminate | contradiction].
Qed.

(** [includes] is substring containment. *)
Lemma includes_spec (s p : string) :
  includes s p = true <-> exists pre post, s = (pre ++ p ++ post)%string.
Proof.
  unfold includes; split.
  - destruct (indexOf p s) as [i|] eqn:E; [|discriminate].
    intros _. destruct (indexOf_Some _ _ _ E) as (pre & post & H & _).
    now exists pre, post.
  - intros (pre & post & ->).
    destruct (indexOf p (pre ++ p ++ post)) eqn:E; [reflexivity|].
    now apply indexOf_None_append in E.
Qed.

Lemma indexOf_bound (p s : string) (i : nat) :
  indexOf p s = Some i -> i + String.length p <= String.length s.
Proof.
  intros H. destruct (indexOf_Some _ _ _ H) as (pre & post & -> & <-).
  rewrite !length_append. lia.
Qed.

(** *** Fences and foreign characters *)

Lemma startsWith_fence_foreign (c : ascii) (a b : string) :
  c <> Fenced.backtick ->
  startsWith Chat.fence (a ++ String c b) = startsWith Chat.fence a.
Proof.
  intros Hc.
  assert (E : Ascii.eqb Fenced.backtick c = false).
  { apply Ascii.eqb_neq. congruence. }
  unfold Fenced.backtick in E.
  destruct a as [|x [|y [|z a]]]; simpl; rewrite ?E, ?andb_false_r;
    reflexivity.
Qed.

Lemma indexOf_None_inv (p s : string) (c : ascii) :
  indexOf p (String c s) = None ->
  startsWith p (String c s) = false /\ indexOf p s = None.
Proof.
  simpl. destruct (startsWith p (String c s)); [discriminate|].
  destruct (indexOf p s); [discriminate | now split].
Qed.

Lemma indexOf_fence_sep (a b : string) (c : ascii) :
  c <> Fenced.backtick ->
  indexOf Chat.fence a = None ->
  indexOf Chat.fence b = None ->
  indexOf Chat.fence (a ++ String c b) = None.
Proof.
  intros Hc Ha Hb. induction a as [|x a IH].
  - simpl append. rewrite indexOf_tail, Hb; [reflexivity|].
    exact (startsWith_fence_foreign c "" b Hc).
  - apply indexOf_None_inv in Ha as [Hx Ha].
    change (String x a ++ String c b)%string
      with (String x (a ++ String c b)).
    rewrite indexOf_tail, (IH Ha); [reflexivity|].
    change (String x (a ++ String c b))
      with (String x a ++ String c b)%string.
    now rewrite startsWith_fence_foreign.
Qed.

Lemma indexOf_fence_closing (a rest : string) (c : ascii) :
  c <> Fenced.backtick ->
  indexOf Chat.fence a = None ->
  indexOf Chat.fence (a ++ String c (Chat.fence ++ rest))
  = Some (String.length a + 1).
Proof.
  intros Hc Ha. induction a as [|x a IH].
  - simpl append. rewrite indexOf_tail.
    + now rewrite indexOf_head by exact (startsWith_append Chat.fence rest).
    + exact (startsWith_fence_foreign c "" _ Hc).
  - apply indexOf_None_inv in Ha as [Hx Ha].
    change (String x a ++ String c (Chat.fence ++ rest))%string
      with (String x (a ++ String c (Chat.fence ++ rest))).
    rewrite indexOf_tail, (IH Ha); [reflexivity|].
    change (String x (a ++ String c (Chat.fence ++ rest)))
      with (String x a ++ String c (Chat.fence ++ rest))%string.
    now rewrite startsWith_fence_foreign.
Qed.

Lemma indexOf_fence_opening (pre rest : string) :
  Fenced.noBacktick pre = true ->
  indexOf Chat.fence (pre ++ Chat.fence ++ rest) = Some (String.length pre).
Proof.
  induction pre as [|x pre IH]; intros H.
  - apply indexOf_head. exact (startsWith_append Chat.fence rest).
  - simpl in H. apply andb_true_iff in H as [Hx H].
    change (String x pre ++ Chat.fence ++ rest)%string
      with (String x (pre ++ Chat.fence ++ rest)).
    rewrite indexOf_tail, (IH H); [reflexivity|].
    apply negb_true_iff in Hx. rewrite Ascii.eqb_sym in Hx.
    unfold Chat.fence. simpl. unfold Fenced.backtick in Hx. now rewrite Hx.
Qed.

(** *** [split] and [join] *)

Lemma split_nonempty (sep : ascii) (s : string) : split sep s <> [].
Proof.
  destruct s as [|c s]; simpl; [discriminate|].
  destruct (Ascii.eqb c sep); [discriminate|].
  destruct (split sep s); discriminate.
Qed.

Lemma split_append_nl (a b : string) :
  split LF (a ++ nl ++ b) = split LF a ++ split LF b.
Proof.
  induction a as [|x a IH]; simpl.
  - reflexivity.
  - destruct (Ascii.eqb x LF).
    + simpl in IH. now rewrite IH.
    + simpl in IH. rewrite IH.
      destruct (split LF a) as [|l ls] eqn:E.
      * now apply split_nonempty in E.
      * reflexivity.
Qed.

Lemma split_noLineFeed (s : string) :
  Fenced.noLineFeed s = true -> split LF s = [s].
Proof.
  induction s as [|c s IH]; simpl; intros H; [reflexivity|].
  apply andb_true_iff in H as [Hc H].
  apply negb_true_iff in Hc. rewrite Hc, (IH H). reflexivity.
Qed.

Lemma join_split (s : string) : join nl (split LF s) = s.
Proof.
  unfold join. induction s as [|c s IH]; simpl; [reflexivity|].
  destruct (Ascii.eqb c LF) eqn:Ec.
  - apply Ascii.eqb_eq in Ec; subst c.
    destruct (split LF s) as [|l ls] eqn:E.
    + now apply split_nonempty in E.
    + change (String.concat nl ("" :: l :: ls))
        with (String LF (String.concat nl (l :: ls))).
      now rewrite IH.
  - destruct (split LF s) as [|l [|l' ls]] eqn:E.
    + now apply split_nonempty in E.
    + simpl in *. now rewrite IH.
    + change (String.concat nl (String c l :: l' :: ls))
        with (String c (String.concat nl (l :: l' :: ls))).
      now rewrite IH.
Qed.

Lemma slice_inner {A} (x y : A) (m : list A) :
  slice 1 (-1) (x :: m ++ [y]) = m.
Proof.
  unfold slice, relIndex.
  change (-1 <? 0)%Z with true. change (1 <? 0)%Z with false. cbv iota.
  assert (L : List.length (x :: m ++ [y]) = S (List.length m + 1)).
  { simpl. now rewrite length_app. }
  rewrite L.
  replace (Z.to_nat (Z.max (Z.of_nat (S (List.length m + 1)) + -1) 0))
    with (S (List.length m)) by lia.
  replace (Nat.min (Z.to_nat 1) (S (List.length m + 1))) with 1 by lia.
  simpl skipn. replace (S (List.length m) - 1) with (List.length m + 0) by lia.
  rewrite firstn_app_2. simpl. apply app_nil_r.
Qed.

Lemma replaceFirst_prefix (p r s : string) :
  replaceFirst p r (p ++ s) = (r ++ s)%string.
Proof.
  pose proof (startsWith_append p s) as H.
  pose proof (drop_append p s) as D.
  destruct (p ++ s)%string; simpl; now rewrite H, D.
Qed.

End JsFacts.

(* ===================================================================== *)
(** * Extraction of fenced code blocks                                    *)
(* ===================================================================== *)

Module ExtractionFacts.
Import Js Chat Fenced JsFacts.
#[local] Arguments Ascii.eqb : simpl never.

(** The fuel of [codeBlocks] is enough: any larger amount gives the same
    matches. *)
Lemma matchFences_enough (n m : nat) (s : string) :
  String.length s <= n -> String.length s <= m ->
  matchFences n s = matchFences m s.
Proof.
  revert m s; induction n as [|n IH]; intros m s Hn Hm.
  - destruct s; [|simpl in Hn; lia]. now destruct m.
  - destruct m as [|m].
    + destruct s; [reflexivity | simpl in Hm; lia].
    + simpl. destruct (indexOf fence s) as [i|] eqn:Ei; [|reflexivity].
      destruct (indexOf fence (drop (i + 3) s)) as [k|] eqn:Ek; [|reflexivity].
      f_equal. apply indexOf_bound in Ei.
      change (String.length fence) with 3 in Ei.
      apply IH; rewrite !length_drop; lia.
Qed.

Lemma codeBlocks_without_fence (s : string) :
  indexOf fence s = None -> codeBlocks s = [].
Proof.
  intros H. unfold codeBlocks.
  destruct (String.length s); simpl; [reflexivity | now rewrite H].
Qed.

(** One step of the scan: an opening fence found first, its nearest
    closing fence, and the scan goes on behind it. *)
Lemma codeBlocks_region (pre inner rest : string) :
  indexOf fence (pre ++ fence ++ inner ++ fence ++ rest)
    = Some (String.length pre) ->
  indexOf fence (inner ++ fence ++ rest) = Some (String.length inner) ->
  codeBlocks (pre ++ fence ++ inner ++ fence ++ rest)
  = (fence ++ inner ++ fence)%string :: codeBlocks rest.
Proof.
  intros Hopen Hclose. unfold codeBlocks.
  set (s := (pre ++ fence ++ inner ++ fence ++ rest)%string) in *.
  assert (Hlen : String.length s
                 = String.length pre + 3 + String.length inner + 3
                   + String.length rest).
  { unfold s. rewrite !length_append.
    change (String.length fence) with 3. lia. }
  assert (Hd1 : drop (String.length pre + 3) s
                = (inner ++ fence ++ rest)%string).
  { unfold s. rewrite <- (append_assoc pre fence).
    replace (String.length pre + 3) with (String.length (pre ++ fence))
      by (rewrite length_append; reflexivity).
    apply drop_append. }
  assert (Hd2 : drop (String.length inner + 3) (inner ++ fence ++ rest) = rest).
  { rewrite <- (append_assoc inner fence).
    replace (String.length inner + 3) with (String.length (inner ++ fence))
      by (rewrite length_append; reflexivity).
    apply drop_append. }
  destruct (String.length s) as [|n] eqn:En; [lia|].
  simpl matchFences. rewrite Hopen, Hd1, Hclose, Hd2, take_append.
  f_equal. apply matchFences_enough; lia.
Qed.

(** What the [forEach] callback does with the text of a region. *)
Lemma blockArtifact_region (r : Region) :
  noLineFeed (tag r) = true ->
  blockArtifact (regionText r) = artifactOf r.
Proof.
  intros Htag. unfold blockArtifact, regionText, artifactOf.
  assert (Hsplit : split LF (fence ++ tag r ++ nl ++ body r ++ nl ++ fence)
                   = (fence ++ tag r)%string :: split LF (body r) ++ [fence]).
  { rewrite <- (append_assoc fence (tag r)).
    rewrite split_append_nl, split_append_nl.
    rewrite (split_noLineFeed (fence ++ tag r)).
    - reflexivity.
    - unfold fence. simpl. exact Htag. }
  rewrite Hsplit.
  change (nth 0 ((fence ++ tag r)%string :: split LF (body r) ++ [fence]) "")
    with (fence ++ tag r)%string.
  rewrite slice_inner, join_split, replaceFirst_prefix.
  reflexivity.
Qed.

Lemma filterMap_map {A B C} (f : B -> option C) (g : A -> B) (l : list A) :
  filterMap f (map g l) = filterMap (fun x => f (g x)) l.
Proof.
  induction l as [|x l IH]; simpl; [reflexivity|].
  destruct (f (g x)); now rewrite IH.
Qed.

Lemma filterMap_ext_Forall {A B} (P : A -> Prop) (f g : A -> option B)
  (l : list A) :
  (forall x, P x -> f x = g x) -> Forall P l -> filterMap f l = filterMap g l.
Proof.
  intros H; induction 1 as [|x l Hx _ IH]; simpl; [reflexivity|].
  rewrite (H x Hx), IH. reflexivity.
Qed.

Lemma includes_false (s p : string) :
  includes s p = false -> indexOf p s = None.
Proof. unfold includes. now destruct (indexOf p s). Qed.

(** The regular expression finds exactly the regions of a well-formed
    document. *)
Lemma codeBlocks_document (rs : list Region) (trailing : string) :
  Forall wellFormed rs ->
  includes trailing fence = false ->
  codeBlocks (document rs trailing) = map regionText rs.
Proof.
  intros Hrs Htr. induction Hrs as [|r rs (Hb & Hl & Ht & Hbody) _ IH].
  - simpl. now apply codeBlocks_without_fence, includes_false.
  - assert (Hlf : LF <> backtick) by discriminate.
    assert (Hinner : indexOf fence (tag r ++ nl ++ body r) = None).
    { apply indexOf_fence_sep; auto using includes_false. }
    assert (E : document (r :: rs) trailing
                = (before r ++ fence ++ ((tag r ++ nl ++ body r) ++ nl)
                     ++ fence ++ document rs trailing)%string).
    { change (document (r :: rs) trailing)
        with (before r ++ regionText r ++ document rs trailing)%string.
      unfold regionText. now rewrite !append_assoc. }
    rewrite E, codeBlocks_region.
    + rewrite IH. simpl map. unfold regionText. now rewrite !append_assoc.
    + now apply indexOf_fence_opening.
    + rewrite (append_assoc _ nl).
      change (nl ++ fence ++ document rs trailing)%string
        with (String LF (fence ++ document rs trailing)).
      rewrite (indexOf_fence_closing _ (document rs trailing) LF Hlf Hinner).
      rewrite (length_append _ nl). reflexivity.
Qed.

End ExtractionFacts.

Module Extraction.
Import Js Chat Fenced Examples JsFacts ExtractionFacts.

Lemma extractCode_document (rs : list Region) (trailing : string) :
  Forall wellFormed rs ->
  includes trailing fence = false ->
  extractCode (document rs trailing) = filterMap artifactOf rs.
Proof.
  intros Hrs Htr. unfold extractCode.
  rewrite (codeBlocks_document rs trailing Hrs Htr), filterMap_map.
  assert (E : filterMap (fun r => blockArtifact (regionText r)) rs
              = filterMap artifactOf rs).
  { apply filterMap_ext_Forall with (P := wellFormed); [|exact Hrs].
    intros r (_ & Hl & _). now apply blockArtifact_region. }
  rewrite E. destruct (includes (document rs trailing) fence) eqn:Hinc;
    [reflexivity|].
  destruct rs as [|r rs]; [reflexivity|].
  exfalso. enough (includes (document (r :: rs) trailing) fence = true)
    by congruence.
  apply includes_spec.
  exists (before r), (tag r ++ nl ++ body r ++ nl ++ fence
                        ++ document rs trailing)%string.
  change (document (r :: rs) trailing)
    with (before r ++ regionText r ++ document rs trailing)%string.
  unfold regionText. now rewrite !append_assoc.
Qed.


(** The text before a fence in the prose is not neutral: a stray fence
    pairs up with the opening fence of the block that follows, and that
    block is lost. *)
Example stray_fence_swallows_the_next_block :
  extractCode ("see ``` below" ++ nl ++ pythonExample) = [].
Proof. reflexivity. Qed.




(** An empty tag and the tag [txt] give the same name. *)
Example empty_tag_and_txt_collide :
  extractCode ("```" ++ nl ++ "a" ++ nl ++ "```" ++ nl
               ++ "```txt" ++ nl ++ "b" ++ nl ++ "```")
  = [("a", "generated.txt"); ("b", "generated.txt")].
Proof. reflexivity. Qed.

(** Two regions with one tag collide on the name; a blank body is dropped. *)
Lemma same_tag_collision (r1 r2 : Region) (trailing : string) :
  wellFormed r1 -> wellFormed r2 ->
  includes trailing fence = false ->
  tag r1 = tag r2 ->
  truthy (trim (body r1)) = true -> truthy (trim (body r2)) = true ->
  extractCode (document [r1; r2] trailing)
  = [(body r1, ("generated." ++ orElse (trim (tag r1)) "txt")%string);
     (body r2, ("generated." ++ orElse (trim (tag r1)) "txt")%string)].
Proof.
  intros W1 W2 Htr Ht B1 B2.
  rewrite extractCode_document;
    [| constructor; [exact W1 | constructor; [exact W2 | constructor]]
     | exact Htr].
  simpl. unfold artifactOf. now rewrite B1, B2, Ht.
Qed.

End Extraction.

(* ===================================================================== *)
(** * The conversation engine                                             *)
(* ===================================================================== *)

Module ChatFacts.
Import Js Chat JsFacts.

(** [a.slice(0, -1)] drops the last element. *)
Lemma slice_init {A} (l : list A) (x : A) : slice 0 (-1) (l ++ [x]) = l.
Proof.
  unfold slice, relIndex.
  change (-1 <? 0)%Z with true. change (0 <? 0)%Z with false. cbv iota.
  rewrite length_app. simpl List.length.
  replace (Z.to_nat (Z.max (Z.of_nat (List.length l + 1) + -1) 0))
    with (List.length l) by lia.
  replace (Nat.min (Z.to_nat 0) (List.length l + 1)) with 0 by lia.
  simpl skipn. replace (List.length l - 0) with (List.length l + 0) by lia.
  rewrite firstn_app_2. simpl. apply app_nil_r.
Qed.

(** [a.slice(-5)] keeps the last five elements of a longer array. *)
Lemma sliceFrom_last5 {A} (l : list A) :
  5 <= List.length l ->
  exists older recent,
    l = older ++ recent /\ List.length recent = 5 /\ sliceFrom (-5) l = recent.
Proof.
  intros H. unfold sliceFrom, relIndex. change (-5 <? 0)%Z with true. cbv iota.
  replace (Z.to_nat (Z.max (Z.of_nat (List.length l) + -5) 0))
    with (List.length l - 5) by lia.
  exists (firstn (List.length l - 5) l), (skipn (List.length l - 5) l).
  split; [symmetry; apply firstn_skipn|]. split; [|reflexivity].
  rewrite length_skipn. lia.
Qed.

(** A shorter array is kept whole. *)
Lemma sliceFrom_short {A} (l : list A) :
  List.length l <= 5 -> sliceFrom (-5) l = l.
Proof.
  intros H. unfold sliceFrom, relIndex. change (-5 <? 0)%Z with true. cbv iota.
  replace (Z.to_nat (Z.max (Z.of_nat (List.length l) + -5) 0)) with 0 by lia.
  reflexivity.
Qed.

Lemma run_codeStep (b : Backend) (c : Closure) (full : string) (k : Proc)
  (st : State) :
  run b (codeStep c full k) st
  = (fst (run b k st),
     (if onCodeGenerated (c_props c)
      then map (fun a => EvCodeGenerated (fst a) (snd a)) (extractCode full)
      else []) ++ snd (run b k st)).
Proof.
  unfold codeStep. destruct (onCodeGenerated (c_props c)).
  - induction (extractCode full) as [|a l IH]; simpl.
    + now destruct (run b k st).
    + rewrite IH. reflexivity.
  - simpl. now destruct (run b k st).
Qed.

Lemma run_htmlStep (b : Backend) (c : Closure) (data : InferenceData)
  (k : Proc) (st : State) :
  run b (htmlStep c data k) st
  = (fst (run b k st),
     match d_html data with
     | Some html =>
         if truthy html && onCodeGenerated (c_props c)
         then [EvCodeGenerated html "index.html"] else []
     | None => []
     end ++ snd (run b k st)).
Proof.
  unfold htmlStep. destruct (d_html data) as [html|].
  - destruct (truthy html && onCodeGenerated (c_props c)); simpl;
      now destruct (run b k st).
  - simpl. now destruct (run b k st).
Qed.

Lemma run_callbacks (b : Backend) (c : Closure) (data : InferenceData)
  (st : State) :
  run b (htmlStep c data (codeStep c (d_response data) finallyBlock)) st
  = (setIsStreaming false st, callbackEvents c data).
Proof.
  rewrite run_htmlStep, run_codeStep. simpl. unfold callbackEvents.
  now rewrite app_nil_r.
Qed.

Lemma callbackEvents_no_fetch (c : Closure) (data : InferenceData) :
  filter isFetch (callbackEvents c data) = [].
Proof.
  unfold callbackEvents. rewrite filter_app.
  assert (H1 : forall l : list (string * string),
             filter isFetch
               (map (fun a => EvCodeGenerated (fst a) (snd a)) l) = []).
  { induction l; simpl; auto. }
  destruct (d_html data) as [h|]; [destruct (truthy h && _)|];
    destruct (onCodeGenerated (c_props c)); simpl; auto.
Qed.

Lemma updateById_fresh (id : string) (f : ChatMessage.t -> ChatMessage.t)
  (l : list ChatMessage.t) :
  Forall (fun m => ChatMessage.id m <> id) l -> updateById id f l = l.
Proof.
  induction 1 as [|m l Hm _ IH]; [reflexivity|].
  unfold updateById in *. cbn [map].
  apply String.eqb_neq in Hm. now rewrite Hm, IH.
Qed.

(** The identifiers of the two messages of a turn end in different
    letters, whatever the clock says. *)
Lemma lastChar_append (a s : string) (c : ascii) :
  lastChar (a ++ String c s) = lastChar (String c s).
Proof.
  induction a as [|x a IH]; [reflexivity|].
  change (lastChar (String x a ++ String c s))
    with (match lastChar (a ++ String c s) with
          | None => Some x
          | r => r
          end).
  rewrite IH. simpl. now destruct (lastChar s).
Qed.

Lemma user_assistant_ids_differ (c : Closure) (u : User.t) (clk : Clock)
  (prompt : string) :
  ChatMessage.id (userMessageOf c u clk prompt)
  <> ChatMessage.id (assistantMessageOf c u clk).
Proof.
  simpl. intros H. injection H as H.
  apply (f_equal lastChar) in H.
  rewrite (lastChar_append _ "user" "_"),
    (lastChar_append _ "assistant" "_") in H.
  discriminate H.
Qed.

(** *** The four ways an accepted call ends *)

Section Send.

Variables (b : Backend) (p : Props) (clk : Clock).
Variables (prompt : string) (template : option string).
Variables (st : State) (u : User.t).
Hypothesis Hu : user st = Some u.
Hypothesis Hp : truthy (trim prompt) = true.
Hypothesis Hs : isStreaming st = false.

Let c := render p st.
Let um := userMessageOf c u clk prompt.
Let am := assistantMessageOf c u clk.
Let userRow := rowOf um (ChatMessage.content um).
Let failed := EvConsoleError "Failed to send message:".

Ltac enter :=
  unfold send, handleSendWithTemplate;
  cbn [c_user c_isStreaming render]; rewrite Hu, Hp, Hs; cbn [negb orb run];
  fold c; fold um; fold am; fold userRow.

Ltac settle :=
  unfold setIsStreaming, setMessages, setInput;
  cbn [messages input isStreaming user].

Lemma send_user_create_rejected (e : Thrown) :
  create b userRow = Rejected e ->
  send b p clk prompt template st
  = (mkState (messages st) "" false (user st), [EvCreate userRow; failed]).
Proof.
  intros Hc. enter. rewrite Hc. cbn [run catchBlock finallyBlock]. settle.
  rewrite slice_init, ?Hu. reflexivity.
Qed.

Lemma send_inference_failed :
  create b userRow = Fulfilled tt ->
  inferenceFails (fetch b (requestBody c um template)) = true ->
  send b p clk prompt template st
  = (mkState (messages st ++ [um]) "" false (user st),
     [EvCreate userRow; EvFetch (requestBody c um template); failed]).
Proof.
  intros Hc Hf. enter. rewrite Hc. cbn [run].
  assert (R : run b catchBlock
                (setMessages (fun prev => prev ++ [am])
                   (setIsStreaming true (setInput ""
                      (setMessages (fun prev => prev ++ [um]) st))))
              = (mkState (messages st ++ [um]) "" false (user st), [failed])).
  { cbn [run catchBlock finallyBlock]. settle. now rewrite slice_init. }
  unfold inferenceFails in Hf.
  destruct (fetch b (requestBody c um template)) as [resp|e].
  - cbn [run]. destruct (json resp) as [data|e].
    + rewrite Hf, R, ?Hu. reflexivity.
    + rewrite R, ?Hu. reflexivity.
  - rewrite R, ?Hu. reflexivity.
Qed.

Lemma send_assistant_create_rejected (resp : HttpResponse)
  (data : InferenceData) (e : Thrown) :
  create b userRow = Fulfilled tt ->
  fetch b (requestBody c um template) = Fulfilled resp ->
  json resp = Fulfilled data ->
  optTruthy (d_error data) = false ->
  create b (rowOf am (d_response data)) = Rejected e ->
  send b p clk prompt template st
  = (mkState
       (updateById (ChatMessage.id am)
          (ChatMessage.withContent (d_response data)) (messages st ++ [um]))
       "" false (user st),
     [EvCreate userRow; EvFetch (requestBody c um template);
      EvCreate (rowOf am (d_response data)); failed]).
Proof.
  intros Hc Hf Hj He Hc'. enter. rewrite Hc. cbn [run].
  rewrite Hf. cbn [run]. rewrite Hj, He. cbn [run]. rewrite Hc'.
  cbn [run catchBlock finallyBlock]. settle.
  rewrite <- app_assoc. cbn [app].
  change [um; am] with ([um] ++ [am]). rewrite app_assoc.
  unfold updateById. rewrite (map_app _ _ [am]). cbn [map].
  rewrite slice_init, ?Hu. reflexivity.
Qed.

Lemma send_success (resp : HttpResponse) (data : InferenceData) :
  create b userRow = Fulfilled tt ->
  fetch b (requestBody c um template) = Fulfilled resp ->
  json resp = Fulfilled data ->
  optTruthy (d_error data) = false ->
  create b (rowOf am (d_response data)) = Fulfilled tt ->
  send b p clk prompt template st
  = (mkState
       (updateById (ChatMessage.id am) (ChatMessage.withIsStreaming false)
          (updateById (ChatMessage.id am)
             (ChatMessage.withContent (d_response data))
             (messages st ++ [um; am])))
       "" false (user st),
     [EvCreate userRow; EvFetch (requestBody c um template);
      EvCreate (rowOf am (d_response data))] ++ callbackEvents c data).
Proof.
  intros Hc Hf Hj He Hc'. enter. rewrite Hc. cbn [run].
  rewrite Hf. cbn [run]. rewrite Hj, He. cbn [run]. rewrite Hc'.
  cbn [run]. rewrite run_callbacks. settle.
  rewrite <- app_assoc, ?Hu. reflexivity.
Qed.

(** Whatever the collaborators answer, an accepted call makes one
    inference request when the user message was stored, none otherwise. *)
Lemma send_fetches :
  filter isFetch (snd (send b p clk prompt template st))
  = match create b userRow with
    | Fulfilled _ => [EvFetch (requestBody c um template)]
    | Rejected _ => []
    end.
Proof.
  destruct (create b userRow) as [[]|e] eqn:Hc.
  - destruct (inferenceFails (fetch b (requestBody c um template))) eqn:Hf.
    + now rewrite send_inference_failed.
    + unfold inferenceFails in Hf.
      destruct (fetch b (requestBody c um template)) as [resp|] eqn:Hfe;
        [|discriminate].
      destruct (json resp) as [data|] eqn:Hj; [|discriminate].
      destruct (create b (rowOf am (d_response data))) as [[]|e] eqn:Hc'.
      * rewrite (send_success resp data) by assumption.
        cbn [snd]. rewrite filter_app, callbackEvents_no_fetch. reflexivity.
      * now rewrite (send_assistant_create_rejected resp data e).
  - now rewrite (send_user_create_rejected e).
Qed.

End Send.

(** A closure that sees the flag set, no user or a blank prompt makes the
    call return at once: nothing is appended, stored or requested. *)
Lemma rejected_is_noop (c : Closure) (clk : Clock) (prompt : string)
  (template : option string) :
  accepts c prompt = false ->
  handleSendWithTemplate c clk prompt template = Finish.
Proof.
  unfold accepts, handleSendWithTemplate.
  destruct (c_user c); [|reflexivity].
  destruct (truthy (trim prompt)), (c_isStreaming c); simpl;
    intros H; try reflexivity; discriminate.
Qed.

End ChatFacts.

(** ** Calls made from the page are serialized *)

Module SerializationFacts.
Import Js Chat ChatFacts.

Lemma orderly_finally : Orderly finallyBlock.
Proof. simpl. auto. Qed.

Lemma orderly_catch : Orderly catchBlock.
Proof. simpl. repeat split; auto. Qed.

Lemma orderly_htmlStep (c : Closure) (data : InferenceData) (k : Proc) :
  Orderly k -> Orderly (htmlStep c data k).
Proof.
  intros H. unfold htmlStep. destruct (d_html data) as [h|]; [|exact H].
  destruct (truthy h && onCodeGenerated (c_props c)); exact H.
Qed.

Lemma orderly_codeStep (c : Closure) (full : string) (k : Proc) :
  Orderly k -> Orderly (codeStep c full k).
Proof.
  intros H. unfold codeStep. destruct (onCodeGenerated (c_props c)); [|exact H].
  induction (extractCode full) as [|a l IH]; simpl; assumption.
Qed.

Lemma orderly_handler (c : Closure) (clk : Clock) (prompt : string)
  (template : option string) :
  Orderly (handleSendWithTemplate c clk prompt template).
Proof.
  unfold handleSendWithTemplate. destruct (c_user c) as [u|]; [|exact I].
  destruct (negb (truthy (trim prompt)) || c_isStreaming c); [exact I|].
  cbn [Orderly]. repeat split; auto.
  intros [[]|e]; [|apply orderly_catch].
  cbn [Orderly]. split; [auto|].
  intros [resp|e]; [|apply orderly_catch].
  cbn [Orderly]. intros [data|e]; [|apply orderly_catch].
  destruct (optTruthy (d_error data)); [apply orderly_catch|].
  cbn [Orderly]. split; [auto|].
  intros [[]|e]; [|apply orderly_catch].
  cbn [Orderly]. split; [auto|].
  apply orderly_htmlStep, orderly_codeStep, orderly_finally.
Qed.

Lemma runSync_orderly (p : Proc) (st : State) :
  Orderly p -> isStreaming st = true ->
  Orderly (snd (runSync p st))
  /\ (isFinished (snd (runSync p st)) = false ->
      isStreaming (fst (fst (runSync p st))) = true).
Proof.
  revert st;
    induction p
      as [|f k IH|l k IH|cd fn k IH|row k IH|body k IH|r k IH];
    intros st Hp Hst; cbn [runSync].
  - split; [exact I | discriminate].
  - destruct Hp as [[->|Hf] Hk].
    + cbn [runSync]. split; [exact I | discriminate].
    + apply IH; auto.
  - specialize (IH st Hp Hst).
    destruct (runSync k st) as [[st' ev] p']. exact IH.
  - specialize (IH st Hp Hst).
    destruct (runSync k st) as [[st' ev] p']. exact IH.
  - split; [exact Hp | auto].
  - split; [exact Hp | auto].
  - split; [exact Hp | auto].
Qed.

Lemma resume_orderly (p k : Proc) (r : Reply) :
  Orderly p -> resume p r = Some k -> Orderly k.
Proof.
  destruct p, r; simpl; intros Hp H; try discriminate H;
    injection H as <-; apply Hp.
Qed.

(** A commit without a staged prompt only refreshes the handlers. *)
Lemma commit_serialized (st : State) (p : Props) (h : Closure)
  (ts : list Proc) (l : list Event) :
  (ts = [] \/ exists t, ts = [t] /\ isFinished t = false
                        /\ isStreaming st = true /\ Orderly t) ->
  Serialized (commit (mkWorld st p h None [] ts l)).
Proof.
  intros H. unfold commit, autoSendEffect. cbn.
  destruct (user st); repeat split; auto.
Qed.

Lemma start_rejected (w : World) : Serialized w -> Serialized (start Finish w).
Proof.
  intros (Ht & Hs & Hh & Htasks). unfold start. cbn [runSync park isFinished].
  rewrite Ht, Hs. apply commit_serialized. exact Htasks.
Qed.

Lemma start_accepted (w : World) (clk : Clock) (prompt : string)
  (template : option string) :
  Serialized w ->
  accepts (handlers w) prompt = true ->
  Serialized
    (start (handleSendWithTemplate (handlers w) clk prompt template) w).
Proof.
  intros (Ht & Hs & Hh & Htasks) Hacc.
  pose proof (orderly_handler (handlers w) clk prompt template) as Ho.
  unfold accepts in Hacc. unfold handleSendWithTemplate in *.
  destruct (c_user (handlers w)) as [u|]; [|discriminate].
  apply andb_true_iff in Hacc as [Hp Hf]. apply negb_true_iff in Hf.
  rewrite Hp, Hf in *. cbn [negb orb] in *.
  assert (Hnil : tasks w = []).
  { destruct Htasks as [H|(t & _ & _ & Hflag & _)]; [exact H|].
    rewrite Hh in Hf. cbn [render c_isStreaming] in Hf. congruence. }
  unfold start. cbn [runSync]. cbn [Orderly] in Ho.
  destruct Ho as (_ & _ & _ & Ho).
  rewrite Ht, Hs, Hnil. apply commit_serialized. right.
  cbn [park isFinished app]. eexists. repeat split. exact Ho.
Qed.

Lemma handleSend_cases (c : Closure) (clk : Clock) :
  handleSend c clk
  = if accepts c (c_input c)
    then handleSendWithTemplate c clk (c_input c) None else Finish.
Proof.
  unfold handleSend, accepts. destruct (c_user c); [|reflexivity].
  destruct (truthy (trim (c_input c))), (c_isStreaming c); reflexivity.
Qed.

(** Every action of the page keeps the calls serialized. *)
Lemma step_serialized (a : Action) (w : World) :
  Serialized w -> Serialized (step a w).
Proof.
  intros HS. pose proof HS as (Ht & Hs & Hh & Htasks).
  destruct a as [text|clk|i clk|i r|u|[chatMessages|e]]; cbn [step].
  - destruct (c_isStreaming (handlers w)); [exact HS|].
    rewrite Ht, Hs. apply commit_serialized.
    destruct Htasks as [H|(t & E & F & Hflag & Ho)]; [left; exact H|].
    right. exists t. repeat split; auto.
  - rewrite handleSend_cases.
    destruct (accepts (handlers w) (c_input (handlers w))) eqn:E.
    + now apply start_accepted.
    + now apply start_rejected.
  - rewrite Ht. now destruct i.
  - destruct Htasks as [H|(t & E & F & Hflag & Ho)].
    + rewrite H. now destruct i.
    + rewrite E. destruct i as [|i]; [|now destruct i].
      cbn [nth_error]. destruct (resume t r) as [k|] eqn:R; [|exact HS].
      pose proof (resume_orderly t k r Ho R) as Hk.
      pose proof (runSync_orderly k (store w) Hk Hflag) as [Ho' Hf'].
      destruct (runSync k (store w)) as [[st' ev] p']. cbn [fst snd] in *.
      rewrite Ht, Hs. apply commit_serialized. cbn [replaceTask].
      destruct (isFinished p') eqn:F'; [left; reflexivity|].
      right. exists p'. repeat split; auto.
  - rewrite Ht, Hs. apply commit_serialized.
    destruct Htasks as [H|(t & E & F & Hflag & Ho)]; [left; exact H|].
    right. exists t. repeat split; auto.
  - rewrite Ht, Hs. apply commit_serialized.
    destruct Htasks as [H|(t & E & F & Hflag & Ho)]; [left; exact H|].
    right. exists t. repeat split; auto.
  - repeat split; auto.
Qed.

Lemma steps_serialized (l : list Action) (w : World) :
  Serialized w -> Serialized (steps l w).
Proof.
  revert w; induction l as [|a l IH]; intros w H; [exact H|].
  apply IH, step_serialized, H.
Qed.

Lemma mount_serialized (p : Props) (u : User.t) (msgs : list ChatMessage.t) :
  Serialized (mount p u msgs None).
Proof. unfold mount. apply commit_serialized. now left. Qed.

Lemma serialized_inFlight (w : World) : Serialized w -> inFlight w <= 1.
Proof.
  intros (_ & _ & _ & [H|(t & H & _)]); unfold inFlight; rewrite H; simpl;
    [lia|]. destruct (awaitsInference t); simpl; lia.
Qed.

(** Without a staged prompt, whatever the user and the collaborators do,
    at most one inference request is in flight. *)
Lemma page_sends_are_serialized (p : Props) (u : User.t)
  (msgs : list ChatMessage.t) (l : list Action) :
  inFlight (steps l (mount p u msgs None)) <= 1.
Proof.
  apply serialized_inFlight, steps_serialized, mount_serialized.
Qed.

End SerializationFacts.

Module Conversation.
Import Js Chat Examples Examples2 JsFacts ChatFacts.

(** C1 (code bug). The guard of line 62 tests the [isStreaming] captured
    by the closure, not the current flag. Here the auto-send timer of lines
    190-198 calls the handler of the first render while the request of a
    manual send is pending: the call is not rejected, two inference
    requests are in flight at once, and once everything settles two
    user/assistant pairs have been stored. Calling one handler twice in a
    row without awaiting the first call does the same: both calls append
    and store their user message. *)
Theorem stale_guard_lets_second_send_through :
  isStreaming (store (steps (firstn 3 overlap) landing)) = true
  /\ inFlight (steps (firstn 3 overlap) landing) = 1
  /\ inFlight (steps overlap landing) = 2
  /\ map (fun m => (ChatMessage.id m, ChatMessage.content m))
       (messages (store (steps overlap landing)))
     = [("msg_1200_user", "build a todo app"); ("msg_1201_assistant", "");
        ("msg_1500_user", "build a todo app"); ("msg_1501_assistant", "")]
  /\ List.length
       (filter isCreate (log (steps settleBoth (steps overlap landing)))) = 4
  /\ List.length (filter isFetch (log backToBack)) = 0
  /\ map ChatMessage.id (messages (store backToBack))
     = ["msg_100_user"; "msg_200_user"]
  /\ List.length (filter isCreate (log backToBack)) = 2.
Proof. vm_compute. repeat split. Qed.

(** The guard does its work for a closure that sees the flag: the call
    is a no-op. *)
Lemma send_while_streaming_is_noop (b : Backend) (p : Props) (clk : Clock)
  (prompt : string) (template : option string) (st : State) :
  isStreaming st = true ->
  send b p clk prompt template st = (st, []).
Proof.
  intros H. unfold send. rewrite rejected_is_noop; [reflexivity|].
  unfold accepts. cbn [render c_user c_isStreaming]. rewrite H.
  destruct (user st); [apply andb_false_r | reflexivity].
Qed.

(** C2 (code bug). The [catch] of lines 171-174 removes the last message
    of the log, which is the provisional assistant message of the failed
    call only while no other call has appended after it. In the world of
    C1, where the click and the auto-send timer have each made a call, the
    request of the first call is rejected: its [catch] removes the
    placeholder of the second call. The placeholder of the failed call
    stays in the log, empty and flagged as streaming, and the flag of the
    page is cleared while the second request is in flight. When that
    request is answered the reply is stored, but the log has no message to
    put it in, and the leftover placeholder is never removed. *)
Theorem rollback_removes_the_other_calls_placeholder :
  filter isFetch (log (steps (overlap ++ firstRequestFails) landing))
  = [EvFetch (mkBody [mkWire RoleUser "build a todo app"] None);
     EvFetch (mkBody [mkWire RoleUser "build a todo app"] None)]
  /\ last (log (steps (overlap ++ firstRequestFails) landing))
       (EvConsoleError "")
     = EvConsoleError "Failed to send message:"
  /\ map (fun m => (ChatMessage.id m, ChatMessage.content m,
                    ChatMessage.isStreaming m))
       (messages (store (steps (overlap ++ firstRequestFails) landing)))
     = [("msg_1200_user", "build a todo app", None);
        ("msg_1201_assistant", "", Some true);
        ("msg_1500_user", "build a todo app", None)]
  /\ isStreaming (store (steps (overlap ++ firstRequestFails) landing))
     = false
  /\ inFlight (steps (overlap ++ firstRequestFails) landing) = 1
  /\ map (fun m => (ChatMessage.id m, ChatMessage.content m,
                    ChatMessage.isStreaming m))
       (messages
          (store (steps (overlap ++ firstRequestFails ++ secondCompletes)
                    landing)))
     = [("msg_1200_user", "build a todo app", None);
        ("msg_1201_assistant", "", Some true);
        ("msg_1500_user", "build a todo app", None)]
  /\ last (log (steps (overlap ++ firstRequestFails ++ secondCompletes)
                  landing)) (EvConsoleError "")
     = EvCreate (ChatMessage.mk "msg_1501_assistant" RoleAssistant "two"
                   1501 "proj_1" "user_1" None).
Proof. vm_compute. repeat split. Qed.

(** The world of C1 is the one the component reaches by itself from its
    first render. *)
Example landing_is_reached :
  steps arrival (boot props0 (Some ("build a todo app", None))) = landing.
Proof. reflexivity. Qed.

(** [mount] is [boot] once the log has arrived and the user is known. *)
Lemma mount_is_reached (p : Props) (u : User.t) (msgs : list ChatMessage.t)
  (stagedPrompt : option (string * option string)) :
  steps [HistoryLoaded (Fulfilled msgs); AuthChanged (Some u)]
    (boot p stagedPrompt)
  = mount p u msgs stagedPrompt.
Proof. reflexivity. Qed.

(** A call through the handler of the current render that runs alone
    does roll back. When the user message was stored and the inference
    call fails (the request is rejected, the body cannot be read, or the
    payload has an [error]), the request having been made, the log
    afterwards is the previous log followed by the user message, the
    provisional assistant message being gone; the flag is cleared and the
    next render accepts a new prompt. *)
Theorem rollback_on_inference_failure (b : Backend) (p : Props) (clk : Clock)
  (prompt : string) (template : option string) (st : State) (u : User.t) :
  user st = Some u ->
  truthy (trim prompt) = true ->
  isStreaming st = false ->
  create b (rowOf (userMessageOf (render p st) u clk prompt) (trim prompt))
    = Fulfilled tt ->
  inferenceFails
    (fetch b (requestBody (render p st)
                (userMessageOf (render p st) u clk prompt) template)) = true ->
  messages (fst (send b p clk prompt template st))
    = messages st ++ [userMessageOf (render p st) u clk prompt]
  /\ snd (send b p clk prompt template st)
     = [EvCreate (rowOf (userMessageOf (render p st) u clk prompt)
                    (trim prompt));
        EvFetch (requestBody (render p st)
                   (userMessageOf (render p st) u clk prompt) template);
        EvConsoleError "Failed to send message:"]
  /\ isStreaming (fst (send b p clk prompt template st)) = false
  /\ (forall next, truthy (trim next) = true ->
        accepts (render p (fst (send b p clk prompt template st))) next = true).
Proof.
  intros Hu Hp Hs Hc Hf.
  rewrite (send_inference_failed b p clk prompt template st u Hu Hp Hs Hc Hf).
  cbn [fst snd messages isStreaming]. repeat split.
  intros next Hn. unfold accepts. cbn [render c_user c_isStreaming].
  now rewrite Hu, Hn.
Qed.

Lemma rollback_on_inference_failure_witness :
  inferenceFails
    (fetch inferenceDown
       (requestBody (render props0 (idle tenMessages))
          (userMessageOf (render props0 (idle tenMessages)) alice
             (clockAt 100) "hello") None)) = true
  /\ messages
       (fst (send inferenceDown props0 (clockAt 100) "hello" None
               (idle tenMessages)))
     = tenMessages
         ++ [userMessageOf (render props0 (idle tenMessages)) alice
               (clockAt 100) "hello"]
  /\ isStreaming
       (fst (send inferenceDown props0 (clockAt 100) "hello" None
               (idle tenMessages))) = false.
Proof.
  split; [reflexivity|].
  pose proof (rollback_on_inference_failure inferenceDown props0 (clockAt 100)
                "hello" None (idle tenMessages) alice
                eq_refl eq_refl eq_refl eq_refl eq_refl) as (H1 & _ & H2 & _).
  split; [exact H1 | exact H2].
Defined.

(** The same with an [error] field in the payload. *)
Example rollback_on_error_field :
  send inferenceError props0 (clockAt 100) " hello " None (idle [])
  = (idle [ChatMessage.mk "msg_100_user" RoleUser "hello" 100
             "proj_1" "user_1" None],
     [EvCreate (ChatMessage.mk "msg_100_user" RoleUser "hello" 100
                  "proj_1" "user_1" None);
      EvFetch (mkBody [mkWire RoleUser "hello"] None);
      EvConsoleError "Failed to send message:"]).
Proof. reflexivity. Qed.

(** C3 (code bug). The request is built from the [messages] the handler
    closed over (line 109), and the auto-send timer of lines 190-198 keeps
    the handler of the render that armed it. A visitor returns to a
    conversation of ten stored messages with a staged prompt: the user
    becomes known, the effect arms the timer on a render whose log is
    still empty, then the ten messages arrive. When the timer makes the
    call the log holds the ten messages, and the request carries the new
    message alone instead of turns 6 to 10 followed by it. The same
    visitor typing the message gets the window the comment of line 109
    promises: the handler of the page is the one of the latest render. *)
Theorem auto_send_carries_no_context :
  filter isFetch (log (steps typedSend (boot props0 None)))
  = [EvFetch
       (mkBody
          [mkWire RoleAssistant "turn 6"; mkWire RoleUser "turn 7";
           mkWire RoleAssistant "turn 8"; mkWire RoleUser "turn 9";
           mkWire RoleAssistant "turn 10"; mkWire RoleUser "eleventh"]
          None)]
  /\ messages (store (steps (firstn 3 autoSend) returning)) = tenMessages
  /\ map (fun m => (ChatMessage.id m, ChatMessage.content m))
       (messages (store (steps autoSend returning)))
     = map (fun m => (ChatMessage.id m, ChatMessage.content m)) tenMessages
       ++ [("msg_1500_user", "build a todo app");
           ("msg_1501_assistant", "")]
  /\ filter isFetch (log (steps autoSend returning))
     = [EvFetch (mkBody [mkWire RoleUser "build a todo app"] None)]
  /\ filter isFetch (log (steps autoSend returning))
     <> [EvFetch
           (mkBody
              [mkWire RoleAssistant "turn 6"; mkWire RoleUser "turn 7";
               mkWire RoleAssistant "turn 8"; mkWire RoleUser "turn 9";
               mkWire RoleAssistant "turn 10";
               mkWire RoleUser "build a todo app"] None)].
Proof.
  split; [reflexivity|].
  split; [reflexivity|]. split; [reflexivity|]. split; [reflexivity|].
  discriminate.
Qed.

(** The same for every stored log and every staged prompt that is not
    blank: when the user becomes known before the log arrives, the
    auto-sent request carries the prompt alone. *)
Lemma auto_send_request_any_history (p : Props) (u : User.t)
  (msgs : list ChatMessage.t) (prompt : string) (template : option string)
  (clk1 clk2 : Clock) :
  truthy prompt = true ->
  truthy (trim prompt) = true ->
  filter isFetch
    (log (steps [ AuthChanged (Some u); HistoryLoaded (Fulfilled msgs);
                  TimerFires 0 clk1; TimerFires 0 clk2;
                  Settles 0 (CreateSettled (Fulfilled tt)) ]
            (boot p (Some (prompt, template)))))
  = [EvFetch (mkBody [mkWire RoleUser (trim prompt)] template)].
Proof.
  intros Hp Ht. unfold boot, steps, commit, autoSendEffect. cbn.
  rewrite Hp. cbn. unfold trim in Ht. rewrite Ht. cbn.
  unfold start, handleSendWithTemplate. cbn. reflexivity.
Qed.

(** A call through the handler of the current render does send the
    window. With at least five earlier messages, the request of an
    accepted call carries the last five of them, in their order, then the
    new user message, each as its role and its content and nothing else.
    The request is made once, provided the user message was stored. *)
Theorem context_window (b : Backend) (p : Props) (clk : Clock)
  (prompt : string) (template : option string) (st : State) (u : User.t) :
  user st = Some u ->
  truthy (trim prompt) = true ->
  isStreaming st = false ->
  5 <= List.length (messages st) ->
  exists older recent,
    messages st = older ++ recent
    /\ List.length recent = 5
    /\ filter isFetch (snd (send b p clk prompt template st))
       = match create b (rowOf (userMessageOf (render p st) u clk prompt)
                           (trim prompt)) with
         | Fulfilled _ =>
             [EvFetch
                (mkBody
                   (map (fun m => mkWire (ChatMessage.role m)
                                    (ChatMessage.content m)) recent
                    ++ [mkWire RoleUser (trim prompt)]) template)]
         | Rejected _ => []
         end.
Proof.
  intros Hu Hp Hs Hlen.
  destruct (sliceFrom_last5 (messages st) Hlen) as (older & recent & E & L & S).
  exists older, recent. split; [exact E|]. split; [exact L|].
  rewrite (send_fetches b p clk prompt template st u Hu Hp Hs).
  cbn [ChatMessage.content userMessageOf].
  unfold requestBody. cbn [c_messages render]. rewrite S, map_app.
  reflexivity.
Qed.

Lemma context_window_witness :
  5 <= List.length (messages (idle tenMessages))
  /\ exists older recent,
       tenMessages = older ++ recent
       /\ List.length recent = 5
       /\ filter isFetch
            (snd (send healthy props0 (clockAt 100) "eleventh" None
                    (idle tenMessages)))
          = [EvFetch
               (mkBody
                  (map (fun m => mkWire (ChatMessage.role m)
                                   (ChatMessage.content m)) recent
                   ++ [mkWire RoleUser "eleventh"]) None)].
Proof.
  split; [simpl; lia|].
  apply (context_window healthy props0 (clockAt 100) "eleventh" None
           (idle tenMessages) alice eq_refl eq_refl eq_refl).
  simpl; lia.
Defined.

(** Ten earlier messages: the request holds turns 6 to 10 and the new one. *)
Example context_window_ten :
  filter isFetch
    (snd (send healthy props0 (clockAt 100) "eleventh" None (idle tenMessages)))
  = [EvFetch
       (mkBody
          [mkWire RoleAssistant "turn 6"; mkWire RoleUser "turn 7";
           mkWire RoleAssistant "turn 8"; mkWire RoleUser "turn 9";
           mkWire RoleAssistant "turn 10"; mkWire RoleUser "eleventh"]
          None)].
Proof. reflexivity. Qed.

(** C5, as the claim states it, fails: when the write of the user message
    fails, no inference request is made, and the user message is no
    longer in the log. *)
Lemma failed_user_write_stops_the_send :
  accepts (render props0 (idle [])) "hello" = true
  /\ create storeDown
       (rowOf (userMessageOf (render props0 (idle [])) alice (clockAt 100)
                 "hello") "hello")
     = Rejected (ErrorObject "db unavailable")
  /\ filter isFetch
       (snd (send storeDown props0 (clockAt 100) "hello" None (idle []))) = []
  /\ messages
       (fst (send storeDown props0 (clockAt 100) "hello" None (idle []))) = [].
Proof. repeat split. Qed.

(** C5 (amended). When the write of the user message fails, the failure
    is logged and the call ends there: after the attempted write the only
    further event is the log entry, so no inference request is made and
    nothing else is stored, and the guard is cleared. *)
Theorem failed_user_write_is_logged_and_ends_send (b : Backend) (p : Props)
  (clk : Clock) (prompt : string) (template : option string) (st : State)
  (u : User.t) (e : Thrown) :
  user st = Some u ->
  truthy (trim prompt) = true ->
  isStreaming st = false ->
  create b (rowOf (userMessageOf (render p st) u clk prompt) (trim prompt))
    = Rejected e ->
  snd (send b p clk prompt template st)
    = [EvCreate
         (rowOf (userMessageOf (render p st) u clk prompt) (trim prompt));
       EvConsoleError "Failed to send message:"]
  /\ isStreaming (fst (send b p clk prompt template st)) = false.
Proof.
  intros Hu Hp Hs Hc.
  rewrite (send_user_create_rejected b p clk prompt template st u Hu Hp Hs
             e Hc).
  split; reflexivity.
Qed.

Lemma failed_user_write_witness :
  create storeDown
    (rowOf (userMessageOf (render props0 (idle tenMessages)) alice
              (clockAt 100) "hello") (trim "hello"))
    = Rejected (ErrorObject "db unavailable")
  /\ snd (send storeDown props0 (clockAt 100) "hello" None (idle tenMessages))
     = [EvCreate
          (rowOf (userMessageOf (render props0 (idle tenMessages)) alice
                    (clockAt 100) "hello") (trim "hello"));
        EvConsoleError "Failed to send message:"]
  /\ isStreaming
       (fst (send storeDown props0 (clockAt 100) "hello" None
               (idle tenMessages))) = false.
Proof.
  split; [reflexivity|].
  exact (failed_user_write_is_logged_and_ends_send storeDown props0
           (clockAt 100) "hello" None (idle tenMessages) alice
           (ErrorObject "db unavailable") eq_refl eq_refl eq_refl eq_refl).
Defined.

(** C10 (code bug). The same [catch] runs when the write of the finished
    assistant message fails, and again removes whatever message is last.
    In the world of C1 the first call receives the reply [one] and its
    write is rejected while the second call waits for the endpoint: the
    placeholder of the second call is removed, and the assistant message
    of the first call, holding [one] and flagged as streaming, stays in
    the log, also after the second call has run to its end. Nothing is
    forwarded to the callback and the failure is logged. *)
Theorem failed_write_keeps_the_reply_in_the_log :
  map (fun m => (ChatMessage.id m, ChatMessage.content m,
                 ChatMessage.isStreaming m))
    (messages (store (steps (overlap ++ firstWriteFails) landing)))
  = [("msg_1200_user", "build a todo app", None);
     ("msg_1201_assistant", "one", Some true);
     ("msg_1500_user", "build a todo app", None)]
  /\ skipn 4 (log (steps (overlap ++ firstWriteFails) landing))
     = [EvCreate (ChatMessage.mk "msg_1201_assistant" RoleAssistant "one"
                    1201 "proj_1" "user_1" None);
        EvConsoleError "Failed to send message:"]
  /\ filter isCodeGenerated
       (log (steps (overlap ++ firstWriteFails) landing)) = []
  /\ isStreaming (store (steps (overlap ++ firstWriteFails) landing)) = false
  /\ inFlight (steps (overlap ++ firstWriteFails) landing) = 1
  /\ map (fun m => (ChatMessage.id m, ChatMessage.content m,
                    ChatMessage.isStreaming m))
       (messages
          (store (steps (overlap ++ firstWriteFails ++ secondCompletes)
                    landing)))
     = [("msg_1200_user", "build a todo app", None);
        ("msg_1201_assistant", "one", Some true);
        ("msg_1500_user", "build a todo app", None)].
Proof. vm_compute. repeat split. Qed.

(** A call through the handler of the current render that runs alone
    does discard the reply. When the inference call succeeds and the
    write of the finished assistant message then fails, the assistant
    message, already holding the full response, is removed from the log and
    the user message stays; the callback is never called, neither for the
    html nor for a code block; the failure is logged and the flag is
    cleared. Identifiers are taken to be unique in the log. *)
Theorem failed_assistant_write_discards_reply (b : Backend) (p : Props)
  (clk : Clock) (prompt : string) (template : option string) (st : State)
  (u : User.t) (resp : HttpResponse) (data : InferenceData) (e : Thrown) :
  user st = Some u ->
  truthy (trim prompt) = true ->
  isStreaming st = false ->
  Forall (fun m => ChatMessage.id m
                   <> ChatMessage.id (assistantMessageOf (render p st) u clk))
    (messages st) ->
  create b (rowOf (userMessageOf (render p st) u clk prompt) (trim prompt))
    = Fulfilled tt ->
  fetch b (requestBody (render p st)
             (userMessageOf (render p st) u clk prompt) template)
    = Fulfilled resp ->
  json resp = Fulfilled data ->
  optTruthy (d_error data) = false ->
  create b (rowOf (assistantMessageOf (render p st) u clk) (d_response data))
    = Rejected e ->
  messages (fst (send b p clk prompt template st))
    = messages st ++ [userMessageOf (render p st) u clk prompt]
  /\ filter isCodeGenerated (snd (send b p clk prompt template st)) = []
  /\ last (snd (send b p clk prompt template st))
       (EvConsoleError "") = EvConsoleError "Failed to send message:"
  /\ isStreaming (fst (send b p clk prompt template st)) = false.
Proof.
  intros Hu Hp Hs Hfresh Hc Hf Hj He Hc'.
  rewrite (send_assistant_create_rejected b p clk prompt template st u
             Hu Hp Hs resp data e Hc Hf Hj He Hc').
  cbn [fst snd messages isStreaming]. repeat split.
  apply updateById_fresh. apply Forall_app. split; [exact Hfresh|].
  constructor; [|constructor]. apply user_assistant_ids_differ.
Qed.

Lemma failed_assistant_write_witness :
  create assistantStoreDown
    (rowOf (assistantMessageOf (render props0 (idle tenMessages)) alice
              (clockAt 100)) pythonExample)
    = Rejected (ErrorObject "db unavailable")
  /\ messages
       (fst (send assistantStoreDown props0 (clockAt 100) "hello" None
               (idle tenMessages)))
     = tenMessages
         ++ [userMessageOf (render props0 (idle tenMessages)) alice
               (clockAt 100) "hello"]
  /\ filter isCodeGenerated
       (snd (send assistantStoreDown props0 (clockAt 100) "hello" None
               (idle tenMessages))) = [].
Proof.
  split; [reflexivity|].
  assert (F : Forall
                (fun m => ChatMessage.id m
                          <> ChatMessage.id
                               (assistantMessageOf
                                  (render props0 (idle tenMessages)) alice
                                  (clockAt 100)))
                (messages (idle tenMessages))).
  { repeat constructor; discriminate. }
  pose proof (failed_assistant_write_discards_reply assistantStoreDown props0
                (clockAt 100) "hello" None (idle tenMessages) alice
                (mkResponse (Fulfilled (mkData pythonExample
                                          (Some "<h1>Hi</h1>") None)))
                (mkData pythonExample (Some "<h1>Hi</h1>") None)
                (ErrorObject "db unavailable")
                eq_refl eq_refl eq_refl F eq_refl eq_refl eq_refl eq_refl
                eq_refl) as (H1 & H2 & _).
  split; [exact H1 | exact H2].
Defined.

(** For comparison, the healthy run: one user/assistant pair is stored
    and the html and the code block reach the callback. *)
Example healthy_send :
  snd (send healthy props0 (clockAt 100) "hello" None (idle []))
  = [EvCreate (ChatMessage.mk "msg_100_user" RoleUser "hello" 100
                 "proj_1" "user_1" None);
     EvFetch (mkBody [mkWire RoleUser "hello"] None);
     EvCreate (ChatMessage.mk "msg_101_assistant" RoleAssistant pythonExample
                 101 "proj_1" "user_1" None);
     EvCodeGenerated "<h1>Hi</h1>" "index.html";
     EvCodeGenerated "print(1)" "generated.python"].
Proof. reflexivity. Qed.

End Conversation.

(* ===================================================================== *)
(** * The workspace tree model                                            *)
(* ===================================================================== *)

Module EditorFacts.
Import Js Editor Examples Examples2.

Lemma isMainFile_spec (f : FileNode.t) : isMainFile f = true <-> MainName f.
Proof.
  unfold isMainFile, MainName.
  rewrite !orb_true_iff, !String.eqb_eq. tauto.
Qed.

Lemma isMainFile_false (f : FileNode.t) : ~ MainName f -> isMainFile f = false.
Proof.
  intros H. destruct (isMainFile f) eqn:E; [|reflexivity].
  now apply isMainFile_spec in E.
Qed.

(** The first top-level entry with a main name heads [mainFiles]. *)
Lemma filter_first_match (pre post : list FileNode.t) (f : FileNode.t) :
  Forall (fun g => ~ MainName g) pre ->
  MainName f ->
  filter isMainFile (pre ++ f :: post) = f :: filter isMainFile post.
Proof.
  intros Hpre Hf. induction Hpre as [|g pre Hg _ IH]; simpl.
  - apply isMainFile_spec in Hf. now rewrite Hf.
  - now rewrite (isMainFile_false g Hg).
Qed.

Lemma autoOpen_opens (files pre post : list FileNode.t) (f : FileNode.t)
  (st : State) :
  openTabs st = [] ->
  files = pre ++ f :: post ->
  Forall (fun g => ~ MainName g) pre ->
  MainName f ->
  openTabs (autoOpen files st) = [FileNode.path f]
  /\ selectedFile (autoOpen files st) = Some (FileNode.path f).
Proof.
  intros Ht -> Hpre Hf. unfold autoOpen.
  rewrite (filter_first_match pre post f Hpre Hf), Ht. simpl. now split.
Qed.

Lemma autoOpen_keeps_tabs (files : list FileNode.t) (st : State) :
  openTabs st <> [] -> autoOpen files st = st.
Proof.
  intros H. unfold autoOpen. destruct (filter isMainFile files); [reflexivity|].
  destruct (openTabs st); [contradiction | reflexivity].
Qed.

Lemma autoOpen_without_match (files : list FileNode.t) (st : State) :
  Forall (fun g => ~ MainName g) files -> autoOpen files st = st.
Proof.
  intros H. unfold autoOpen.
  replace (filter isMainFile files) with (@nil FileNode.t); [reflexivity|].
  induction H as [|g l Hg _ IH]; simpl; [reflexivity|].
  now rewrite (isMainFile_false g Hg).
Qed.

(** C6 (code bug). The effect commented [Auto-open main files] filters
    the top-level array only, takes the first match in array order, and
    runs again whenever the number of open tabs changes. On the tree that
    [ProjectEditor] passes down, where [App.tsx] and [main.tsx] lie inside
    [src], nothing is opened, neither on mount (with the empty list) nor
    when the tree arrives; a file named [App.tsx] inside a directory is
    never found; with [index.tsx] listed before [App.tsx], [index.tsx] is
    opened; and after the user closes the only tab the effect runs again
    and reopens the file. *)
Theorem auto_open_misses_main_files_and_reopens_closed_tab :
  (In "src/App.tsx" (map FileNode.path (allNodes mockFiles))
   /\ In "src/main.tsx" (map FileNode.path (allNodes mockFiles))
   /\ mount [] = initial
   /\ afterRender true mockFiles (mount []) (mount []) = initial
   /\ mount mockFiles = initial)
  /\ (In (file "App.tsx" "src/App.tsx") (allNodes nestedApp)
      /\ openTabs (mount nestedApp) = []
      /\ selectedFile (mount nestedApp) = None)
  /\ (In (file "App.tsx" "App.tsx") (allNodes indexBeforeApp)
      /\ openTabs (mount indexBeforeApp) = ["index.tsx"]
      /\ selectedFile (mount indexBeforeApp) = Some "index.tsx")
  /\ (openTabs (mount readmeThenMain) = ["main.tsx"]
      /\ openTabs (closeTab "main.tsx" (mount readmeThenMain)) = []
      /\ openTabs (afterRender false readmeThenMain (mount readmeThenMain)
                     (closeTab "main.tsx" (mount readmeThenMain)))
         = ["main.tsx"]).
Proof.
  repeat split; try reflexivity.
  - simpl. right. left. reflexivity.
  - simpl. right. right. left. reflexivity.
  - simpl. right. left. reflexivity.
  - simpl. right. left. reflexivity.
Qed.

(** What the effect does open. On mount, and again after every render
    for which the [files] prop or the number of open tabs has changed,
    when no tab is open the first entry of the top-level file list, in
    list order, that is named [App.tsx], [main.tsx] or [index.tsx] becomes
    the only open tab and the active file. *)
Theorem auto_open_first_top_level_match (files pre post : list FileNode.t)
  (f : FileNode.t) :
  files = pre ++ f :: post ->
  Forall (fun g => ~ MainName g) pre ->
  MainName f ->
  (openTabs (mount files) = [FileNode.path f]
   /\ selectedFile (mount files) = Some (FileNode.path f))
  /\ (forall (filesChanged : bool) (previous current : State),
        filesChanged = true
        \/ List.length (openTabs previous) <> List.length (openTabs current) ->
        openTabs current = [] ->
        openTabs (afterRender filesChanged files previous current)
          = [FileNode.path f]
        /\ selectedFile (afterRender filesChanged files previous current)
           = Some (FileNode.path f)).
Proof.
  intros E Hpre Hf. split.
  - now apply (autoOpen_opens files pre post f initial).
  - intros ch previous current Hdeps Ht. unfold afterRender.
    assert (C : ch || negb (List.length (openTabs previous)
                            =? List.length (openTabs current))%nat = true).
    { destruct Hdeps as [-> | Hn]; [reflexivity|].
      apply Nat.eqb_neq in Hn. rewrite Hn. apply orb_true_r. }
    rewrite C. now apply (autoOpen_opens files pre post f current).
Qed.

Lemma auto_open_witness :
  openTabs (mount readmeThenMain) = ["main.tsx"]
  /\ selectedFile (mount readmeThenMain) = Some "main.tsx".
Proof.
  refine (proj1 (auto_open_first_top_level_match readmeThenMain
                   [file "README.md" "README.md"]
                   [file "App.tsx" "App.tsx"]
                   (file "main.tsx" "main.tsx") eq_refl _ _)).
  - constructor; [|constructor].
    unfold MainName. simpl. intros [H|[H|H]]; discriminate H.
  - unfold MainName. simpl. right. left. reflexivity.
Defined.

(** *** Closing a tab *)

Lemma filter_neqb_remove (p : string) (l : list string) :
  filter (neqb p) l = remove string_dec p l.
Proof.
  induction l as [|x l IH]; simpl; [reflexivity|].
  unfold neqb at 1. destruct (string_dec p x) as [->|N].
  - now rewrite String.eqb_refl.
  - apply String.eqb_neq in N. rewrite N. simpl. now rewrite IH.
Qed.

Lemma lastOpt_snoc (l : list string) (x : string) : lastOpt (l ++ [x]) = Some x.
Proof.
  destruct l as [|y l]; [reflexivity|].
  simpl. now rewrite last_last.
Qed.

(** C7, as the claim states it, fails: with tabs [a.ts; b.ts; c.ts] and
    [b.ts] active, closing [b.ts] activates [c.ts], not the tab before
    [b.ts], which is [a.ts]. *)
Lemma closing_middle_tab_activates_last :
  precedingTab "b.ts" (openTabs threeTabs) = Some "a.ts"
  /\ openTabs (closeTab "b.ts" threeTabs) = ["a.ts"; "c.ts"]
  /\ selectedFile (closeTab "b.ts" threeTabs) = Some "c.ts"
  /\ selectedFile (closeTab "b.ts" threeTabs)
     <> precedingTab "b.ts" (openTabs threeTabs).
Proof. repeat split; try reflexivity. discriminate. Qed.

(** C7 (amended). [closeTab path] removes the path from [openTabs], the
    other tabs keeping their order. If it was the active tab, the last of
    the remaining tabs, that is the most recently opened one, becomes
    active, or none if no tab remains; otherwise the active tab stays. *)
Theorem closeTab_activates_last_remaining (p : string) (st : State) :
  In p (openTabs st) ->
  openTabs (closeTab p st) = remove string_dec p (openTabs st)
  /\ ~ In p (openTabs (closeTab p st))
  /\ (selectedFile st = Some p ->
        (openTabs (closeTab p st) = [] -> selectedFile (closeTab p st) = None)
        /\ (forall earlier x, openTabs (closeTab p st) = earlier ++ [x] ->
              selectedFile (closeTab p st) = Some x))
  /\ (selectedFile st <> Some p ->
        selectedFile (closeTab p st) = selectedFile st).
Proof.
  intros _.
  assert (T : openTabs (closeTab p st) = remove string_dec p (openTabs st)).
  { rewrite <- filter_neqb_remove. unfold closeTab.
    destruct (selectedFile st) as [sel|]; [|reflexivity].
    destruct (String.eqb sel p); reflexivity. }
  split; [exact T|]. split; [rewrite T; apply remove_In|]. split.
  - intros Hsel.
    assert (S : selectedFile (closeTab p st)
                = if (0 <? List.length (filter (neqb p) (openTabs st)))%nat
                  then lastOpt (filter (neqb p) (openTabs st)) else None).
    { unfold closeTab. rewrite Hsel, String.eqb_refl. reflexivity. }
    rewrite filter_neqb_remove, <- T in S. split.
    + intros E. rewrite S, E. reflexivity.
    + intros earlier x E. rewrite S, E, lastOpt_snoc, length_app. simpl.
      destruct (0 <? List.length earlier + 1)%nat eqn:C; [reflexivity|].
      apply Nat.ltb_ge in C. lia.
  - intros Hsel. unfold closeTab.
    destruct (selectedFile st) as [sel|] eqn:Es; [|reflexivity].
    destruct (String.eqb sel p) eqn:E; [|reflexivity].
    apply String.eqb_eq in E. subst sel. contradiction.
Qed.

Lemma closeTab_witness :
  In "b.ts" (openTabs threeTabs)
  /\ openTabs (closeTab "b.ts" threeTabs) = ["a.ts"; "c.ts"]
  /\ selectedFile (closeTab "b.ts" threeTabs) = Some "c.ts".
Proof.
  split; [simpl; auto|].
  assert (I : In "b.ts" (openTabs threeTabs)) by (simpl; auto).
  destruct (closeTab_activates_last_remaining "b.ts" threeTabs I)
    as (H1 & _ & H3 & _).
  split; [reflexivity|].
  exact (proj2 (H3 eq_refl) ["a.ts"] "c.ts" eq_refl).
Defined.

End EditorFacts.

(* ===================================================================== *)
(** * The schema inspector                                                *)
(* ===================================================================== *)

Module DatabaseFacts.
Import Js Database Examples JsFacts.

(** *** Letter case *)








(** *** Quiet computations *)
Section Engine.
Variable DB : Type.
Variable sql : string -> DB -> Settled (list Object) * DB.

Lemma Quiet_ret {A} (a : A) : Quiet (ret (DB:=DB) a).
Proof. intros s. split; [reflexivity|]. simpl. intros stmt e []. Qed.

Lemma Quiet_runSql (stmt : string) : Quiet (runSql sql stmt).
Proof.
  intros s. unfold runSql, stateOf, resultOf, eventsOf.
  destruct (sql stmt (snd s)) as [[rows|e] db']; simpl; split; try reflexivity.
  - intros stmt' e' [H|[]]. discriminate H.
  - intros stmt' e' [H|[]]. now injection H.
Qed.

Lemma Quiet_bind {A B} (m : M DB A) (f : A -> M DB B) :
  Quiet m -> (forall a, Quiet (f a)) -> Quiet (bind m f).
Proof.
  intros Hm Hf s. unfold bind. specialize (Hm s).
  unfold stateOf, resultOf, eventsOf in *.
  destruct (m s) as [[[a|e] s1] ev1]; simpl in *.
  - specialize (Hf a s1). destruct (f a s1) as [[r s2] ev2].
    unfold stateOf, resultOf, eventsOf in *; simpl in *.
    destruct Hm as [Hst1 Hev1], Hf as [Hst2 Hev2].
    split; [congruence|].
    destruct r as [b|e].
    + intros stmt e' H. apply in_app_or in H as [H|H];
        [exact (Hev1 _ _ H) | exact (Hev2 _ _ H)].
    + intros stmt e' H. apply in_app_or in H as [H|H];
        [destruct (Hev1 _ _ H) | exact (Hev2 _ _ H)].
  - exact Hm.
Qed.

Lemma Quiet_forEach {A B} (f : A -> M DB B) (l : list A) :
  (forall x, Quiet (f x)) -> Quiet (forEach f l).
Proof.
  intros Hf. induction l as [|x l IH]; simpl.
  - apply Quiet_ret.
  - apply Quiet_bind; [apply Hf|]. intros y.
    apply Quiet_bind; [exact IH|]. intros ys. apply Quiet_ret.
Qed.

Lemma Quiet_describeTable (row : Object) : Quiet (describeTable sql row).
Proof.
  unfold describeTable. apply Quiet_bind; [apply Quiet_runSql|]. intros sch.
  apply Quiet_bind; [apply Quiet_runSql|]. intros cnt. apply Quiet_ret.
Qed.

(** The queries of [loadTables], lines 38-67. *)
Lemma Quiet_listing :
  Quiet (bind (runSql sql listTablesSql) (forEach (describeTable sql))).
Proof.
  apply Quiet_bind; [apply Quiet_runSql|]. intros rows.
  apply Quiet_forEach, Quiet_describeTable.
Qed.

Lemma loadTables_unfold (st : State) (db : DB) :
  loadTables sql (st, db)
  = match bind (runSql sql listTablesSql) (forEach (describeTable sql))
            (setError None (setIsLoading true st), db) with
    | (Fulfilled tableList, (st1, db1), ev) =>
        (Fulfilled tt, (setIsLoading false (setTables tableList st1), db1),
         EvLoadTables :: ev)
    | (Rejected e, (st1, db1), ev) =>
        (Fulfilled tt,
         (setIsLoading false
            (setError (Some (errorMessage e "Failed to load tables")) st1),
          db1),
         EvLoadTables :: ev)
    end.
Proof.
  unfold loadTables, tryCatchFinally, bind, modify, emit. simpl.
  destruct (runSql sql listTablesSql (setError None (setIsLoading true st), db))
    as [[[rows|e] [st1 db1]] ev]; simpl.
  - destruct (forEach (describeTable sql) rows (st1, db1))
      as [[[tl|e] [st2 db2]] ev2]; simpl; now rewrite ?app_nil_r.
  - now rewrite app_nil_r.
Qed.

(** [loadTables] never throws; a failure of the engine ends up in
    [error] and leaves [tables] as they were. *)
Lemma loadTables_failure (st : State) (db : DB) :
  resultOf (loadTables sql (st, db)) = Fulfilled tt
  /\ forall stmt e,
       In (EvSql stmt (Some e)) (eventsOf (loadTables sql (st, db))) ->
       error (stateOf (loadTables sql (st, db)))
         = Some (errorMessage e "Failed to load tables")
       /\ tables (stateOf (loadTables sql (st, db))) = tables st.
Proof.
  rewrite loadTables_unfold.
  pose proof (Quiet_listing (setError None (setIsLoading true st), db))
    as [Hs He].
  unfold stateOf, resultOf, eventsOf in *.
  destruct (bind (runSql sql listTablesSql) (forEach (describeTable sql))
              (setError None (setIsLoading true st), db))
    as [[[tl|e] [st1 db1]] ev]; simpl in *; (split; [reflexivity|]).
  - intros stmt e [H|H]; [discriminate H | destruct (He _ _ H)].
  - intros stmt e' [H|H]; [discriminate H|].
    rewrite (He _ _ H), Hs. split; reflexivity.
Qed.


Lemma executeQuery_unfold (q : string) (st : State) (db : DB) :
  truthy (trim q) = true ->
  executeQuery sql q (st, db)
  = match sql q db with
    | (Rejected e, db1) =>
        (Fulfilled tt,
         (setIsLoading false
            (setError (Some (errorMessage e "Query execution failed"))
               (setError None (setIsLoading true st))), db1),
         [EvSql q (Some e)])
    | (Fulfilled rows, db1) =>
        let st1 := setQueryResult (Some rows)
                     (setError None (setIsLoading true st)) in
        if mentionsSchemaChange q
        then (Fulfilled tt,
              (setIsLoading false (stateOf (loadTables sql (st1, db1))),
               snd (snd (fst (loadTables sql (st1, db1))))),
              EvSql q None :: eventsOf (loadTables sql (st1, db1)))
        else (Fulfilled tt, (setIsLoading false st1, db1), [EvSql q None])
    end.
Proof.
  intros Hq. unfold executeQuery. rewrite Hq. cbn [negb].
  unfold tryCatchFinally, bind, modify, runSql. simpl.
  destruct (sql q db) as [[rows|e] db1]; simpl; [|reflexivity].
  destruct (mentionsSchemaChange q).
  - pose proof (loadTables_failure
                  (setQueryResult (Some rows)
                     (setError None (setIsLoading true st))) db1) as [Hr _].
    unfold resultOf, stateOf, eventsOf in *.
    destruct (loadTables sql _) as [[r [st2 db2]] ev]; simpl in *.
    subst r. now rewrite app_nil_r.
  - reflexivity.
Qed.

End Engine.



(** C9. Whenever the engine fails during a table-list refresh or an
    ad-hoc statement, the operation still completes normally, the
    engine's message (or a fixed text when the rejection carries none)
    is left in [error], and the table list shown before is unchanged. *)
Theorem engine_failure_surfaces_as_error (DB : Type)
  (sql : string -> DB -> Settled (list Object) * DB) (op : Operation)
  (st : State) (db : DB) (stmt : string) (e : Thrown) :
  In (EvSql stmt (Some e)) (eventsOf (perform sql op (st, db))) ->
  resultOf (perform sql op (st, db)) = Fulfilled tt
  /\ (error (stateOf (perform sql op (st, db)))
        = Some (errorMessage e "Failed to load tables")
      \/ error (stateOf (perform sql op (st, db)))
         = Some (errorMessage e "Query execution failed"))
  /\ tables (stateOf (perform sql op (st, db))) = tables st.
Proof.
  destruct op as [|q]; cbn [perform].
  - intros H. destruct (loadTables_failure DB sql st db) as [Hr Hf].
    destruct (Hf stmt e H) as [He Ht]. auto.
  - destruct (truthy (trim q)) eqn:Hq.
    + rewrite (executeQuery_unfold DB sql q st db Hq).
      destruct (sql q db) as [[rows|e0] db1].
      * cbv zeta. destruct (mentionsSchemaChange q).
        -- intros [H|H]; [discriminate H|].
           destruct (loadTables_failure DB sql
                       (setQueryResult (Some rows)
                          (setError None (setIsLoading true st))) db1)
             as [_ Hf].
           destruct (Hf stmt e H) as [He Ht].
           unfold resultOf, stateOf in *. cbn [fst snd] in *.
           cbn [setIsLoading error tables]. rewrite He, Ht. auto.
        -- intros [H|[]]. discriminate H.
      * intros [H|[]]. injection H as _ <-.
        unfold resultOf, stateOf. simpl. auto.
    + unfold executeQuery. rewrite Hq. intros [].
Qed.

Lemma engine_failure_witness :
  In (EvSql "SELECT * FROM boom" (Some (ErrorObject "no such table: boom")))
    (eventsOf (perform toySql (Execute "SELECT * FROM boom")
                 (shown, ["todos"])))
  /\ error (stateOf (perform toySql (Execute "SELECT * FROM boom")
                       (shown, ["todos"])))
     = Some "no such table: boom"
  /\ tables (stateOf (perform toySql (Execute "SELECT * FROM boom")
                        (shown, ["todos"])))
     = tables shown.
Proof.
  assert (I : In (EvSql "SELECT * FROM boom"
                    (Some (ErrorObject "no such table: boom")))
                (eventsOf (perform toySql (Execute "SELECT * FROM boom")
                             (shown, ["todos"]))))
    by (left; reflexivity).
  split; [exact I|].
  destruct (engine_failure_surfaces_as_error (list string) toySql
              (Execute "SELECT * FROM boom") shown ["todos"] _ _ I)
    as (_ & _ & Ht).
  split; [reflexivity | exact Ht].
Defined.

(** A refresh that fails on the second table keeps the list shown. *)
Example refresh_failure_keeps_tables :
  stateOf (perform toySql Refresh (shown, ["todos"; "boom"]))
  = setError (Some "no such table: boom") shown.
Proof. reflexivity. Qed.

End DatabaseFacts.
(* ===================================================================== *)
(** * More about the extraction of code blocks                            *)
(* ===================================================================== *)

Module ExtractionMore.
Import Js Chat Fenced Tiling Examples JsFacts ExtractionFacts.
#[local] Arguments Ascii.eqb : simpl never.

Lemma In_filterMap {A B} (f : A -> option B) (l : list A) (y : B) :
  In y (filterMap f l) -> exists x, In x l /\ f x = Some y.
Proof.
  induction l as [|x l IH]; simpl; [intros []|].
  destruct (f x) as [z|] eqn:E.
  - intros [<-|H]; [exists x; auto|].
    destruct (IH H) as (x' & Hx & Hf). exists x'. auto.
  - intros H. destruct (IH H) as (x' & Hx & Hf). exists x'. auto.
Qed.

(** Whatever the response, an artifact never has a blank body and its
    name is [generated.] followed by a non-empty extension. *)
Theorem artifacts_are_named_and_not_blank (text code name : string) :
  In (code, name) (extractCode text) ->
  truthy (trim code) = true
  /\ exists ext, ext <> "" /\ name = ("generated." ++ ext)%string.
Proof.
  unfold extractCode. destruct (includes text fence); [|intros []].
  intros H. apply In_filterMap in H as (block & _ & H).
  unfold blockArtifact in H.
  destruct (truthy (trim (join nl (slice 1 (-1) (split LF block))))) eqn:E;
    [|discriminate].
  injection H as <- <-. split; [exact E|].
  eexists. split; [|reflexivity].
  unfold orElse.
  destruct (trim (replaceFirst fence "" (nth 0 (split LF block) ""))) eqn:T;
    simpl; discriminate.
Qed.

Lemma artifacts_witness :
  truthy (trim "b") = true
  /\ exists ext, ext <> "" /\ "generated.js" = ("generated." ++ ext)%string.
Proof.
  apply (artifacts_are_named_and_not_blank twoLanguages "b" "generated.js").
  right. left. reflexivity.
Defined.

(** *** Lines of a block *)

(** The callback keeps the lines strictly between the first and the last
    one: whatever shares the last line with the closing fence is lost, and
    what follows the opening fence on the first line is the language. *)
Theorem text_on_the_closing_line_is_lost (first body lastLine : string) :
  noLineFeed first = true ->
  noLineFeed lastLine = true ->
  blockArtifact (first ++ nl ++ body ++ nl ++ lastLine)
  = if truthy (trim body)
    then Some (body,
               ("generated."
                ++ orElse (trim (replaceFirst fence "" first)) "txt")%string)
    else None.
Proof.
  intros Hf Hl. unfold blockArtifact.
  assert (Hsplit : split LF (first ++ nl ++ body ++ nl ++ lastLine)
                   = first :: split LF body ++ [lastLine]).
  { rewrite !split_append_nl.
    now rewrite (split_noLineFeed first Hf), (split_noLineFeed lastLine Hl). }
  rewrite Hsplit.
  change (nth 0 (first :: split LF body ++ [lastLine]) "") with first.
  now rewrite slice_inner, join_split.
Qed.

Lemma text_on_the_closing_line_witness :
  blockArtifact ("```js" ++ nl ++ "let a = 1" ++ nl ++ "let b = 2```")
  = Some ("let a = 1", "generated.js").
Proof.
  exact (text_on_the_closing_line_is_lost "```js" "let a = 1" "let b = 2```"
           eq_refl eq_refl).
Defined.

(** A block with fewer than two line breaks has no line between its
    first and its last one, and yields nothing: code written on the line
    of the fences is dropped. *)
Theorem block_needs_two_line_breaks (first lastLine : string) :
  noLineFeed first = true ->
  noLineFeed lastLine = true ->
  blockArtifact first = None
  /\ blockArtifact (first ++ nl ++ lastLine) = None.
Proof.
  intros Hf Hl. unfold blockArtifact. split.
  - now rewrite (split_noLineFeed first Hf).
  - rewrite split_append_nl.
    now rewrite (split_noLineFeed first Hf), (split_noLineFeed lastLine Hl).
Qed.

Lemma block_needs_two_line_breaks_witness :
  blockArtifact "```js let a = 1```" = None
  /\ blockArtifact ("```js" ++ nl ++ "let a = 1```") = None.
Proof.
  exact (block_needs_two_line_breaks "```js let a = 1```" "let a = 1```"
           eq_refl eq_refl).
Defined.

(** *** A fence that is never closed *)

Lemma codeBlocks_unclosed (sep rest : string) :
  noBacktick sep = true ->
  includes rest fence = false ->
  codeBlocks (sep ++ fence ++ rest) = [].
Proof.
  intros Hsep Hrest. unfold codeBlocks.
  set (s := (sep ++ fence ++ rest)%string).
  assert (Hi : indexOf fence s = Some (String.length sep))
    by (apply indexOf_fence_opening; exact Hsep).
  assert (Hd : drop (String.length sep + 3) s = rest).
  { unfold s. rewrite <- (append_assoc sep fence).
    replace (String.length sep + 3) with (String.length (sep ++ fence))
      by (rewrite length_append; reflexivity).
    apply drop_append. }
  destruct (String.length s) as [|n]; [reflexivity|].
  simpl matchFences. now rewrite Hi, Hd, (includes_false _ _ Hrest).
Qed.

Lemma codeBlocks_document_then (rs : list Region) (trailing : string) :
  Forall wellFormed rs ->
  codeBlocks trailing = [] ->
  codeBlocks (document rs trailing) = map regionText rs.
Proof.
  intros Hrs Htr. induction Hrs as [|r rs (Hb & Hl & Ht & Hbody) _ IH].
  - exact Htr.
  - assert (Hlf : LF <> backtick) by discriminate.
    assert (Hinner : indexOf fence (tag r ++ nl ++ body r) = None).
    { apply indexOf_fence_sep; auto using includes_false. }
    assert (E : document (r :: rs) trailing
                = (before r ++ fence ++ ((tag r ++ nl ++ body r) ++ nl)
                     ++ fence ++ document rs trailing)%string).
    { change (document (r :: rs) trailing)
        with (before r ++ regionText r ++ document rs trailing)%string.
      unfold regionText. now rewrite !append_assoc. }
    rewrite E, codeBlocks_region.
    + rewrite IH. simpl map. unfold regionText. now rewrite !append_assoc.
    + now apply indexOf_fence_opening.
    + rewrite (append_assoc _ nl).
      change (nl ++ fence ++ document rs trailing)%string
        with (String LF (fence ++ document rs trailing)).
      rewrite (indexOf_fence_closing _ (document rs trailing) LF Hlf Hinner).
      rewrite (length_append _ nl). reflexivity.
Qed.

(** A fence left open at the end of the response is ignored: the regions
    before it are extracted as usual and nothing comes out of the rest. *)
Theorem unterminated_fence_is_ignored (rs : list Region)
  (sep rest : string) :
  Forall wellFormed rs ->
  noBacktick sep = true ->
  includes rest fence = false ->
  extractCode (document rs (sep ++ fence ++ rest)) = filterMap artifactOf rs.
Proof.
  intros Hrs Hsep Hrest. unfold extractCode.
  rewrite (codeBlocks_document_then rs _ Hrs
             (codeBlocks_unclosed sep rest Hsep Hrest)), filterMap_map.
  assert (E : filterMap (fun r => blockArtifact (regionText r)) rs
              = filterMap artifactOf rs).
  { apply filterMap_ext_Forall with (P := wellFormed); [|exact Hrs].
    intros r (_ & Hl & _). now apply blockArtifact_region. }
  rewrite E.
  destruct (includes (document rs (sep ++ fence ++ rest)) fence) eqn:Hinc;
    [reflexivity|].
  exfalso. enough (includes (document rs (sep ++ fence ++ rest)) fence = true)
    by congruence.
  apply includes_spec. clear Hinc E Hrs.
  induction rs as [|r rs (pre & post & IH)].
  - exists sep, rest. reflexivity.
  - exists (before r ++ regionText r ++ pre)%string, post.
    change (document (r :: rs) (sep ++ fence ++ rest))
      with (before r ++ regionText r
              ++ document rs (sep ++ fence ++ rest))%string.
    rewrite IH. now rewrite !append_assoc.
Qed.

Lemma unterminated_fence_witness :
  extractCode (pythonExample ++ nl ++ "```js" ++ nl ++ "let a = 1")
  = [("print(1)", "generated.python")].
Proof.
  refine (unterminated_fence_is_ignored [mkRegion "" "python" "print(1)"]
            nl ("js" ++ nl ++ "let a = 1") _ eq_refl eq_refl).
  repeat constructor.
Defined.

(** *** The matches tile the text *)

Lemma startsWith_take (p s : string) (n : nat) :
  startsWith p (take n s) = true -> startsWith p s = true.
Proof.
  revert s n; induction p as [|a p IH]; intros s n H; [now destruct s|].
  destruct n as [|n], s as [|c s]; simpl in H; try discriminate H.
  apply andb_true_iff in H as [Ha Hp]. simpl. rewrite Ha. simpl.
  exact (IH s n Hp).
Qed.

(** [indexOf] returns the first occurrence: none lies before it. *)
Lemma indexOf_fence_first (s : string) (k : nat) :
  indexOf fence s = Some k -> indexOf fence (take k s) = None.
Proof.
  revert k; induction s as [|c s IH]; intros k H.
  - simpl in H. discriminate H.
  - destruct (startsWith fence (String c s)) eqn:E.
    + rewrite (indexOf_head _ _ E) in H. injection H as <-. reflexivity.
    + rewrite (indexOf_tail _ _ _ E) in H.
      destruct (indexOf fence s) as [j|] eqn:Ej; [|discriminate H].
      injection H as <-. change (take (S j) (String c s))
        with (String c (take j s)).
      rewrite indexOf_tail.
      * now rewrite (IH j eq_refl).
      * destruct (startsWith fence (String c (take j s))) eqn:E'; [|reflexivity].
        change (String c (take j s)) with (take (S j) (String c s)) in E'.
        apply startsWith_take in E'. congruence.
Qed.

Lemma matchFences_tile (n : nat) (s : string) :
  exists gaps tail,
    List.length gaps = List.length (matchFences n s)
    /\ s = (weave (combine gaps (matchFences n s)) ++ tail)%string
    /\ Forall (fun b => exists inner,
                  b = (fence ++ inner ++ fence)%string
                  /\ includes inner fence = false)
         (matchFences n s).
Proof.
  revert s; induction n as [|n IH]; intros s.
  - exists [], s. simpl. auto.
  - simpl matchFences.
    destruct (indexOf fence s) as [i|] eqn:Ei; [|exists [], s; simpl; auto].
    destruct (indexOf_Some _ _ _ Ei) as (pre & post & -> & Hi).
    assert (D : drop (i + 3) (pre ++ fence ++ post) = post).
    { rewrite <- (append_assoc pre fence), <- Hi.
      replace (String.length pre + 3) with (String.length (pre ++ fence))
        by (rewrite length_append; reflexivity).
      apply drop_append. }
    rewrite D.
    destruct (indexOf fence post) as [k|] eqn:Ek;
      [|exists [], (pre ++ fence ++ post)%string; simpl; auto].
    pose proof (indexOf_fence_first post k Ek) as Hfirst.
    destruct (indexOf_Some _ _ _ Ek) as (pre2 & post2 & -> & Hk).
    assert (D2 : drop (k + 3) (pre2 ++ fence ++ post2) = post2).
    { rewrite <- (append_assoc pre2 fence), <- Hk.
      replace (String.length pre2 + 3) with (String.length (pre2 ++ fence))
        by (rewrite length_append; reflexivity).
      apply drop_append. }
    rewrite D2. rewrite <- Hk, take_append in *.
    destruct (IH post2) as (gaps & tail & Hlen & Htile & Hall).
    exists (pre :: gaps), tail. split; [simpl; now rewrite Hlen|]. split.
    + transitivity
        ((pre ++ (fence ++ pre2 ++ fence)
            ++ weave (combine gaps (matchFences n post2))) ++ tail)%string;
        [|reflexivity].
      rewrite !append_assoc. now rewrite <- Htile.
    + constructor; [|exact Hall]. exists pre2. split; [reflexivity|].
      unfold includes. now rewrite Hfirst.
Qed.

(** The blocks the regular expression finds lie in the text one after
    the other without overlap, each between two fences with no fence
    inside; the text is the gaps and blocks laid end to end, plus a rest. *)
Theorem matches_tile_the_text (text : string) :
  exists gaps tail,
    List.length gaps = List.length (codeBlocks text)
    /\ text = (weave (combine gaps (codeBlocks text)) ++ tail)%string
    /\ Forall (fun b => exists inner,
                  b = (fence ++ inner ++ fence)%string
                  /\ includes inner fence = false)
         (codeBlocks text).
Proof. apply matchFences_tile. Qed.

End ExtractionMore.

(* ===================================================================== *)
(** * More about the conversation engine                                  *)
(* ===================================================================== *)

Module ConversationMore.
Import Js Chat Examples Examples2 JsFacts ChatFacts SerializationFacts.

(** A rejected call changes nothing: with a blank prompt, without a
    signed-in user, or while the render shows a request outstanding, the
    state is returned as it was and no collaborator is called. *)
Theorem rejected_send_changes_nothing (b : Backend) (p : Props) (clk : Clock)
  (prompt : string) (template : option string) (st : State) :
  truthy (trim prompt) = false \/ user st = None \/ isStreaming st = true ->
  send b p clk prompt template st = (st, []).
Proof.
  intros H. unfold send. rewrite rejected_is_noop; [reflexivity|].
  unfold accepts. cbn [render c_user c_isStreaming].
  destruct (user st); [|reflexivity].
  destruct H as [H|[H|H]]; [now rewrite H | discriminate H |].
  rewrite H. apply andb_false_r.
Qed.

Lemma rejected_send_witness :
  send healthy props0 (clockAt 100) ("  " ++ nl) None (idle tenMessages)
    = (idle tenMessages, [])
  /\ send healthy props0 (clockAt 100) "hello" None signedOut
     = (signedOut, [])
  /\ send healthy props0 (clockAt 100) "hello" None streaming
     = (streaming, []).
Proof.
  split; [|split].
  - apply rejected_send_changes_nothing. left. reflexivity.
  - apply rejected_send_changes_nothing. right. left. reflexivity.
  - apply rejected_send_changes_nothing. right. right. reflexivity.
Defined.

(** *** Every outcome of an accepted call *)

Section Outcomes.

Variables (b : Backend) (p : Props) (clk : Clock).
Variables (prompt : string) (template : option string).
Variables (st : State) (u : User.t).
Hypothesis Hu : user st = Some u.
Hypothesis Hp : truthy (trim prompt) = true.
Hypothesis Hs : isStreaming st = false.

Let c := render p st.
Let um := userMessageOf c u clk prompt.
Let am := assistantMessageOf c u clk.
Let userRow := rowOf um (ChatMessage.content um).
Let body := requestBody c um template.
Let failed := EvConsoleError "Failed to send message:".

(** The call ends in one of four ways. *)
Lemma send_outcomes :
  (exists e, create b userRow = Rejected e
     /\ send b p clk prompt template st
        = (mkState (messages st) "" false (user st),
           [EvCreate userRow; failed]))
  \/ (create b userRow = Fulfilled tt
      /\ inferenceFails (fetch b body) = true
      /\ send b p clk prompt template st
         = (mkState (messages st ++ [um]) "" false (user st),
            [EvCreate userRow; EvFetch body; failed]))
  \/ (exists resp data e,
        create b userRow = Fulfilled tt
        /\ fetch b body = Fulfilled resp /\ json resp = Fulfilled data
        /\ optTruthy (d_error data) = false
        /\ create b (rowOf am (d_response data)) = Rejected e
        /\ send b p clk prompt template st
           = (mkState
                (updateById (ChatMessage.id am)
                   (ChatMessage.withContent (d_response data))
                   (messages st ++ [um]))
                "" false (user st),
              [EvCreate userRow; EvFetch body;
               EvCreate (rowOf am (d_response data)); failed]))
  \/ (exists resp data,
        create b userRow = Fulfilled tt
        /\ fetch b body = Fulfilled resp /\ json resp = Fulfilled data
        /\ optTruthy (d_error data) = false
        /\ create b (rowOf am (d_response data)) = Fulfilled tt
        /\ send b p clk prompt template st
           = (mkState
                (updateById (ChatMessage.id am)
                   (ChatMessage.withIsStreaming false)
                   (updateById (ChatMessage.id am)
                      (ChatMessage.withContent (d_response data))
                      (messages st ++ [um; am])))
                "" false (user st),
              [EvCreate userRow; EvFetch body;
               EvCreate (rowOf am (d_response data))]
                ++ callbackEvents c data)).
Proof.
  destruct (create b userRow) as [[]|e] eqn:Hc.
  - right. destruct (inferenceFails (fetch b body)) eqn:Hf.
    + left. split; [reflexivity|]. split; [reflexivity|].
      now apply send_inference_failed.
    + right. unfold inferenceFails in Hf.
      destruct (fetch b body) as [resp|] eqn:Hfe; [|discriminate].
      destruct (json resp) as [data|] eqn:Hj; [|discriminate].
      destruct (create b (rowOf am (d_response data))) as [[]|e] eqn:Hc'.
      * right. exists resp, data. repeat (split; [assumption || reflexivity|]).
        now apply (send_success b p clk prompt template st u Hu Hp Hs
                     resp data).
      * left. exists resp, data, e.
        repeat (split; [assumption || reflexivity|]).
        now apply (send_assistant_create_rejected b p clk prompt template
                     st u Hu Hp Hs resp data e).
  - left. exists e. split; [reflexivity|].
    now apply (send_user_create_rejected b p clk prompt template st u
                 Hu Hp Hs e).
Qed.

End Outcomes.

(** However the collaborators behave, an accepted call ends with the
    guard cleared and the input box empty, and leaves the user as is. *)
Theorem guard_is_always_released (b : Backend) (p : Props) (clk : Clock)
  (prompt : string) (template : option string) (st : State) (u : User.t) :
  user st = Some u ->
  truthy (trim prompt) = true ->
  isStreaming st = false ->
  isStreaming (fst (send b p clk prompt template st)) = false
  /\ input (fst (send b p clk prompt template st)) = ""
  /\ user (fst (send b p clk prompt template st)) = user st.
Proof.
  intros Hu Hp Hs.
  destruct (send_outcomes b p clk prompt template st u Hu Hp Hs)
    as [(e & _ & E)|[(_ & _ & E)|[(r & d & e & _ & _ & _ & _ & _ & E)
       |(r & d & _ & _ & _ & _ & _ & E)]]];
    rewrite E; repeat split.
Qed.

Lemma guard_is_always_released_witness :
  isStreaming
    (fst (send storeDown props0 (clockAt 100) "hello" None (idle tenMessages)))
    = false
  /\ input
       (fst (send storeDown props0 (clockAt 100) "hello" None
               (idle tenMessages))) = "".
Proof.
  destruct (guard_is_always_released storeDown props0 (clockAt 100) "hello"
              None (idle tenMessages) alice eq_refl eq_refl eq_refl)
    as (H1 & H2 & _).
  split; [exact H1 | exact H2].
Defined.

Lemma callbackEvents_are_calls (c : Closure) (data : InferenceData) :
  Forall (fun e => isCodeGenerated e = true) (callbackEvents c data).
Proof.
  unfold callbackEvents. apply Forall_app. split.
  - destruct (d_html data) as [h|]; [|constructor].
    destruct (truthy h && onCodeGenerated (c_props c)); repeat constructor.
  - destruct (onCodeGenerated (c_props c)); [|constructor].
    induction (extractCode (d_response data)); simpl; constructor; auto.
Qed.

Lemma callbackEvents_without_callback (c : Closure) (data : InferenceData) :
  onCodeGenerated (c_props c) = false -> callbackEvents c data = [].
Proof.
  intros H. unfold callbackEvents. rewrite H.
  destruct (d_html data) as [h|]; [|reflexivity].
  now rewrite andb_false_r.
Qed.



(** The calls a handler makes do not depend on the state it runs
    against, only on what it closed over and on the answers it gets. *)
Lemma run_events_any_state (b : Backend) (k : Proc) (st st' : State) :
  snd (run b k st) = snd (run b k st').
Proof.
  revert st st'.
  induction k as [|f k IH|l k IH|cd fn k IH|row k IH|body k IH|r k IH];
    intros st st'; cbn [run].
  - reflexivity.
  - apply IH.
  - specialize (IH st st').
    destruct (run b k st), (run b k st'). cbn [snd] in *. now rewrite IH.
  - specialize (IH st st').
    destruct (run b k st), (run b k st'). cbn [snd] in *. now rewrite IH.
  - specialize (IH (create b row) st st').
    destruct (run b (k (create b row)) st), (run b (k (create b row)) st').
    cbn [snd] in *. now rewrite IH.
  - specialize (IH (fetch b body) st st').
    destruct (run b (k (fetch b body)) st), (run b (k (fetch b body)) st').
    cbn [snd] in *. now rewrite IH.
  - apply IH.
Qed.

(** The state a closure was rendered from. *)
Lemma render_of_closure (c : Closure) :
  render (c_props c)
    (mkState (c_messages c) (c_input c) (c_isStreaming c) (c_user c))
  = c.
Proof. now destruct c. Qed.

(** The request is built from the log of the render that created the
    handler, whatever the log holds when the call is made. When that
    render saw at most five messages the request carries all of them, in
    order, each as its role and its content, then the new user message;
    no request is made when the write of the user message was rejected. *)
Theorem short_history_is_sent_whole (b : Backend) (c : Closure) (clk : Clock)
  (prompt : string) (template : option string) (st : State) (u : User.t) :
  c_user c = Some u ->
  truthy (trim prompt) = true ->
  c_isStreaming c = false ->
  List.length (c_messages c) <= 5 ->
  filter isFetch
    (snd (run b (handleSendWithTemplate c clk prompt template) st))
  = match create b (rowOf (userMessageOf c u clk prompt) (trim prompt)) with
    | Fulfilled _ =>
        [EvFetch
           (mkBody
              (map (fun m => mkWire (ChatMessage.role m)
                               (ChatMessage.content m)) (c_messages c)
               ++ [mkWire RoleUser (trim prompt)]) template)]
    | Rejected _ => []
    end.
Proof.
  intros Hu Hp Hs Hlen.
  rewrite (run_events_any_state b _ st
             (mkState (c_messages c) (c_input c) (c_isStreaming c)
                (c_user c))).
  pose proof (send_fetches b (c_props c) clk prompt template
                (mkState (c_messages c) (c_input c) (c_isStreaming c)
                   (c_user c)) u Hu Hp Hs) as H.
  unfold send in H. rewrite render_of_closure in H. rewrite H.
  cbn [ChatMessage.content userMessageOf].
  unfold requestBody. rewrite (sliceFrom_short _ Hlen), map_app.
  reflexivity.
Qed.

(** A handler of a render that saw an empty log, called when the log
    holds ten messages, and one called on its own render. *)
Lemma short_history_witness :
  filter isFetch
    (snd (run healthy
            (handleSendWithTemplate emptyRender (clockAt 1500)
               "build a todo app" None) (idle tenMessages)))
  = [EvFetch (mkBody [mkWire RoleUser "build a todo app"] None)]
  /\ filter isFetch
       (snd (run healthy
               (handleSendWithTemplate
                  (render props0 (idle (firstn 2 tenMessages)))
                  (clockAt 100) "third" None)
               (idle (firstn 2 tenMessages))))
     = [EvFetch (mkBody [mkWire RoleUser "turn 1"; mkWire RoleAssistant "turn 2";
                         mkWire RoleUser "third"] None)].
Proof.
  split.
  - refine (short_history_is_sent_whole healthy emptyRender (clockAt 1500)
              "build a todo app" None (idle tenMessages) alice
              eq_refl eq_refl eq_refl _).
    simpl; lia.
  - refine (short_history_is_sent_whole healthy
              (render props0 (idle (firstn 2 tenMessages))) (clockAt 100)
              "third" None (idle (firstn 2 tenMessages)) alice
              eq_refl eq_refl eq_refl _).
    simpl; lia.
Defined.

(** No assistant message is ever stored half-done: a row with the
    assistant role is written only after the endpoint returned a payload
    without error, and its content is that payload's response. *)
Theorem assistant_row_holds_full_response (b : Backend) (p : Props)
  (clk : Clock) (prompt : string) (template : option string) (st : State)
  (u : User.t) (row : ChatMessage.t) :
  user st = Some u ->
  truthy (trim prompt) = true ->
  isStreaming st = false ->
  In (EvCreate row) (snd (send b p clk prompt template st)) ->
  ChatMessage.role row = RoleAssistant ->
  exists resp data,
    fetch b (requestBody (render p st)
               (userMessageOf (render p st) u clk prompt) template)
      = Fulfilled resp
    /\ json resp = Fulfilled data
    /\ optTruthy (d_error data) = false
    /\ row = rowOf (assistantMessageOf (render p st) u clk) (d_response data).
Proof.
  intros Hu Hp Hs Hin Hrole.
  assert (Huser : row <> rowOf (userMessageOf (render p st) u clk prompt)
                           (ChatMessage.content
                              (userMessageOf (render p st) u clk prompt))).
  { intros ->. discriminate Hrole. }
  destruct (send_outcomes b p clk prompt template st u Hu Hp Hs)
    as [(e & _ & E)|[(_ & _ & E)|[(r & d & e & _ & Hf & Hj & He & _ & E)
       |(r & d & _ & Hf & Hj & He & _ & E)]]];
    rewrite E in Hin; cbn [snd] in Hin.
  - destruct Hin as [H|[H|[]]]; [exfalso; apply Huser; congruence | discriminate H].
  - destruct Hin as [H|[H|[H|[]]]];
      [exfalso; apply Huser; congruence | discriminate H | discriminate H].
  - destruct Hin as [H|[H|[H|[H|[]]]]];
      [exfalso; apply Huser; congruence | discriminate H | | discriminate H].
    injection H as <-. now exists r, d.
  - apply in_app_or in Hin as [Hin|Hin].
    + destruct Hin as [H|[H|[H|[]]]];
        [exfalso; apply Huser; congruence | discriminate H |].
      injection H as <-. now exists r, d.
    + pose proof (callbackEvents_are_calls (render p st) d) as F.
      rewrite Forall_forall in F. specialize (F _ Hin). discriminate F.
Qed.

Lemma assistant_row_witness :
  exists resp data,
    fetch healthy
      (requestBody (render props0 (idle []))
         (userMessageOf (render props0 (idle [])) alice (clockAt 100) "hello")
         None) = Fulfilled resp
    /\ json resp = Fulfilled data
    /\ optTruthy (d_error data) = false
    /\ ChatMessage.mk "msg_101_assistant" RoleAssistant pythonExample 101
         "proj_1" "user_1" None
       = rowOf (assistantMessageOf (render props0 (idle [])) alice
                  (clockAt 100)) (d_response data).
Proof.
  apply (assistant_row_holds_full_response healthy props0 (clockAt 100)
           "hello" None (idle []) alice
           (ChatMessage.mk "msg_101_assistant" RoleAssistant pythonExample 101
              "proj_1" "user_1" None) eq_refl eq_refl eq_refl).
  - right. right. left. reflexivity.
  - reflexivity.
Defined.

(** When the optional callback is not supplied nothing is forwarded,
    whatever the response contains. *)
Theorem nothing_is_forwarded_without_callback (b : Backend) (p : Props)
  (clk : Clock) (prompt : string) (template : option string) (st : State) :
  onCodeGenerated p = false ->
  filter isCodeGenerated (snd (send b p clk prompt template st)) = [].
Proof.
  intros Hcb.
  destruct (accepts (render p st) prompt) eqn:Hacc.
  - unfold accepts in Hacc. cbn [render c_user c_isStreaming] in Hacc.
    destruct (user st) as [u|] eqn:Hu; [|discriminate].
    apply andb_true_iff in Hacc as [Hp Hs]. apply negb_true_iff in Hs.
    destruct (send_outcomes b p clk prompt template st u Hu Hp Hs)
      as [(e & _ & E)|[(_ & _ & E)|[(r & d & e & _ & _ & _ & _ & _ & E)
         |(r & d & _ & _ & _ & _ & _ & E)]]];
      rewrite E; try reflexivity.
    cbn [snd]. rewrite callbackEvents_without_callback by exact Hcb.
    reflexivity.
  - unfold send. rewrite rejected_is_noop by exact Hacc. reflexivity.
Qed.

Lemma nothing_is_forwarded_witness :
  filter isCodeGenerated
    (snd (send healthy (mkProps "proj_1" false) (clockAt 100) "hello" None
            (idle []))) = [].
Proof.
  exact (nothing_is_forwarded_without_callback healthy (mkProps "proj_1" false)
           (clockAt 100) "hello" None (idle []) eq_refl).
Defined.

(** *** The staged prompt *)

Lemma length_removeNth {A} (i : nat) (l : list A) :
  List.length (removeNth i l) <= List.length l.
Proof.
  revert i; induction l as [|x l IH]; intros [|i]; simpl; auto.
  specialize (IH i). lia.
Qed.

Lemma length_replaceNth {A} (i : nat) (x : A) (l : list A) :
  List.length (replaceNth i x l) = List.length l.
Proof.
  revert i; induction l as [|y l IH]; intros [|i]; simpl; auto.
Qed.

Lemma commit_disarmed (w : World) :
  staged w = None ->
  staged (commit w) = None /\ timers (commit w) = timers w.
Proof.
  intros H. unfold commit, autoSendEffect. cbn. rewrite H.
  destruct (user (store w)); split; reflexivity || exact H.
Qed.

Lemma start_disarmed (p : Proc) (w : World) :
  staged w = None ->
  staged (start p w) = None /\ timers (start p w) = timers w.
Proof.
  intros H. unfold start. destruct (runSync p (store w)) as [[st' ev] p'].
  apply (commit_disarmed (mkWorld st' (props w) (handlers w) (staged w)
                            (timers w) (park p' (tasks w)) (log w ++ ev))).
  exact H.
Qed.

Lemma step_disarmed (a : Action) (w : World) :
  staged w = None ->
  staged (step a w) = None
  /\ List.length (timers (step a w)) <= List.length (timers w).
Proof.
  intros H. destruct a as [text|clk|i clk|i r|u|[chatMessages|e]];
    cbn [step].
  - destruct (c_isStreaming (handlers w)); [auto|].
    destruct (commit_disarmed
                (mkWorld (setInput text (store w)) (props w) (handlers w)
                   (staged w) (timers w) (tasks w) (log w)) H) as [S T].
    rewrite S, T. auto.
  - destruct (start_disarmed (handleSend (handlers w) clk) w H) as [S T].
    rewrite S, T. auto.
  - destruct (nth_error (timers w) i) as [t|]; [|auto].
    destruct (t_inner t).
    + pose proof (length_removeNth i (timers w)) as L.
      destruct (truthy (trim (t_prompt t))).
      * destruct (start_disarmed
                    (handleSendWithTemplate (t_closure t) clk (t_prompt t)
                       (t_template t))
                    (mkWorld (store w) (props w) (handlers w) (staged w)
                       (removeNth i (timers w)) (tasks w) (log w)) H)
          as [S T].
        rewrite S, T. auto.
      * cbn. auto.
    + destruct (commit_disarmed
                  (mkWorld (setInput (t_prompt t) (store w)) (props w)
                     (handlers w) (staged w)
                     (replaceNth i
                        (mkTimer (t_closure t) (t_prompt t) (t_template t)
                           true)
                        (timers w))
                     (tasks w) (log w)) H) as [S T].
      rewrite S, T. cbn. rewrite length_replaceNth. auto.
  - destruct (nth_error (tasks w) i) as [p0|]; [|auto].
    destruct (resume p0 r) as [k|]; [|auto].
    destruct (runSync k (store w)) as [[st' ev] p'].
    destruct (commit_disarmed
                (mkWorld st' (props w) (handlers w) (staged w) (timers w)
                   (replaceTask i p' (tasks w)) (log w ++ ev)) H) as [S T].
    rewrite S, T. auto.
  - destruct (commit_disarmed
                (mkWorld (setUser u (store w)) (props w) (handlers w)
                   (staged w) (timers w) (tasks w) (log w)) H) as [S T].
    rewrite S, T. auto.
  - destruct (commit_disarmed
                (mkWorld (setMessages (fun _ => chatMessages) (store w))
                   (props w) (handlers w) (staged w) (timers w) (tasks w)
                   (log w)) H) as [S T].
    rewrite S, T. auto.
  - cbn. auto.
Qed.

Lemma steps_disarmed (l : list Action) (w : World) :
  staged w = None ->
  staged (steps l w) = None
  /\ List.length (timers (steps l w)) <= List.length (timers w).
Proof.
  revert w; induction l as [|a l IH]; intros w H; [auto|].
  destruct (step_disarmed a w H) as [S T].
  destruct (IH (step a w) S) as [S' T']. split; [exact S'|].
  change (steps (a :: l) w) with (steps l (step a w)). lia.
Qed.

(** A staged prompt is consumed when the view mounts with a signed-in
    user: from then on, whatever happens, nothing is staged any more and
    at most one auto-send timer exists, so no later render can replay it. *)
Theorem staged_prompt_is_consumed_once (p : Props) (u : User.t)
  (msgs : list ChatMessage.t) (prompt : string) (template : option string)
  (l : list Action) :
  truthy prompt = true ->
  staged (steps l (mount p u msgs (Some (prompt, template)))) = None
  /\ List.length (timers (steps l (mount p u msgs (Some (prompt, template)))))
     <= 1.
Proof.
  intros Hp.
  assert (M : staged (mount p u msgs (Some (prompt, template))) = None
              /\ List.length
                   (timers (mount p u msgs (Some (prompt, template)))) = 1).
  { unfold mount, commit, autoSendEffect. cbn. rewrite Hp. cbn. auto. }
  destruct M as [S T].
  destruct (steps_disarmed l _ S) as [S' T']. split; [exact S' | lia].
Qed.

Lemma staged_prompt_witness :
  staged (steps overlap landing) = None
  /\ List.length (timers (steps overlap landing)) <= 1.
Proof.
  exact (staged_prompt_is_consumed_once props0 alice [] "build a todo app"
           None overlap eq_refl).
Defined.

(** A staged prompt made of white space only is put into the text area
    by the outer timer and then dropped by the inner one: nothing is
    sent. *)
Theorem blank_staged_prompt_is_not_sent (p : Props) (u : User.t)
  (msgs : list ChatMessage.t) (prompt : string) (template : option string)
  (clk1 clk2 : Clock) :
  truthy prompt = true ->
  truthy (trim prompt) = false ->
  steps [TimerFires 0 clk1; TimerFires 0 clk2]
    (mount p u msgs (Some (prompt, template)))
  = mkWorld (mkState msgs prompt false (Some u)) p
      (render p (mkState msgs prompt false (Some u))) None [] [] [].
Proof.
  intros Hp Hb. unfold mount, steps, commit, autoSendEffect. cbn.
  rewrite Hp. cbn. unfold trim in Hb. rewrite Hb. reflexivity.
Qed.

Lemma blank_staged_prompt_witness :
  log (steps [TimerFires 0 (clockAt 1000); TimerFires 0 (clockAt 1500)]
         (mount props0 alice tenMessages (Some ("   ", None)))) = [].
Proof.
  rewrite (blank_staged_prompt_is_not_sent props0 alice tenMessages "   " None
             (clockAt 1000) (clockAt 1500) eq_refl eq_refl).
  reflexivity.
Defined.

End ConversationMore.

(* ===================================================================== *)
(** * More about the editor                                               *)
(* ===================================================================== *)

Module EditorMore.
Import Js Editor EditorView Examples Examples2 JsFacts EditorFacts.
#[local] Arguments Ascii.eqb : simpl never.

(** *** Paths *)

Lemma split_append_sep (sep : ascii) (a b : string) :
  split sep (a ++ String sep b) = split sep a ++ split sep b.
Proof.
  induction a as [|x a IH]; simpl.
  - now rewrite Ascii.eqb_refl.
  - destruct (Ascii.eqb x sep).
    + now rewrite IH.
    + rewrite IH. destruct (split sep a) as [|l ls] eqn:E.
      * now apply split_nonempty in E.
      * reflexivity.
Qed.

Lemma split_lacks (sep : ascii) (s : string) :
  lacks sep s = true -> split sep s = [s].
Proof.
  unfold lacks. induction s as [|c s IH]; simpl; intros H; [reflexivity|].
  apply andb_true_iff in H as [Hc H].
  apply negb_true_iff in Hc. rewrite Hc, (IH H). reflexivity.
Qed.

Lemma last_segment (sep : ascii) (a b : string) :
  lacks sep b = true ->
  last (split sep (a ++ String sep b)) "" = b.
Proof.
  intros H. rewrite split_append_sep, (split_lacks sep b H).
  apply last_last.
Qed.

(** Only what follows the last dot of a path decides the language, and
    its letter case does not matter; a path without a dot is taken as a
    whole for its own extension. *)
Theorem extension_decides_language (base ext : string) :
  lacks "."%char ext = true ->
  getLanguageFromPath (base ++ "." ++ ext) = languageOf (toLowerCase ext)
  /\ getLanguageFromPath ext = languageOf (toLowerCase ext).
Proof.
  intros H. unfold getLanguageFromPath. split.
  - change (base ++ "." ++ ext)%string with (base ++ String "."%char ext)%string.
    now rewrite last_segment.
  - now rewrite split_lacks.
Qed.

Lemma extension_decides_language_witness :
  getLanguageFromPath "src/components/App.test.TSX" = "typescript"
  /\ getLanguageFromPath "TSX" = "typescript".
Proof.
  exact (extension_decides_language "src/components/App.test" "TSX" eq_refl).
Defined.

(** The label of a tab is what follows the last slash of its path, and
    the whole path when nothing follows it. *)
Theorem tab_label_is_last_segment (dir name : string) :
  lacks "/"%char name = true ->
  tabLabel (dir ++ "/" ++ name)
  = if truthy name then name else (dir ++ "/" ++ name)%string.
Proof.
  intros H. unfold tabLabel.
  change (dir ++ "/" ++ name)%string with (dir ++ String "/"%char name)%string.
  rewrite last_segment by exact H. reflexivity.
Qed.

Lemma tab_label_witness :
  tabLabel "src/components/App.tsx" = "App.tsx" /\ tabLabel "src/" = "src/".
Proof.
  split.
  - exact (tab_label_is_last_segment "src/components" "App.tsx" eq_refl).
  - exact (tab_label_is_last_segment "src" "" eq_refl).
Defined.

(** *** Buffers *)

Lemma getKey_setKey (key v : string) (o : list (string * string)) :
  getKey key (setKey key v o) = Some v.
Proof.
  induction o as [|[k x] o IH]; simpl.
  - now rewrite String.eqb_refl.
  - destruct (String.eqb k key) eqn:E; simpl; now rewrite E.
Qed.

Lemma getKey_setKey_other (key other v : string) (o : list (string * string)) :
  other <> key -> getKey other (setKey key v o) = getKey other o.
Proof.
  intros H. induction o as [|[k x] o IH]; simpl.
  - destruct (String.eqb key other) eqn:E; [|reflexivity].
    apply String.eqb_eq in E. congruence.
  - destruct (String.eqb k key) eqn:E; simpl.
    + apply String.eqb_eq in E. subst k.
      destruct (String.eqb key other) eqn:E'; [|reflexivity].
      apply String.eqb_eq in E'. congruence.
    + now rewrite IH.
Qed.

(** An edit is kept in the buffer of its path and shown by the editor;
    the buffers of other paths, the tabs and the selection are untouched,
    and the change is reported once when the callback is supplied. An
    [undefined] value does nothing at all. *)
Theorem edit_then_read_back (v path : string) (onFileChange : bool)
  (st : State) :
  getKey path
    (fileContents (fst (handleEditorChange (Some v) path onFileChange st)))
    = Some v
  /\ (forall other, other <> path ->
        getKey other
          (fileContents
             (fst (handleEditorChange (Some v) path onFileChange st)))
        = getKey other (fileContents st))
  /\ (selectedFile st = Some path -> truthy path = true ->
        editorValue (fst (handleEditorChange (Some v) path onFileChange st))
        = Some (Text v))
  /\ openTabs (fst (handleEditorChange (Some v) path onFileChange st))
     = openTabs st
  /\ snd (handleEditorChange (Some v) path onFileChange st)
     = (if onFileChange then [(path, v)] else [])
  /\ handleEditorChange None path onFileChange st = (st, []).
Proof.
  cbn [handleEditorChange fst snd fileContents openTabs].
  split; [apply getKey_setKey|]. split.
  { intros other H. now apply getKey_setKey_other. }
  split; [|repeat split].
  intros Hsel Hp. unfold editorValue. cbn [selectedFile fileContents].
  rewrite Hsel, Hp, getKey_setKey. unfold orElse. now destruct v.
Qed.

(** Opening a file never overwrites a buffer that holds text, so edits
    survive a click on the file in the explorer; but a buffer emptied by
    the user counts as missing and is filled again from the file. *)
Theorem reopening_keeps_edits_unless_emptied (file : FileNode.t)
  (c v : string) (onFileChange : bool) (st : State) :
  FileNode.type file = TFile ->
  FileNode.content file = Some c ->
  truthy c = true ->
  getKey (FileNode.path file)
    (fileContents
       (openFile file
          (fst (handleEditorChange (Some v) (FileNode.path file)
                  onFileChange st))))
  = Some (if truthy v then v else c).
Proof.
  intros Ht Hc Hc'. unfold openFile. rewrite Ht, Hc, Hc'.
  cbn [handleEditorChange fst fileContents]. unfold truthyAt.
  rewrite getKey_setKey.
  destruct (truthy v); cbn [andb negb fileContents];
    apply getKey_setKey.
Qed.

Lemma reopening_witness :
  getKey "App.tsx"
    (fileContents
       (openFile (file "App.tsx" "App.tsx")
          (fst (handleEditorChange (Some "") "App.tsx" true twoTabs))))
  = Some "export {}"
  /\ getKey "App.tsx"
       (fileContents
          (openFile (file "App.tsx" "App.tsx")
             (fst (handleEditorChange (Some "draft") "App.tsx" true twoTabs))))
     = Some "draft".
Proof.
  split.
  - exact (reopening_keeps_edits_unless_emptied (file "App.tsx" "App.tsx")
             "export {}" "" true twoTabs eq_refl eq_refl eq_refl).
  - exact (reopening_keeps_edits_unless_emptied (file "App.tsx" "App.tsx")
             "export {}" "draft" true twoTabs eq_refl eq_refl eq_refl).
Defined.

(** *** Tabs *)

Lemma includesTab_spec (l : list string) (p : string) :
  includesTab l p = true <-> In p l.
Proof.
  unfold includesTab. rewrite existsb_exists. split.
  - intros (x & Hx & E). apply String.eqb_eq in E. now subst.
  - intros H. exists p. split; [exact H | apply String.eqb_refl].
Qed.

Lemma includesTab_app_self (l : list string) (p : string) :
  includesTab (l ++ [p]) p = true.
Proof. apply includesTab_spec, in_or_app. right. now left. Qed.

(** Clicking a file twice is the same as clicking it once: its tab is
    neither duplicated nor moved, and the buffer is written at most once. *)
Theorem opening_a_file_twice_changes_nothing (file : FileNode.t)
  (st : State) :
  FileNode.type file = TFile ->
  openFile file (openFile file st) = openFile file st.
Proof.
  intros Ht. unfold openFile. rewrite Ht.
  cbn [openTabs fileContents selectedFile expandedFolders].
  set (p := FileNode.path file).
  assert (T : includesTab
                (if includesTab (openTabs st) p then openTabs st
                 else openTabs st ++ [p]) p = true).
  { destruct (includesTab (openTabs st) p) eqn:E;
      [exact E | apply includesTab_app_self]. }
  rewrite T. f_equal.
  destruct (FileNode.content file) as [c|]; [|reflexivity].
  destruct (truthy c) eqn:Hc; [|reflexivity].
  destruct (truthyAt p (fileContents st)) eqn:G; cbn [andb negb].
  - now rewrite G.
  - unfold truthyAt. now rewrite getKey_setKey, Hc.
Qed.

Lemma opening_twice_witness :
  openFile (file "c.ts" "c.ts") (openFile (file "c.ts" "c.ts") twoTabs)
  = Editor.mkState (Some "c.ts") [("a.ts", "let a"); ("c.ts", "export {}")]
      ["src"] ["a.ts"; "b.ts"; "c.ts"].
Proof.
  rewrite (opening_a_file_twice_changes_nothing (file "c.ts" "c.ts") twoTabs
             eq_refl).
  reflexivity.
Defined.

(** A file whose path is a name every object inherits gets no buffer:
    the test of line 656 finds the inherited member. *)
Example inherited_name_gets_no_buffer :
  fileContents (openFile (file "constructor" "constructor") initial) = []
  /\ editorValue (openFile (file "constructor" "constructor") initial)
     = Some Member
  /\ fileContents (openFile (file "notes" "notes") initial)
     = [("notes", "export {}")].
Proof. repeat split. Qed.

(** Toggling a folder flips its own membership in the expanded set and
    nobody else's, and touches neither tabs, selection nor buffers; a
    second toggle brings the set back. *)
Theorem toggle_flips_one_folder (p q : string) (st : State) :
  (In q (expandedFolders (toggleFolder p st))
   <-> (q = p /\ ~ In p (expandedFolders st))
       \/ (q <> p /\ In q (expandedFolders st)))
  /\ (In q (expandedFolders (toggleFolder p (toggleFolder p st)))
      <-> In q (expandedFolders st))
  /\ openTabs (toggleFolder p st) = openTabs st
  /\ selectedFile (toggleFolder p st) = selectedFile st
  /\ fileContents (toggleFolder p st) = fileContents st.
Proof.
  assert (F : forall l x, In x (filter (neqb p) l) <-> x <> p /\ In x l).
  { intros l x. rewrite filter_In. unfold neqb. rewrite negb_true_iff.
    rewrite String.eqb_neq. split; intros [A B]; split; auto. }
  assert (One : forall x l,
             In x (if includesTab l p then filter (neqb p) l else l ++ [p])
             <-> (x = p /\ ~ In p l) \/ (x <> p /\ In x l)).
  { intros x l. destruct (includesTab l p) eqn:E.
    - apply includesTab_spec in E. rewrite F. split.
      + intros [A B]. right. auto.
      + intros [[-> A]|[A B]]; [contradiction | auto].
    - assert (N : ~ In p l).
      { intros H. apply includesTab_spec in H. congruence. }
      rewrite in_app_iff. simpl. split.
      + intros [H|[<-|[]]]; [right; split; [congruence | exact H] | left; auto].
      + intros [[-> A]|[A B]]; auto. }
  split; [apply One|]. split; [|repeat split].
  unfold toggleFolder at 1. cbn [expandedFolders]. rewrite One.
  cbn [toggleFolder expandedFolders]. rewrite !One.
  destruct (string_dec q p) as [->|N];
    destruct (in_dec string_dec p (expandedFolders st)) as [I|I];
    intuition congruence.
Qed.

(** *** The tab bar stays coherent *)

Lemma coherent_autoOpen (files : list FileNode.t) (st : State) :
  Coherent st -> Coherent (autoOpen files st).
Proof.
  intros H. unfold autoOpen. destruct (filter isMainFile files); [exact H|].
  destruct (List.length (openTabs st) =? 0)%nat; [|exact H].
  split; cbn; [repeat constructor; intros [] | now left].
Qed.

Lemma coherent_afterRender (changed : bool) (files : list FileNode.t)
  (previous current : State) :
  Coherent current -> Coherent (afterRender changed files previous current).
Proof.
  intros H. unfold afterRender.
  destruct (changed || _); [now apply coherent_autoOpen | exact H].
Qed.

Lemma coherent_openFile (node : FileNode.t) (st : State) :
  Coherent st -> Coherent (openFile node st).
Proof.
  intros [N S]. unfold openFile. destruct (FileNode.type node).
  - split; cbn [openTabs selectedFile].
    + destruct (includesTab (openTabs st) (FileNode.path node)) eqn:E;
        [exact N|].
      apply NoDup_app; [exact N | repeat constructor; intros [] |].
      intros x Hx [<-|[]]. apply includesTab_spec in Hx. congruence.
    + destruct (includesTab (openTabs st) (FileNode.path node)) eqn:E.
      * now apply includesTab_spec.
      * apply in_or_app. right. now left.
  - exact (conj N S).
Qed.

Lemma last_In (l : list string) (d : string) : In (last l d) (d :: l).
Proof.
  induction l as [|a l IH]; [now left|].
  destruct l as [|z l]; [right; now left|].
  change (last (a :: z :: l) d) with (last (z :: l) d).
  destruct IH as [H|H]; [left; exact H | right; right; exact H].
Qed.

Lemma coherent_closeTab (p : string) (st : State) :
  Coherent st -> Coherent (closeTab p st).
Proof.
  intros [N S].
  assert (T : openTabs (closeTab p st) = filter (neqb p) (openTabs st)).
  { unfold closeTab. destruct (selectedFile st) as [sel|]; [|reflexivity].
    destruct (String.eqb sel p); reflexivity. }
  split; [rewrite T; now apply NoDup_filter|]. rewrite T.
  unfold closeTab. destruct (selectedFile st) as [sel|]; [|exact I].
  destruct (String.eqb sel p) eqn:E; cbn [selectedFile].
  - destruct (filter (neqb p) (openTabs st)) as [|x l] eqn:R; [exact I|].
    cbn [List.length Nat.ltb Nat.leb lastOpt]. apply last_In.
  - apply filter_In. split; [exact S|].
    unfold neqb. rewrite String.eqb_sym, E. reflexivity.
Qed.

Lemma coherent_act (onFileChange : bool) (w : list FileNode.t * State)
  (a : Action) :
  Coherent (snd w) -> Coherent (snd (act onFileChange w a)).
Proof.
  destruct w as [files st]. cbn [snd]. intros H.
  destruct a as [node|t|t|v|files']; cbn [act].
  - cbn [snd]. apply coherent_afterRender, coherent_openFile, H.
  - destruct (includesTab (openTabs st) t) eqn:E; [|exact H].
    cbn [snd]. apply coherent_afterRender. destruct H as [N S].
    split; [exact N|]. now apply includesTab_spec.
  - destruct (includesTab (openTabs st) t) eqn:E; [|exact H].
    cbn [snd]. apply coherent_afterRender, coherent_closeTab, H.
  - destruct (selectedFile st) as [p|] eqn:Es; [|exact H].
    destruct (truthy p); [|exact H].
    cbn [snd]. apply coherent_afterRender.
    destruct v as [v|]; [|exact H]. destruct H as [N S].
    split; [exact N|]. cbn [handleEditorChange fst selectedFile openTabs].
    now rewrite Es in *.
  - cbn [snd]. apply coherent_afterRender, H.
Qed.

(** Whatever the user does in the explorer, the tab bar and the editor,
    and whatever file lists the parent passes down, no path ever has two
    tabs and the active file always has a tab. *)
Theorem tab_bar_stays_coherent (onFileChange : bool)
  (files : list FileNode.t) (l : list Action) :
  Coherent (snd (session onFileChange files l)).
Proof.
  unfold session.
  assert (G : forall l w, Coherent (snd w) ->
                          Coherent (snd (fold_left (act onFileChange) l w))).
  { clear. induction l as [|a l IH]; intros w H; [exact H|].
    apply IH, coherent_act, H. }
  apply G. cbn [snd]. apply coherent_autoOpen.
  split; [constructor | exact I].
Qed.

(** *** When the auto-open effect does nothing *)

(** With a tab open, or with no top-level entry carrying one of the three
    names, the effect leaves the state alone on mount and after every
    render, however many nested entries carry these names. *)
Theorem auto_open_leaves_state_alone (changed : bool)
  (files : list FileNode.t) (previous current : State) :
  openTabs current <> [] \/ Forall (fun g => ~ MainName g) files ->
  afterRender changed files previous current = current
  /\ autoOpen files current = current.
Proof.
  intros H.
  assert (A : autoOpen files current = current).
  { destruct H as [H|H];
      [now apply autoOpen_keeps_tabs | now apply autoOpen_without_match]. }
  split; [|exact A]. unfold afterRender. rewrite A. now destruct (changed || _).
Qed.

Lemma auto_open_leaves_state_alone_witness :
  mount projectFiles = initial.
Proof.
  refine (proj2 (auto_open_leaves_state_alone true projectFiles initial
                   initial (or_intror _))).
  repeat constructor; unfold MainName; simpl; intros [H|[H|H]]; discriminate H.
Defined.

End EditorMore.

(* ===================================================================== *)
(** * The file explorer                                                   *)
(* ===================================================================== *)

Module ExplorerFacts.
Import Js Editor EditorView Examples Examples2 EditorMore.

(** Induction on a tree and, with it, on all its descendants. *)
Lemma FileNode_induction (P : FileNode.t -> Prop) :
  (forall name path type children content language,
      (forall l, children = Some l -> Forall P l) ->
      P (FileNode.mk name path type children content language)) ->
  forall n, P n.
Proof.
  intros H. fix IH 1. intros [name path type children content language].
  apply H. destruct children as [l0|]; [|discriminate].
  intros l E. injection E as <-.
  induction l0 as [|x l0 IHl]; constructor; [apply IH | exact IHl].
Qed.

(** The rows of a list of siblings, written with [flat_map]. *)
Lemma renderNode_unfold (expanded : list string) (level : nat)
  (node : FileNode.t) :
  renderNode expanded level node
  = (node, level)
    :: match FileNode.type node, FileNode.children node with
       | TDirectory, Some children =>
           if includesTab expanded (FileNode.path node)
           then renderFileTree expanded (S level) children
           else []
       | _, _ => []
       end.
Proof.
  destruct node as [name path type children content language].
  reflexivity.
Qed.

Lemma nodes_unfold (n : FileNode.t) :
  nodes n = n :: match FileNode.children n with
                 | Some l => allNodes l
                 | None => []
                 end.
Proof.
  destruct n as [name path type children content language].
  reflexivity.
Qed.

Lemma renderNode_rows (expanded : list string) (n : FileNode.t) :
  forall level row,
    In row (renderNode expanded level n) ->
    In (fst row) (nodes n) /\ level <= snd row.
Proof.
  induction n as [name path type children content language IH]
    using FileNode_induction.
  intros level row. rewrite renderNode_unfold, nodes_unfold.
  cbn [FileNode.type FileNode.children FileNode.path].
  intros [<-|H]; [split; [now left | reflexivity]|].
  destruct type; [destruct H|].
  destruct children as [l|]; [|destruct H].
  destruct (includesTab expanded path); [|destruct H].
  specialize (IH l eq_refl). unfold renderFileTree in H.
  apply in_flat_map in H as (x & Hx & Hrow).
  rewrite Forall_forall in IH. destruct (IH x Hx _ _ Hrow) as [A B].
  split; [|lia]. right. unfold allNodes. apply in_flat_map. now exists x.
Qed.

(** The explorer shows only nodes of the tree it was given, none
    indented less than the top level. *)
Theorem explorer_rows_are_tree_nodes (expanded : list string) (level : nat)
  (files : list FileNode.t) (row : FileNode.t * nat) :
  In row (renderFileTree expanded level files) ->
  In (fst row) (allNodes files)
  /\ paddingLeft level <= paddingLeft (snd row).
Proof.
  unfold renderFileTree, allNodes. intros H.
  apply in_flat_map in H as (x & Hx & Hrow).
  destruct (renderNode_rows expanded x level row Hrow) as [A B].
  split; [apply in_flat_map; now exists x | unfold paddingLeft; lia].
Qed.

Lemma explorer_rows_witness :
  In (file "main.tsx" "src/main.tsx", 1)
    (renderFileTree ["src"] 0 projectFiles)
  /\ In (file "main.tsx" "src/main.tsx") (allNodes projectFiles)
  /\ paddingLeft 0 <= paddingLeft 1.
Proof.
  assert (I : In (file "main.tsx" "src/main.tsx", 1)
                (renderFileTree ["src"] 0 projectFiles))
    by (right; right; left; reflexivity).
  split; [exact I|].
  exact (explorer_rows_are_tree_nodes ["src"] 0 projectFiles _ I).
Defined.

(** While no top-level node is expanded, the explorer shows the top
    level and nothing else, whatever deeper folders are expanded. *)
Theorem collapsed_top_level_hides_everything_below (expanded : list string)
  (level : nat) (files : list FileNode.t) :
  (forall n, In n files -> includesTab expanded (FileNode.path n) = false) ->
  renderFileTree expanded level files = map (fun n => (n, level)) files.
Proof.
  unfold renderFileTree. induction files as [|x files IH]; intros H.
  - reflexivity.
  - cbn [flat_map map]. rewrite IH by (intros n Hn; apply H; now right).
    rewrite renderNode_unfold, (H x) by now left.
    destruct (FileNode.type x); [reflexivity|].
    destruct (FileNode.children x); reflexivity.
Qed.

Lemma collapsed_top_level_witness :
  (forall n, In n projectFiles ->
             includesTab ["src/components"] (FileNode.path n) = false)
  /\ renderFileTree ["src/components"] 0 projectFiles
     = [(srcDir, 0); (file "package.json" "package.json", 0)].
Proof.
  assert (H : forall n, In n projectFiles ->
                includesTab ["src/components"] (FileNode.path n) = false)
    by (intros n [<-|[<-|[]]]; reflexivity).
  split; [exact H|].
  exact (collapsed_top_level_hides_everything_below
           ["src/components"] 0 projectFiles H).
Defined.

Lemma renderNode_all (expanded : list string) (n : FileNode.t) :
  forall level,
    (forall d l, In d (nodes n) -> FileNode.children d = Some l ->
                 FileNode.type d = TDirectory
                 /\ includesTab expanded (FileNode.path d) = true) ->
    map fst (renderNode expanded level n) = nodes n.
Proof.
  induction n as [name path type children content language IH]
    using FileNode_induction.
  intros level H. rewrite renderNode_unfold, nodes_unfold in *.
  cbn [FileNode.type FileNode.children FileNode.path] in *.
  cbn [map fst]. f_equal.
  destruct children as [l|]; [|now destruct type].
  destruct (H _ l (or_introl eq_refl) eq_refl) as [Ht Hi].
  cbn [FileNode.type FileNode.path] in Ht, Hi. subst type. rewrite Hi.
  specialize (IH l eq_refl). unfold renderFileTree, allNodes.
  assert (Hl : forall x d c, In x l -> In d (nodes x) ->
                 FileNode.children d = Some c ->
                 FileNode.type d = TDirectory
                 /\ includesTab expanded (FileNode.path d) = true).
  { intros x d c Hx Hd. apply H. right. unfold allNodes.
    apply in_flat_map. now exists x. }
  clear H. induction l as [|x l IHl]; [reflexivity|].
  cbn [flat_map]. rewrite map_app.
  inversion IH as [|? ? Hx Hrest]; subst.
  rewrite (Hx (S level) (fun d c => Hl x d c (or_introl eq_refl))).
  f_equal. apply IHl; [exact Hrest|].
  intros y d c Hy. apply (Hl y d c). now right.
Qed.

(** When every node that has children is an expanded directory, the
    explorer lists the whole tree, each parent right before its
    children. *)
Theorem expanded_tree_is_listed_in_full (expanded : list string)
  (level : nat) (files : list FileNode.t) :
  (forall d l, In d (allNodes files) -> FileNode.children d = Some l ->
               FileNode.type d = TDirectory
               /\ includesTab expanded (FileNode.path d) = true) ->
  map fst (renderFileTree expanded level files) = allNodes files.
Proof.
  unfold renderFileTree, allNodes. induction files as [|x files IH]; intros H.
  - reflexivity.
  - cbn [flat_map]. rewrite map_app. f_equal.
    + apply renderNode_all. intros d l Hd. apply H.
      cbn [flat_map]. apply in_or_app. now left.
    + apply IH. intros d l Hd. apply H.
      cbn [flat_map]. apply in_or_app. now right.
Qed.

Lemma expanded_tree_witness :
  (forall d l, In d (allNodes projectFiles) -> FileNode.children d = Some l ->
               FileNode.type d = TDirectory
               /\ includesTab ["src"] (FileNode.path d) = true)
  /\ map fst (renderFileTree ["src"] 0 projectFiles)
     = [ srcDir; file "App.tsx" "src/App.tsx"; file "main.tsx" "src/main.tsx";
         file "package.json" "package.json" ].
Proof.
  assert (H : forall d l, In d (allNodes projectFiles) ->
                FileNode.children d = Some l ->
                FileNode.type d = TDirectory
                /\ includesTab ["src"] (FileNode.path d) = true).
  { intros d l [<-|[<-|[<-|[<-|[]]]]] E;
      try discriminate E; split; reflexivity. }
  split; [exact H|].
  exact (expanded_tree_is_listed_in_full ["src"] 0 projectFiles H).
Defined.
End ExplorerFacts.

(* ===================================================================== *)
(** * More about the schema inspector                                     *)
(* ===================================================================== *)

Module DatabaseMore.
Import Js Database DatabaseView Examples Examples2 DatabaseFacts.

Section Engine.
Variable DB : Type.
Variable sql : string -> DB -> Settled (list Object) * DB.

(** *** Computations that stop at the first failure *)

Lemma FailFast_ret {A} (a : A) : FailFast (ret (DB:=DB) a).
Proof. intros s. constructor. Qed.

Lemma FailFast_runSql (stmt : string) : FailFast (runSql sql stmt).
Proof.
  intros s. unfold runSql, resultOf, eventsOf.
  destruct (sql stmt (snd s)) as [[rows|e] db']; simpl.
  - repeat constructor.
  - exists [], stmt. split; [reflexivity | constructor].
Qed.

Lemma FailFast_bind {A B} (m : M DB A) (f : A -> M DB B) :
  FailFast m -> (forall a, FailFast (f a)) -> FailFast (bind m f).
Proof.
  intros Hm Hf s. unfold bind. specialize (Hm s).
  unfold resultOf, eventsOf in *.
  destruct (m s) as [[[a|e] s1] ev1]; simpl in *; [|exact Hm].
  specialize (Hf a s1). destruct (f a s1) as [[[b|e] s2] ev2]; simpl in *.
  - apply Forall_app. now split.
  - destruct Hf as (pre & stmt & -> & Hpre). exists (ev1 ++ pre), stmt.
    split; [now rewrite app_assoc | apply Forall_app; now split].
Qed.

Lemma FailFast_forEach {A B} (f : A -> M DB B) (l : list A) :
  (forall x, FailFast (f x)) -> FailFast (forEach f l).
Proof.
  intros Hf. induction l as [|x l IH]; simpl.
  - apply FailFast_ret.
  - apply FailFast_bind; [apply Hf|]. intros y.
    apply FailFast_bind; [exact IH|]. intros ys. apply FailFast_ret.
Qed.

Lemma FailFast_describeTable (row : Object) : FailFast (describeTable sql row).
Proof.
  unfold describeTable. apply FailFast_bind; [apply FailFast_runSql|].
  intros sch. apply FailFast_bind; [apply FailFast_runSql|]. intros cnt.
  apply FailFast_ret.
Qed.

Lemma FailFast_listing :
  FailFast (bind (runSql sql listTablesSql) (forEach (describeTable sql))).
Proof.
  apply FailFast_bind; [apply FailFast_runSql|]. intros rows.
  apply FailFast_forEach, FailFast_describeTable.
Qed.

Lemma StopsAtFailure_cons (e : Event) (ev : list Event) :
  failed e = false -> StopsAtFailure ev -> StopsAtFailure (e :: ev).
Proof.
  intros He [H|(pre & stmt & err & -> & H)].
  - left. now constructor.
  - right. exists (e :: pre), stmt, err. split; [reflexivity|].
    now constructor.
Qed.

Lemma loadTables_stops (st : State) (db : DB) :
  StopsAtFailure (eventsOf (loadTables sql (st, db))).
Proof.
  rewrite (loadTables_unfold DB sql).
  pose proof (FailFast_listing (setError None (setIsLoading true st), db))
    as H.
  unfold resultOf, eventsOf in *.
  destruct (bind (runSql sql listTablesSql) (forEach (describeTable sql))
              (setError None (setIsLoading true st), db))
    as [[[tl|e] [st1 db1]] ev]; simpl in *;
    apply StopsAtFailure_cons; try reflexivity.
  - now left.
  - destruct H as (pre & stmt & -> & H). right. now exists pre, stmt, e.
Qed.

Lemma loadTableData_unfold (tableName : Value) (st : State) (db : DB) :
  loadTableData sql tableName (st, db)
  = let stmt := ("SELECT * FROM " ++ valueToString tableName
                   ++ " LIMIT 100")%string in
    match sql stmt db with
    | (Fulfilled rows, db1) =>
        (Fulfilled tt,
         (setIsLoading false
            (setSelectedTable (Some tableName)
               (setTableData rows (setError None (setIsLoading true st)))),
          db1),
         [EvSql stmt None])
    | (Rejected e, db1) =>
        (Fulfilled tt,
         (setIsLoading false
            (setError (Some (errorMessage e "Failed to load table data"))
               (setError None (setIsLoading true st))), db1),
         [EvSql stmt (Some e)])
    end.
Proof.
  unfold loadTableData, tryCatchFinally, bind, modify, runSql. simpl.
  destruct (sql _ db) as [[rows|e] db1]; reflexivity.
Qed.

(** What a refresh leaves alone. *)
Lemma loadTables_frame (st : State) (db : DB) :
  selectedTable (stateOf (loadTables sql (st, db))) = selectedTable st
  /\ tableData (stateOf (loadTables sql (st, db))) = tableData st
  /\ sqlQuery (stateOf (loadTables sql (st, db))) = sqlQuery st
  /\ queryResult (stateOf (loadTables sql (st, db))) = queryResult st
  /\ isLoading (stateOf (loadTables sql (st, db))) = false.
Proof.
  rewrite (loadTables_unfold DB sql).
  pose proof (Quiet_listing DB sql (setError None (setIsLoading true st), db))
    as [Hs _].
  unfold stateOf in *.
  destruct (bind (runSql sql listTablesSql) (forEach (describeTable sql))
              (setError None (setIsLoading true st), db))
    as [[[tl|e] [st1 db1]] ev]; simpl in *; subst st1; repeat split.
Qed.

(** The tables a listing returns, and the statements it takes. *)
Lemma forEach_describeTable (rows : list Object) (s : State * DB) :
  match forEach (describeTable sql) rows s with
  | (Fulfilled tl, _, ev) =>
      map DatabaseTable.name tl = map (prop "name") rows
      /\ List.length (filter isStatement ev) = 2 * List.length rows
  | (Rejected _, _, _) => True
  end.
Proof.
  revert s. induction rows as [|row rows IH]; intros s.
  - simpl. split; reflexivity.
  - cbn [forEach]. remember (forEach (describeTable sql) rows) as F eqn:EF.
    clear EF. unfold describeTable, bind, runSql, ret.
    destruct (sql _ (snd s)) as [[sch|e] db1]; [|exact I].
    cbn [snd fst]. destruct (sql _ db1) as [[cnt|e] db2]; [|exact I].
    specialize (IH (fst s, db2)).
    destruct (F (fst s, db2)) as [[[tl|e] s3] ev3]; [|exact I].
    destruct IH as [IH1 IH2]. cbn [map DatabaseTable.name].
    split; [now rewrite IH1|].
    rewrite !app_nil_r. cbn [app filter isStatement List.length].
    rewrite IH2. lia.
Qed.

Lemma listing_fulfilled (st : State) (db db1 : DB) (rows : list Object) :
  sql listTablesSql db = (Fulfilled rows, db1) ->
  bind (runSql sql listTablesSql) (forEach (describeTable sql)) (st, db)
  = let '(r, s2, ev2) := forEach (describeTable sql) rows (st, db1) in
    (r, s2, EvSql listTablesSql None :: ev2).
Proof.
  intros H. unfold bind, runSql. cbn [snd fst]. rewrite H.
  now destruct (forEach (describeTable sql) rows (st, db1)) as [[r s2] ev2].
Qed.

End Engine.

(** No operation of the panel throws, and each one switches the busy
    indicator off when it ends; only an attempt to run a blank query
    does nothing at all. *)
Theorem every_request_settles_and_stops_loading (DB : Type)
  (sql : string -> DB -> Settled (list Object) * DB) (r : Request)
  (st : State) (db : DB) :
  resultOf (handle sql r (st, db)) = Fulfilled tt
  /\ match r with
     | Query q =>
         if truthy (trim q)
         then isLoading (stateOf (handle sql r (st, db))) = false
         else handle sql r (st, db) = (Fulfilled tt, (st, db), [])
     | _ => isLoading (stateOf (handle sql r (st, db))) = false
     end.
Proof.
  destruct r as [|tableName|q]; cbn [handle].
  - split; [apply (loadTables_failure DB sql) | apply loadTables_frame].
  - rewrite loadTableData_unfold. cbv zeta.
    destruct (sql _ db) as [[rows|e] db1]; split; reflexivity.
  - destruct (truthy (trim q)) eqn:Hq.
    + rewrite (executeQuery_unfold DB sql q st db Hq).
      destruct (sql q db) as [[rows|e] db1]; [|split; reflexivity].
      cbv zeta. destruct (mentionsSchemaChange q); split; reflexivity.
    + unfold executeQuery. rewrite Hq. split; reflexivity.
Qed.

(** Within one operation the engine fails at most once, and nothing is
    asked of it afterwards. *)
Theorem first_failure_ends_the_request (DB : Type)
  (sql : string -> DB -> Settled (list Object) * DB) (r : Request)
  (st : State) (db : DB) :
  StopsAtFailure (eventsOf (handle sql r (st, db))).
Proof.
  destruct r as [|tableName|q]; cbn [handle].
  - apply loadTables_stops.
  - rewrite loadTableData_unfold. cbv zeta.
    destruct (sql _ db) as [[rows|e] db1]; unfold eventsOf; cbn [snd].
    + left. repeat constructor.
    + right. eexists [], _, e. split; [reflexivity | constructor].
  - destruct (truthy (trim q)) eqn:Hq.
    + rewrite (executeQuery_unfold DB sql q st db Hq).
      destruct (sql q db) as [[rows|e] db1].
      * cbv zeta. destruct (mentionsSchemaChange q).
        -- unfold eventsOf at 1. cbn [snd].
           apply StopsAtFailure_cons; [reflexivity | apply loadTables_stops].
        -- left. repeat constructor.
      * right. exists [], q, e. split; [reflexivity | constructor].
    + unfold executeQuery. rewrite Hq. left. constructor.
Qed.

(** A refresh in which no statement fails clears the error and shows one
    table per row of the listing, in the listing's order, after one
    statement for the listing and two per table. *)
Theorem clean_refresh_lists_every_table (DB : Type)
  (sql : string -> DB -> Settled (list Object) * DB)
  (st : State) (db db1 : DB) (rows : list Object) :
  sql listTablesSql db = (Fulfilled rows, db1) ->
  Forall (fun e => failed e = false) (eventsOf (loadTables sql (st, db))) ->
  error (stateOf (loadTables sql (st, db))) = None
  /\ map DatabaseTable.name (tables (stateOf (loadTables sql (st, db))))
     = map (prop "name") rows
  /\ List.length (filter isStatement (eventsOf (loadTables sql (st, db))))
     = 1 + 2 * List.length rows.
Proof.
  intros Hsql. rewrite (loadTables_unfold DB sql).
  pose proof (FailFast_listing DB sql
                (setError None (setIsLoading true st), db)) as HF.
  pose proof (Quiet_listing DB sql
                (setError None (setIsLoading true st), db)) as [HS _].
  revert HF HS. rewrite (listing_fulfilled DB sql _ db db1 rows Hsql).
  pose proof (forEach_describeTable DB sql rows
                (setError None (setIsLoading true st), db1)) as Hrows.
  unfold resultOf, stateOf, eventsOf.
  destruct (forEach (describeTable sql) rows
              (setError None (setIsLoading true st), db1))
    as [[[tl|e] [st2 db2]] ev2]; cbn [fst snd]; intros HF HS Hok.
  - subst st2. destruct Hrows as [H1 H2]. cbn [app filter isStatement].
    cbn [List.length]. rewrite H2. repeat split. exact H1.
  - exfalso. destruct HF as (pre & stmt & E & _).
    inversion Hok as [|? ? _ Hrest]; subst. rewrite E in Hrest.
    apply Forall_app in Hrest as [_ Hlast].
    inversion Hlast as [|? ? Hbad _]. discriminate Hbad.
Qed.

Lemma clean_refresh_witness :
  error (stateOf (loadTables calmSql (shown, ["todos"; "users"]))) = None
  /\ map DatabaseTable.name
       (tables (stateOf (loadTables calmSql (shown, ["todos"; "users"]))))
     = [Str "todos"; Str "users"]
  /\ List.length
       (filter isStatement
          (eventsOf (loadTables calmSql (shown, ["todos"; "users"]))))
     = 5.
Proof.
  refine (clean_refresh_lists_every_table (list string) calmSql shown
            ["todos"; "users"] ["todos"; "users"]
            [[("name", Str "todos")]; [("name", Str "users")]] eq_refl _).
  repeat constructor.
Defined.

(** When the engine rejects the rows of a table, the table shown before
    and its rows stay on screen, with the engine's message (or a fixed
    text) as the error. *)
Theorem failed_table_load_keeps_the_table_shown (DB : Type)
  (sql : string -> DB -> Settled (list Object) * DB) (tableName : Value)
  (st : State) (db db1 : DB) (e : Thrown) :
  sql ("SELECT * FROM " ++ valueToString tableName ++ " LIMIT 100")%string db
    = (Rejected e, db1) ->
  stateOf (handle sql (Rows tableName) (st, db))
  = setIsLoading false
      (setError (Some (errorMessage e "Failed to load table data")) st).
Proof.
  intros H. cbn [handle]. rewrite loadTableData_unfold. cbv zeta.
  rewrite H. reflexivity.
Qed.

Lemma failed_table_load_witness :
  stateOf (handle toySql (Rows (Str "boom")) (shown, ["todos"]))
  = setIsLoading false (setError (Some "no such table: boom") shown).
Proof.
  exact (failed_table_load_keeps_the_table_shown (list string) toySql
           (Str "boom") shown ["todos"] ["todos"]
           (ErrorObject "no such table: boom") eq_refl).
Defined.

(** A statement the engine rejects never triggers a refresh, whatever
    keywords it contains, and the result of the previous query stays. *)
Theorem failed_query_is_not_followed_by_a_refresh (DB : Type)
  (sql : string -> DB -> Settled (list Object) * DB) (q : string)
  (st : State) (db db1 : DB) (e : Thrown) :
  truthy (trim q) = true ->
  sql q db = (Rejected e, db1) ->
  eventsOf (handle sql (Query q) (st, db)) = [EvSql q (Some e)]
  /\ queryResult (stateOf (handle sql (Query q) (st, db))) = queryResult st.
Proof.
  intros Hq H. cbn [handle]. rewrite (executeQuery_unfold DB sql q st db Hq).
  rewrite H. split; reflexivity.
Qed.

Lemma failed_query_witness :
  eventsOf (handle toySql (Query "DROP TABLE boom") (shown, ["todos"]))
  = [EvSql "DROP TABLE boom" (Some (ErrorObject "no such table: boom"))]
  /\ queryResult
       (stateOf (handle toySql (Query "DROP TABLE boom") (shown, ["todos"])))
     = queryResult shown.
Proof.
  exact (failed_query_is_not_followed_by_a_refresh (list string) toySql
           "DROP TABLE boom" shown ["todos"] ["todos"]
           (ErrorObject "no such table: boom") eq_refl eq_refl).
Defined.

(** Once the statement itself has succeeded its rows are kept as the
    query result, also when the refresh that follows fails. *)
Theorem query_result_survives_a_failed_refresh (DB : Type)
  (sql : string -> DB -> Settled (list Object) * DB) (q : string)
  (st : State) (db db1 : DB) (rows : list Object) :
  truthy (trim q) = true ->
  sql q db = (Fulfilled rows, db1) ->
  queryResult (stateOf (handle sql (Query q) (st, db))) = Some rows.
Proof.
  intros Hq H. cbn [handle]. rewrite (executeQuery_unfold DB sql q st db Hq).
  rewrite H. cbv zeta. destruct (mentionsSchemaChange q); [|reflexivity].
  unfold stateOf at 1. cbn [fst snd setIsLoading queryResult].
  now rewrite (proj1 (proj2 (proj2 (proj2 (loadTables_frame DB sql _ db1))))).
Qed.

Lemma query_result_witness :
  queryResult
    (stateOf (handle toySql (Query "ALTER TABLE todos") (shown, ["boom"])))
  = Some []
  /\ error
       (stateOf (handle toySql (Query "ALTER TABLE todos") (shown, ["boom"])))
     = Some "no such table: boom".
Proof.
  split; [|reflexivity].
  exact (query_result_survives_a_failed_refresh (list string) toySql
           "ALTER TABLE todos" shown ["boom"] ["boom"] [] eq_refl eq_refl).
Defined.

(** No operation changes the query text, and only loading a table
    changes the selected table or the rows shown for it: after a query or
    a refresh the selection stays, whether or not its table still
    exists. *)
Theorem selection_outlives_queries_and_refreshes (DB : Type)
  (sql : string -> DB -> Settled (list Object) * DB) (r : Request)
  (st : State) (db : DB) :
  sqlQuery (stateOf (handle sql r (st, db))) = sqlQuery st
  /\ match r with
     | Rows _ => True
     | _ =>
         selectedTable (stateOf (handle sql r (st, db))) = selectedTable st
         /\ tableData (stateOf (handle sql r (st, db))) = tableData st
     end.
Proof.
  destruct r as [|tableName|q]; cbn [handle].
  - destruct (loadTables_frame DB sql st db) as (A & B & C & _). auto.
  - rewrite loadTableData_unfold. cbv zeta.
    destruct (sql _ db) as [[rows|e] db1]; split; auto.
  - destruct (truthy (trim q)) eqn:Hq.
    + rewrite (executeQuery_unfold DB sql q st db Hq).
      destruct (sql q db) as [[rows|e] db1]; [|repeat split].
      cbv zeta. destruct (mentionsSchemaChange q); [|repeat split].
      destruct (loadTables_frame DB sql
                  (setQueryResult (Some rows)
                     (setError None (setIsLoading true st))) db1)
        as (A & B & C & _).
      unfold stateOf in *. cbn [fst snd].
      cbn [setIsLoading sqlQuery selectedTable tableData].
      rewrite A, B, C. repeat split.
    + unfold executeQuery. rewrite Hq. repeat split.
Qed.

End DatabaseMore.

(* ===================================================================== *)
(** * The preview panel and the avatar                                    *)
(* ===================================================================== *)

Module PreviewFacts.
Import Js Preview.

Lemma act_keeps_flags_apart (st : State) (a : Action) :
  isLoading st && loadError st = false ->
  isLoading (act st a) && loadError (act st a) = false.
Proof.
  intros H. destruct a as [| | | |u|m]; cbn [act]; try reflexivity.
  - unfold urlEffect. destruct u as [url|]; [|exact H].
    destruct (truthy url); [reflexivity | exact H].
  - exact H.
Qed.

(** Whatever happens to the panel, in whatever order, it is never both
    loading and failed: the error screen is only shown with the refresh
    button enabled. *)
Theorem preview_is_never_loading_and_failed (previewUrl : option string)
  (l : list Action) :
  isLoading (session previewUrl l) && loadError (session previewUrl l)
  = false.
Proof.
  unfold session.
  assert (H0 : isLoading (urlEffect previewUrl initial)
               && loadError (urlEffect previewUrl initial) = false).
  { unfold urlEffect. destruct previewUrl as [url|]; [|reflexivity].
    now destruct (truthy url). }
  revert H0. generalize (urlEffect previewUrl initial).
  induction l as [|a l IH]; intros st H; [exact H|].
  cbn [fold_left]. apply IH, act_keeps_flags_apart, H.
Qed.

End PreviewFacts.

Module AvatarFacts.
Import Js Avatar Examples Examples2.

(** The avatar shows exactly one character: the first one of the display
    name when there is one; otherwise the first one of the e-mail address
    when there is one; otherwise, and with nobody signed in, the letter
    [U]. *)
Theorem avatar_letter_is_one_character (user : option User.t) :
  String.length (fallback user) = 1
  /\ (forall u c rest,
        user = Some u -> User.displayName u = Some (String c rest) ->
        fallback user = String c "")
  /\ (forall u c rest,
        user = Some u ->
        User.displayName u = None \/ User.displayName u = Some "" ->
        User.email u = String c rest ->
        fallback user = String c "")
  /\ (forall u,
        user = Some u ->
        User.displayName u = None \/ User.displayName u = Some "" ->
        User.email u = "" ->
        fallback user = "U")
  /\ (user = None -> fallback user = "U").
Proof.
  split; [|split; [|split; [|split]]].
  - unfold fallback, optOr. destruct user as [u|]; [|reflexivity].
    destruct (User.displayName u) as [[|c d]|];
      try reflexivity; now destruct (User.email u).
  - intros u c rest -> H. unfold fallback. now rewrite H.
  - intros u c rest -> [H|H] E; unfold fallback; now rewrite H, E.
  - intros u -> [H|H] E; unfold fallback; now rewrite H, E.
  - intros ->. reflexivity.
Qed.

Example avatar_letters :
  fallback (Some bob) = "B" /\ fallback (Some alice) = "a"
  /\ fallback None = "U".
Proof. repeat split. Qed.

End AvatarFacts.
